(** * schedule_filler: free-slot detection and gap filling for a weekly timetable

    A shallow embedding of [schedule_filler.py] and the properties of its
    loader, free-slot computation, gap filler, time-range parser, final sort
    and main program.

    Conventions of the embedding:
    - a Python [str] is a list of Unicode code points ([pystr]);
    - a [datetime.time] built by this program has no microseconds and no
      time zone, so it is the triple (hour, minute, second); comparisons are
      the lexicographic tuple comparisons of CPython;
    - exceptions are explicit ([result]); the shared [random] state is an
      explicit stream of draws threaded through the gap filler;
    - the table of Unicode decimal digits that [\d] consults is a parameter
      ([uni_decimal]) of everything that parses;
    - [print] calls are dropped, except that evaluating their arguments can
      raise (the f-string of [create_new_row] indexes the row);
    - the file system and the [csv] module are outside the embedding: the
      input file is nothing when it cannot be opened, else the rows that
      [csv.reader] yields and whether the reader then ends or raises; [main]
      ends where it hands the header and the rows to the writer. *)

From Stdlib Require Import Ascii String.
From Stdlib Require Import ZArith NArith List Bool Lia.
From Stdlib Require Import Permutation Sorted Orders OrdersTac.
Import ListNotations.

Local Open Scope Z_scope.

(* ================================================================== *)
(** * Part I: the program                                              *)
(* ================================================================== *)

(** ** Strings *)

Definition pychar := N.
Definition pystr := list pychar.

(** ASCII literals of the source, as code points. *)
Definition lit (s : string) : pystr :=
  map N_of_ascii (list_ascii_of_string s).

Definition pystr_eqb (a b : pystr) : bool :=
  if list_eq_dec N.eq_dec a b then true else false.
Arguments pystr_eqb : simpl never.

(** ** Exceptions *)

Inductive exn := ValueError | IndexError.

Inductive result (A : Type) : Type :=
| Ok (a : A)
| Raise (e : exn).
Arguments Ok {A} a.
Arguments Raise {A} e.

Definition rbind {A B} (c : result A) (k : A -> result B) : result B :=
  match c with
  | Ok a => k a
  | Raise e => Raise e
  end.

(** [try: c except ValueError: h] *)
Definition try_except_ValueError {A} (c : result A) (h : result A) : result A :=
  match c with
  | Raise ValueError => h
  | other => other
  end.

Declare Scope result_scope.
Delimit Scope result_scope with result.
Notation "x <- c ;; k" := (rbind c (fun x => k))
  (at level 61, c at next level, right associativity) : result_scope.

(** [l[i]] for a non-negative index. *)
Definition list_get {A} (l : list A) (i : nat) : result A :=
  match nth_error l i with
  | Some a => Ok a
  | None => Raise IndexError
  end.

(** ** datetime.time *)

Record time := mk_time { hour : Z; minute : Z; second : Z }.

(** The range check of the [time] constructor. *)
Definition time_valid (t : time) : Prop :=
  0 <= hour t < 24 /\ 0 <= minute t < 60 /\ 0 <= second t < 60.

(** CPython compares two naive times as the tuples (hour, minute, second,
    microsecond). *)
Definition time_cmp (a b : time) : comparison :=
  match hour a ?= hour b with
  | Eq => match minute a ?= minute b with
          | Eq => second a ?= second b
          | c => c
          end
  | c => c
  end.

Definition time_ltb (a b : time) : bool :=
  match time_cmp a b with Lt => true | _ => false end.
Definition time_gtb (a b : time) : bool :=
  match time_cmp a b with Gt => true | _ => false end.

(** Built-in [max(a, b)] and [min(a, b)]: the first argument is kept unless
    the second is strictly greater (smaller). *)
Definition time_max (a b : time) : time := if time_gtb b a then b else a.
Definition time_min (a b : time) : time := if time_ltb b a then b else a.

Definition to_seconds (t : time) : Z := hour t * 3600 + minute t * 60 + second t.

Definition of_seconds (z : Z) : time :=
  mk_time (z / 3600) ((z mod 3600) / 60) (z mod 60).

(** [(datetime.combine(date.min, b) - datetime.combine(date.min, a)).total_seconds()] *)
Definition seconds_between (a b : time) : Z := to_seconds b - to_seconds a.

(** [(datetime.combine(date.min, t) + timedelta(seconds=d)).time()] for
    [0 <= d]: the date part absorbs whole days. *)
Definition time_add_seconds (t : time) (d : Z) : time :=
  of_seconds ((to_seconds t + d) mod 86400).

Definition digit_char (d : Z) : pychar := (48 + Z.to_N d)%N.

(** ["{:02d}"] for [0 <= z < 100]. *)
Definition two_digits (z : Z) : pystr := [digit_char (z / 10); digit_char (z mod 10)].

Definition colon : pychar := 58%N.

(** [t.isoformat()] of a time without microseconds: [HH:MM:SS]. *)
Definition time_isoformat (t : time) : pystr :=
  two_digits (hour t) ++ [colon] ++ two_digits (minute t) ++ [colon]
  ++ two_digits (second t).

Definition is_ascii_digit (c : pychar) : bool := ((48 <=? c) && (c <=? 57))%N.

Definition digit_val (c : pychar) : option Z :=
  if is_ascii_digit c then Some (Z.of_N c - 48) else None.

Definition two_digit_val (c d : pychar) : option Z :=
  match digit_val c, digit_val d with
  | Some x, Some y => Some (10 * x + y)
  | _, _ => None
  end.

(** [time.fromisoformat] on the strings this program hands to it: the
    eight-character matches of the regular expression. Only ASCII digits are
    accepted, and the fields are range-checked by the [time] constructor;
    everything else is a [ValueError]. The other ISO 8601 forms, which the
    program never passes, are not modelled. *)
Definition time_fromisoformat (s : pystr) : result time :=
  match s with
  | [h1; h2; c1; m1; m2; c2; s1; s2] =>
      match two_digit_val h1 h2, two_digit_val m1 m2, two_digit_val s1 s2 with
      | Some hh, Some mm, Some ss =>
          if (c1 =? colon)%N && (c2 =? colon)%N
             && (hh <? 24) && (mm <? 60) && (ss <? 60)
          then Ok (mk_time hh mm ss)
          else Raise ValueError
      | _, _, _ => Raise ValueError
      end
  | _ => Raise ValueError
  end.

(** ** Global settings *)

Definition DAY_START := mk_time 7 0 0.
Definition DAY_END := mk_time 22 0 0.
Definition LUNCH_START := mk_time 11 30 0.
Definition LUNCH_END := mk_time 13 30 0.
Definition DINNER_START := mk_time 17 30 0.
Definition DINNER_END := mk_time 19 0 0.

Definition location := (pystr * pystr)%type.

(** [f"{i}"], [f"{i:02d}"] and [f"{i:03d}"] on the ranges of the three pools. *)
Definition fmt_d (i : nat) : pystr := [digit_char (Z.of_nat i)].
Definition fmt_02d (i : nat) : pystr := two_digits (Z.of_nat i).
Definition fmt_03d (i : nat) : pystr :=
  digit_char (Z.of_nat i / 100) :: two_digits (Z.of_nat i mod 100).

(** 宿舍 / NNN栋, 食堂 / NN, 图书馆 / N *)
Definition DORMITORIES : list location :=
  map (fun i => ([23487; 33293]%N, fmt_03d i ++ [26635%N])) (seq 1 100).
Definition CANTEENS : list location :=
  map (fun i => ([39135; 22530]%N, fmt_02d i)) (seq 1 10).
Definition LIBRARIES : list location :=
  map (fun i => ([22270; 20070; 39302]%N, fmt_d i)) (seq 1 4).

(** Activity labels. *)
Definition WAKE : pystr := [36215; 24202; 47; 20934; 22791; 47; 26089; 39184]%N.
(* 起床/准备/早餐 *)
Definition STUDY : pystr := [33258; 20064]%N.                                  (* 自习 *)
Definition LUNCH : pystr := [21320; 39184]%N.                                  (* 午餐 *)
Definition DINNER : pystr := [26202; 39184]%N.                                 (* 晚餐 *)
Definition EVENING : pystr :=
  [26202; 19978; 20241; 24687; 47; 22238; 23487; 33293]%N.             (* 晚上休息/回宿舍 *)
Definition REST : pystr := [20241; 24687; 47; 33258; 30001; 27963; 21160]%N.   (* 休息/自由活动 *)

Definition DASH : pystr := lit "-".

(** ** The regular expression [(\d{2}:\d{2}:\d{2})] and the parser *)

Section Parser.

(** [\d] on a [str] pattern matches every Unicode decimal digit. Below 128
    these are the ASCII digits; the table for the other code points belongs to
    the interpreter, not to this program, and is left open. *)
Variable uni_decimal : pychar -> bool.

Definition re_digit (c : pychar) : bool :=
  if (c <? 128)%N then is_ascii_digit c else uni_decimal c.

(** A match of the pattern at the head of [s]. *)
Definition match_hms (s : pystr) : option pystr :=
  match s with
  | c0 :: c1 :: c2 :: c3 :: c4 :: c5 :: c6 :: c7 :: _ =>
      if re_digit c0 && re_digit c1 && (c2 =? colon)%N
         && re_digit c3 && re_digit c4 && (c5 =? colon)%N
         && re_digit c6 && re_digit c7
      then Some [c0; c1; c2; c3; c4; c5; c6; c7]
      else None
  | _ => None
  end.

(** [re.findall]: scan from the left; after a match the scan resumes behind
    it ([skip] counts the characters of the match still to pass over). *)
Fixpoint findall_from (skip : nat) (s : pystr) : list pystr :=
  match s with
  | [] => []
  | _ :: rest =>
      match skip with
      | S k => findall_from k rest
      | O =>
          match match_hms s with
          | Some m => m :: findall_from 7 rest
          | None => findall_from 0 rest
          end
      end
  end.

Definition re_findall (s : pystr) : list pystr := findall_from 0 s.

Definition parse_start_end_from_string (time_col_str : pystr)
  : result (option time * option time) :=
  let matches := re_findall time_col_str in
  if Nat.eqb (length matches) 2 then
    try_except_ValueError
      (m0 <- list_get matches 0 ;;
       start_t <- time_fromisoformat m0 ;;
       m1 <- list_get matches 1 ;;
       end_t <- time_fromisoformat m1 ;;
       Ok (Some start_t, Some end_t))%result
      (Ok (None, None))
  else Ok (None, None).

End Parser.

Definition format_time_range (start_t end_t : time) : pystr :=
  let base_date := lit "1900-01-01" in
  let start_str := base_date ++ lit " " ++ time_isoformat start_t in
  let end_str := base_date ++ lit " " ++ time_isoformat end_t in
  lit "[" ++ start_str ++ lit ", " ++ end_str ++ lit "]".

(** ** Free slots of a day *)

Definition row := list pystr.
Definition slot := (time * time)%type.
Definition class_entry := (time * time * row)%type.

(** One iteration of the loop of [print_free_slots] on the state
    [(current_time, free_slots)]. *)
Definition free_step (st : time * list slot) (c : class_entry) : time * list slot :=
  let '(current_time, free_slots) := st in
  let '(start_t, end_t, _) := c in
  let free_slots :=
    if time_gtb start_t current_time
    then free_slots ++ [(current_time, start_t)]
    else free_slots in
  let current_time :=
    if time_gtb end_t current_time then end_t else current_time in
  (current_time, free_slots).

Definition print_free_slots (day_name : pystr) (classes : list class_entry) : list slot :=
  let '(current_time, free_slots) := fold_left free_step classes (DAY_START, []) in
  if time_ltb current_time DAY_END
  then free_slots ++ [(current_time, DAY_END)]
  else free_slots.

(** ** The shared random state *)

(** [random] is global state that the gap filler consumes through
    [random.choice]; it is a stream of draws, one per call. *)
Definition rng := nat -> nat.

Definition M (A : Type) : Type := rng -> result (A * rng).

Definition mret {A} (a : A) : M A := fun r => Ok (a, r).

Definition mbind {A B} (c : M A) (k : A -> M B) : M B :=
  fun r => match c r with
           | Ok (a, r') => k a r'
           | Raise e => Raise e
           end.

Definition lift {A} (c : result A) : M A :=
  fun r => match c with
           | Ok a => Ok (a, r)
           | Raise e => Raise e
           end.

Declare Scope rand_scope.
Delimit Scope rand_scope with rand.
Notation "x <- c ;; k" := (mbind c (fun x => k))
  (at level 61, c at next level, right associativity) : rand_scope.
Notation "' pat <- c ;; k" := (mbind c (fun x => match x with pat => k end))
  (at level 61, pat pattern, c at next level, right associativity) : rand_scope.

(** [random.choice(pool)]: [pool[i]] for a drawn index [i < len(pool)];
    [IndexError] on an empty pool. *)
Definition choice {A} (pool : list A) : M A :=
  fun r => match pool with
           | [] => Raise IndexError
           | d :: _ => Ok (nth (Nat.modulo (r O) (length pool)) pool d,
                           fun i => r (S i))
           end.

Fixpoint foldM {A S} (body : S -> A -> M S) (l : list A) (st : S) : M S :=
  match l with
  | [] => mret st
  | a :: l' => (st' <- body st a ;; foldM body l' st')%rand
  end.

(** ** The gap filler *)

(** [while len(event) < header_length: event.append("-")] *)
Fixpoint pad_loop (fuel : nat) (header_length : nat) (event : row) : row :=
  match fuel with
  | O => event
  | S fuel' =>
      if Nat.ltb (length event) header_length
      then pad_loop fuel' header_length (event ++ [DASH])
      else event
  end.

(** The closure [create_new_row] of [fill_free_time], with the variables it
    captures ([day_name], [header_length]) as leading arguments. The four
    [list_get] are the row accesses of its [print] call. *)
Definition create_new_row (day_name : pystr) (header_length : nat)
    (activity_name : pystr) (loc_tuple : location) (start_t end_t : time)
  : result row :=
  let '(loc_type, loc_name) := loc_tuple in
  let time_str := format_time_range start_t end_t in
  let event :=
    [activity_name; day_name; DASH; DASH; DASH; DASH; loc_type; loc_name; time_str] in
  let event := pad_loop header_length header_length event in
  let event := firstn header_length event in
  (_ <- list_get event 0 ;;
   _ <- list_get event 1 ;;
   _ <- list_get event 6 ;;
   _ <- list_get event 7 ;;
   Ok event)%result.

(** [l[1:-1]] *)
Definition interior {A} (l : list A) : list A := removelast (tl l).

Section GapFiller.

Context {R : Type}.

(** The row builder; [fill_free_time] instantiates it with its closure. *)
Variable new_row : pystr -> location -> time -> time -> result R.

(** [filled_events.append(create_new_row(name, loc, s, e))] *)
Definition append_row (filled_events : list R) (name : pystr) (loc : location)
    (s e : time) : M (list R) :=
  (r <- lift (new_row name loc s e) ;; mret (filled_events ++ [r]))%rand.

(** Body of the loop over the interior slots, on the state
    [(ate_lunch, filled_events)]. *)
Definition interior_body (st : bool * list R) (sl : slot) : M (bool * list R) :=
  let '(ate_lunch, filled_events) := st in
  let '(start, end_) := sl in
  let lunch_overlap_start := time_max start LUNCH_START in
  let lunch_overlap_end := time_min end_ LUNCH_END in
  let current_time := start in
  ('(ate_lunch, filled_events, current_time) <-
     (if negb ate_lunch && time_ltb lunch_overlap_start lunch_overlap_end then
        filled_events <-
          (if time_ltb current_time lunch_overlap_start then
             lib <- choice LIBRARIES ;;
             append_row filled_events STUDY lib current_time lunch_overlap_start
           else mret filled_events) ;;
        let lunch_duration := seconds_between lunch_overlap_start lunch_overlap_end in
        let actual_lunch_duration := Z.min lunch_duration 3600 in
        let actual_lunch_end_time :=
          time_add_seconds lunch_overlap_start actual_lunch_duration in
        canteen <- choice CANTEENS ;;
        filled_events <-
          append_row filled_events LUNCH canteen lunch_overlap_start
                     actual_lunch_end_time ;;
        mret (true, filled_events, actual_lunch_end_time)
      else mret (ate_lunch, filled_events, current_time)) ;;
   filled_events <-
     (if time_ltb current_time end_ then
        lib <- choice LIBRARIES ;;
        append_row filled_events STUDY lib current_time end_
      else mret filled_events) ;;
   mret (ate_lunch, filled_events))%rand.

(** The last slot: dinner and the evening. *)
Definition last_slot_body (filled_events : list R) (home_dorm : location)
    (sl : slot) : M (list R) :=
  let '(last_slot_start, last_slot_end) := sl in
  let dinner_overlap_start := time_max last_slot_start DINNER_START in
  let dinner_overlap_end := time_min last_slot_end DINNER_END in
  let current_time := last_slot_start in
  ('(filled_events, current_time) <-
     (if time_ltb dinner_overlap_start dinner_overlap_end then
        filled_events <-
          (if time_ltb current_time dinner_overlap_start then
             lib <- choice LIBRARIES ;;
             append_row filled_events STUDY lib current_time dinner_overlap_start
           else mret filled_events) ;;
        let dinner_duration := seconds_between dinner_overlap_start dinner_overlap_end in
        let actual_dinner_duration := Z.min dinner_duration 3600 in
        let actual_dinner_end_time :=
          time_add_seconds dinner_overlap_start actual_dinner_duration in
        canteen <- choice CANTEENS ;;
        filled_events <-
          append_row filled_events DINNER canteen dinner_overlap_start
                     actual_dinner_end_time ;;
        mret (filled_events, actual_dinner_end_time)
      else mret (filled_events, current_time)) ;;
   if time_ltb current_time last_slot_end then
     append_row filled_events EVENING home_dorm current_time last_slot_end
   else mret filled_events)%rand.

(** The body of [fill_free_time]. *)
Definition fill_body (free_slots : list slot) (home_dorm : location) : M (list R) :=
  let filled_events := [] in
  match free_slots with
  | [] => mret []
  | (first_slot_start, first_slot_end) :: _ =>
      (filled_events <-
         append_row filled_events WAKE home_dorm first_slot_start first_slot_end ;;
       '(_, filled_events) <-
         foldM interior_body
               (if Nat.ltb 2 (length free_slots) then interior free_slots else [])
               (false, filled_events) ;;
       if Nat.ltb 1 (length free_slots) then
         last_slot_body filled_events home_dorm
                        (last free_slots (first_slot_start, first_slot_end))
       else if Nat.eqb (length free_slots) 1 then
         append_row filled_events REST home_dorm first_slot_start first_slot_end
       else mret filled_events)%rand
  end.

End GapFiller.

Definition fill_free_time (day_name : pystr) (free_slots : list slot)
    (home_dorm : location) (header_length : nat) : M (list row) :=
  fill_body (create_new_row day_name header_length) free_slots home_dorm.

(** The arguments of one [create_new_row] call: the activity record before
    it is serialised into a row. *)
Record activity := mk_activity {
  act_name : pystr;
  act_loc : location;
  act_start : time;
  act_end : time
}.

Definition record_call (name : pystr) (loc : location) (s e : time) : result activity :=
  Ok (mk_activity name loc s e).

(** The [create_new_row] calls that [fill_free_time] makes, in order. *)
Definition fill_calls (free_slots : list slot) (home_dorm : location) : M (list activity) :=
  fill_body record_call free_slots home_dorm.

Definition act_interval (a : activity) : slot := (act_start a, act_end a).

(** ** The final sort *)

Definition day_map : list (pystr * Z) :=
  map (fun i => ([26143; 26399]%N ++ fmt_d i, Z.of_nat i)) (seq 1 7).   (* 星期1 .. 星期7 *)

(** [d.get(k, default)] *)
Fixpoint dict_get (d : list (pystr * Z)) (k : pystr) (default : Z) : Z :=
  match d with
  | [] => default
  | (k', v) :: d' => if pystr_eqb k' k then v else dict_get d' k default
  end.

Definition sort_key := (Z * time)%type.

(** Tuple comparison of two keys with [<]. *)
Definition key_ltb (a b : sort_key) : bool :=
  (fst a <? fst b) || ((fst a =? fst b) && time_ltb (snd a) (snd b)).

(** [list.sort(key=...)] is stable and compares keys with [<] only; its
    result is that of a stable insertion sort on the decorated list. *)
Fixpoint insert_by_key {A} (x : sort_key * A) (l : list (sort_key * A))
  : list (sort_key * A) :=
  match l with
  | [] => [x]
  | y :: l' =>
      if key_ltb (fst y) (fst x) then y :: insert_by_key x l' else x :: y :: l'
  end.

Fixpoint sort_by_key {A} (l : list (sort_key * A)) : list (sort_key * A) :=
  match l with
  | [] => []
  | x :: l' => insert_by_key x (sort_by_key l')
  end.

Fixpoint mapR {A B} (f : A -> result B) (l : list A) : result (list B) :=
  match l with
  | [] => Ok []
  | a :: l' => (b <- f a ;; bs <- mapR f l' ;; Ok (b :: bs))%result
  end.

Section FinalSort.

Variable uni_decimal : pychar -> bool.

(** [if start_t:] separates [None] from a time: every [time] is true (also
    midnight, since Python 3.5). *)
Definition get_sort_key (r : row) : result sort_key :=
  (day_key <-
     (if Nat.ltb 1 (length r)
      then (d <- list_get r 1 ;; Ok (dict_get day_map d 8))
      else Ok 8) ;;
   parsed <-
     (if Nat.ltb 0 (length r)
      then (t <- list_get r (length r - 1) ;;
            parse_start_end_from_string uni_decimal t)
      else Ok (None, None)) ;;
   match fst parsed with
   | Some start_t => Ok (day_key, start_t)
   | None => Ok (day_key, mk_time 0 0 0)
   end)%result.

(** [all_events_to_write.sort(key=get_sort_key)]: the keys are computed
    first, one per row, then the rows are sorted on them. *)
Definition sort_events (all_events_to_write : list row) : result (list row) :=
  (keys <- mapR get_sort_key all_events_to_write ;;
   Ok (map snd (sort_by_key (combine keys all_events_to_write))))%result.

End FinalSort.

(** ** Vocabulary of the properties *)

(** [a < b] and [a <= b] on times, through the comparison of the code. *)
Definition tlt (a b : time) : Prop := time_ltb a b = true.
Definition tle (a b : time) : Prop := time_ltb b a = false.

(** Times as a totally ordered type, for the order tactic of the standard
    library. *)
Module TimeOrd.
Definition t := time.
Definition eq := @Logic.eq time.
Definition lt := tlt.
Definition le := tle.
End TimeOrd.

Definition slot_start (c : class_entry) : time := fst (fst c).
Definition slot_end (c : class_entry) : time := snd (fst c).
Definition busy_interval (c : class_entry) : slot := fst c.

(** The instant [t] lies in the half-open interval [[start, end)]. *)
Definition covers (t : time) (iv : slot) : bool :=
  negb (time_ltb t (fst iv)) && time_ltb t (snd iv).

(** Number of intervals of [l] that contain the instant [t]. *)
Definition cover_count (t : time) (l : list slot) : nat :=
  length (filter (covers t) l).

(** Two intervals overlap when their intersection
    [[max of the starts, min of the ends)] is not empty: the overlap test of
    the gap filler. *)
Definition overlaps (x y : slot) : Prop :=
  tlt (time_max (fst x) (fst y)) (time_min (snd x) (snd y)).

(** The Free-Slot Computer in the words of the specification: a cursor that
    starts at [DAY_START], a free interval in front of every busy interval
    that starts strictly after the cursor, the cursor advanced to
    [max(cursor, busy.end)], and a final interval up to [DAY_END]. *)
Fixpoint spec_free_slots_from (cursor : time) (busy : list class_entry) : list slot :=
  match busy with
  | [] => if time_ltb cursor DAY_END then [(cursor, DAY_END)] else []
  | b :: rest =>
      (if time_ltb cursor (slot_start b) then [(cursor, slot_start b)] else [])
      ++ spec_free_slots_from (time_max cursor (slot_end b)) rest
  end.

Definition spec_free_slots (busy : list class_entry) : list slot :=
  spec_free_slots_from DAY_START busy.

(** Stable sort of a timeline by start time. *)
Fixpoint insert_by_start (x : slot) (l : list slot) : list slot :=
  match l with
  | [] => [x]
  | y :: l' =>
      if time_ltb (fst y) (fst x) then y :: insert_by_start x l' else x :: y :: l'
  end.

Fixpoint sort_by_start (l : list slot) : list slot :=
  match l with
  | [] => []
  | x :: l' => insert_by_start x (sort_by_start l')
  end.

(** The sort key in the words of the specification: the weekday ordinal of
    the day label (field 1) under the fixed seven-entry mapping, 8 for any
    other or missing label; and the start time that the Time Range Parser
    reads from the last field, 00:00:00 when it reads none. *)
Definition weekday_ordinal (label : pystr) : Z := dict_get day_map label 8.

Definition spec_weekday (r : row) : Z :=
  match nth_error r 1 with
  | Some label => weekday_ordinal label
  | None => 8
  end.

Definition spec_start_time (uni_decimal : pychar -> bool) (r : row) : time :=
  match parse_start_end_from_string uni_decimal (last r []) with
  | Ok (Some start_t, _) => start_t
  | _ => mk_time 0 0 0
  end.

Definition spec_sort_key (uni_decimal : pychar -> bool) (r : row) : sort_key :=
  (spec_weekday r, spec_start_time uni_decimal r).

(** [a <= b] on sort keys: [b < a] does not hold. *)
Definition key_le (a b : sort_key) : Prop := key_ltb b a = false.

(** ** A pure view of the gap filler

    Which rows the gap filler builds does not depend on the random draws:
    only the library and the canteen of a row do. The plan of a day lists
    the rows with the kind of place instead of the place; [realise] then
    draws the places in the order of the calls. Part II proves that
    [fill_body] is [realise] on [fill_plan] followed by the row builder. *)

Inductive place := Home | Library | Canteen.

Definition planned := (pystr * place * slot)%type.

Definition plan_name (p : planned) : pystr := fst (fst p).
Definition plan_place (p : planned) : place := snd (fst p).
Definition plan_interval (p : planned) : slot := snd p.

(** End of a meal that starts at [overlap_start]: the overlap with the meal
    window, at most one hour of it. *)
Definition capped_meal_end (overlap_start overlap_end : time) : time :=
  time_add_seconds overlap_start
    (Z.min (seconds_between overlap_start overlap_end) 3600).

(** The rows for one slot around a meal window: study before the meal, the
    meal, and [rest_name] behind it; [rest_name] for the whole slot when the
    slot misses the window. *)
Definition plan_around (meal rest_name : pystr) (rest_place : place)
    (window_start window_end : time) (sl : slot) : list planned :=
  let '(s, e) := sl in
  let overlap_start := time_max s window_start in
  let overlap_end := time_min e window_end in
  if time_ltb overlap_start overlap_end then
    (if time_ltb s overlap_start then [(STUDY, Library, (s, overlap_start))] else [])
    ++ [(meal, Canteen, (overlap_start, capped_meal_end overlap_start overlap_end))]
    ++ (if time_ltb (capped_meal_end overlap_start overlap_end) e
        then [(rest_name, rest_place, (capped_meal_end overlap_start overlap_end, e))]
        else [])
  else
    if time_ltb s e then [(rest_name, rest_place, (s, e))] else [].

Definition plan_whole (name : pystr) (pl : place) (sl : slot) : list planned :=
  if time_ltb (fst sl) (snd sl) then [(name, pl, sl)] else [].

Definition lunch_overlap (sl : slot) : bool :=
  time_ltb (time_max (fst sl) LUNCH_START) (time_min (snd sl) LUNCH_END).

Definition plan_interior (ate_lunch : bool) (sl : slot) : list planned * bool :=
  if negb ate_lunch && lunch_overlap sl
  then (plan_around LUNCH STUDY Library LUNCH_START LUNCH_END sl, true)
  else (plan_whole STUDY Library sl, ate_lunch).

Fixpoint plan_interiors (ate_lunch : bool) (slots : list slot) : list planned :=
  match slots with
  | [] => []
  | sl :: rest =>
      fst (plan_interior ate_lunch sl)
      ++ plan_interiors (snd (plan_interior ate_lunch sl)) rest
  end.

Definition plan_last (sl : slot) : list planned :=
  plan_around DINNER EVENING Home DINNER_START DINNER_END sl.

Definition fill_plan (free_slots : list slot) : list planned :=
  match free_slots with
  | [] => []
  | first :: rest =>
      match rest with
      | [] => [(WAKE, Home, first); (REST, Home, first)]
      | _ :: _ =>
          (WAKE, Home, first)
          :: plan_interiors false (removelast rest) ++ plan_last (last rest first)
      end
  end.

Definition pick (home_dorm : location) (pl : place) : M location :=
  match pl with
  | Home => mret home_dorm
  | Library => choice LIBRARIES
  | Canteen => choice CANTEENS
  end.

Fixpoint realise (home_dorm : location) (plan : list planned) : M (list activity) :=
  match plan with
  | [] => mret []
  | (name, pl, (s, e)) :: rest =>
      (loc <- pick home_dorm pl ;;
       acts <- realise home_dorm rest ;;
       mret (mk_activity name loc s e :: acts))%rand
  end.

(** An activity carries out a planned row. *)
Definition carries_out (home_dorm : location) (p : planned) (a : activity) : Prop :=
  act_name a = plan_name p
  /\ act_interval a = plan_interval p
  /\ match plan_place p with
     | Home => act_loc a = home_dorm
     | Library => In (act_loc a) LIBRARIES
     | Canteen => In (act_loc a) CANTEENS
     end.

(** The row of an activity, for a header of at least eight columns. *)
Definition render (day_name : pystr) (header_length : nat) (a : activity) : row :=
  firstn header_length
    (pad_loop header_length header_length
       [act_name a; day_name; DASH; DASH; DASH; DASH; fst (act_loc a);
        snd (act_loc a); format_time_range (act_start a) (act_end a)]).

(** Intervals that follow one another from [lo] to [hi], each of positive
    length. *)
Fixpoint chain (lo hi : time) (l : list slot) : Prop :=
  match l with
  | [] => lo = hi
  | iv :: l' => fst iv = lo /\ tlt (fst iv) (snd iv) /\ chain (snd iv) hi l'
  end.

Definition slot_valid (sl : slot) : Prop := time_valid (fst sl) /\ time_valid (snd sl).

Definition is_named (name : pystr) (a : activity) : bool := pystr_eqb (act_name a) name.

Definition named (name : pystr) (p : planned) : bool := pystr_eqb (plan_name p) name.

(** Interior slots that are not carved for lunch become study time. *)
Definition study_only (slots : list slot) : list planned :=
  flat_map (plan_whole STUDY Library) slots.

(** The claim that the part of a meal-window overlap behind the capped meal
    is dropped: no record covers an instant of [leftover]. *)
Definition leftover_dropped (acts : list activity) (leftover : slot) : Prop :=
  forall t, covers t leftover = true ->
            cover_count t (map act_interval acts) = 0%nat.

Definition place_ok (home_dorm : location) (pl : place) (loc : location) : Prop :=
  match pl with
  | Home => loc = home_dorm
  | Library => In loc LIBRARIES
  | Canteen => In loc CANTEENS
  end.

(** The text of a valid time of day. *)
Definition time_text (m : pystr) : Prop :=
  exists t, time_valid t /\ m = time_isoformat t.

(** The rows of a realised plan, built by [f], behind the rows built so
    far; [st] completes them into the state that the code returns. *)
Definition then_rows {R S} (f : activity -> R) (st : list R -> S) (filled : list R)
    (c : result (list activity * rng)) : result (S * rng) :=
  match c with
  | Ok (acts, r) => Ok (st (filled ++ map f acts), r)
  | Raise e => Raise e
  end.

(** ** Loading the schedule and assembling the output

    The remaining functions of the program, [load_schedule] and [main],
    behind what the readers and writers of [csv] hand over: the input file is
    the list of its rows, or nothing when the file is missing; the output is
    the header and the rows given to the writer. *)

(** [schedules]: a [defaultdict(list)] from day labels to class entries; a
    [dict] keeps its keys in insertion order. *)
Definition schedule := list (pystr * list class_entry).

(** [schedules[day].append(entry)] *)
Fixpoint schedule_append (schedules : schedule) (day : pystr) (entry : class_entry)
  : schedule :=
  match schedules with
  | [] => [(day, [entry])]
  | (k, classes) :: rest =>
      if pystr_eqb k day then (k, classes ++ [entry]) :: rest
      else (k, classes) :: schedule_append rest day entry
  end.

(** [schedules[day]] *)
Fixpoint schedule_get (schedules : schedule) (day : pystr) : list class_entry :=
  match schedules with
  | [] => []
  | (k, classes) :: rest =>
      if pystr_eqb k day then classes else schedule_get rest day
  end.

(** [classes.sort(key=lambda x: x[0])]: stable, comparing start times with
    [<]. *)
Fixpoint insert_class (x : class_entry) (l : list class_entry) : list class_entry :=
  match l with
  | [] => [x]
  | y :: l' =>
      if time_ltb (fst (fst y)) (fst (fst x)) then y :: insert_class x l'
      else x :: y :: l'
  end.

Fixpoint sort_classes (l : list class_entry) : list class_entry :=
  match l with
  | [] => []
  | x :: l' => insert_class x (sort_classes l')
  end.

(** [sorted(schedules.keys(), key=lambda d: day_map.get(d, 8))] *)
Fixpoint insert_day (x : pystr) (l : list pystr) : list pystr :=
  match l with
  | [] => [x]
  | y :: l' =>
      if dict_get day_map y 8 <? dict_get day_map x 8 then y :: insert_day x l'
      else x :: y :: l'
  end.

Fixpoint sort_days (l : list pystr) : list pystr :=
  match l with
  | [] => []
  | x :: l' => insert_day x (sort_days l')
  end.

Fixpoint foldR {A S} (body : S -> A -> result S) (l : list A) (st : S) : result S :=
  match l with
  | [] => Ok st
  | a :: l' => (st' <- body st a ;; foldR body l' st')%result
  end.

(** How [csv.reader] ends behind the rows it yields: at the end of the
    file, or with an exception (a line that does not decode, a
    [csv.Error]). *)
Inductive reader_end := EndOfFile | ReaderError.

(** What reading an opened file gives: the rows that the reader yields, the
    header line first, and how it ends. *)
Definition reading := (list row * reader_end)%type.

Section Program.

Variable uni_decimal : pychar -> bool.

(** Body of the loop of [load_schedule] over the rows behind the header. *)
Definition load_row (header : row) (schedules : schedule) (r : row) : result schedule :=
  if Nat.ltb (length r) (length header) then Ok schedules
  else
    (day <- (if Nat.ltb 1 (length r) then list_get r 1 else Ok []) ;;
     time_col_str <- list_get r (length r - 1) ;;
     parsed <- parse_start_end_from_string uni_decimal time_col_str ;;
     match day, parsed with
     | _ :: _, (Some start_t, Some end_t) =>
         Ok (schedule_append schedules day (start_t, end_t, r))
     | _, _ => Ok schedules
     end)%result.

(** [load_schedule]. A file that cannot be opened ([FileNotFoundError]), a
    reader that yields no header line ([next(reader)] raises
    [StopIteration], or the error of the reader), an exception in the body
    of the loop and a reader that raises behind the rows it has yielded all
    end in [return [], {}]: the schedule built so far is given up. *)
Definition load_schedule (csv_file : option reading) : row * schedule :=
  match csv_file with
  | None => ([], [])
  | Some ([], _) => ([], [])
  | Some (header :: rows, reader_end) =>
      match foldR (load_row header) rows [] with
      | Raise _ => ([], [])
      | Ok schedules =>
          match reader_end with
          | ReaderError => ([], [])
          | EndOfFile =>
              (header, map (fun dc => (fst dc, sort_classes (snd dc))) schedules)
          end
      end
  end.

(** Body of the loop of [main] over the days. *)
Definition process_day (header : row) (schedules : schedule)
    (all_events_to_write : list row) (day : pystr) : M (list row) :=
  let classes := schedule_get schedules day in
  (home_dorm <- choice DORMITORIES ;;
   let all_events_to_write := all_events_to_write ++ map snd classes in
   let free_slots := print_free_slots day classes in
   match free_slots with
   | [] => mret all_events_to_write
   | _ :: _ =>
       filled_event_rows <- fill_free_time day free_slots home_dorm (length header) ;;
       mret (all_events_to_write ++ filled_event_rows)
   end)%rand.

(** [main], up to the call of the writer: [None] when the program leaves
    without writing, else the header and the rows it writes. *)
Definition main (csv_file : option reading) : M (option (row * list row)) :=
  let '(header, schedules) := load_schedule csv_file in
  match schedules with
  | [] => mret None
  | _ :: _ =>
      (all_events_to_write <-
         foldM (process_day header schedules) (sort_days (map fst schedules)) [] ;;
       sorted_events <- lift (sort_events uni_decimal all_events_to_write) ;;
       mret (Some (header, sorted_events)))%rand
  end.

End Program.

(** A row that [load_schedule] keeps under [header]: long enough, with a
    day label, and with a last field that reads as two times. *)
Definition loadable (uni_decimal : pychar -> bool) (header r : row) : bool :=
  negb (Nat.ltb (length r) (length header))
  && match nth_error r 1 with
     | Some (_ :: _) => true
     | _ => false
     end
  && match parse_start_end_from_string uni_decimal (last r []) with
     | Ok (Some _, Some _) => true
     | _ => false
     end.

(** The rows of a schedule, day after day. *)
Definition schedule_rows (schedules : schedule) : list row :=
  concat (map (fun dc => map snd (snd dc)) schedules).

(** A meal inside its window [[window_start, window_end]], of positive
    length and of one hour at most. *)
Definition meal_within (window_start window_end : time) (iv : slot) : Prop :=
  tle window_start (fst iv) /\ tle (snd iv) window_end
  /\ 0 < seconds_between (fst iv) (snd iv) <= 3600.

(** Which kind of place goes with which activity label. *)
Definition label_place (name : pystr) (pl : place) : Prop :=
  match pl with
  | Home => name = WAKE \/ name = REST \/ name = EVENING
  | Library => name = STUDY
  | Canteen => name = LUNCH \/ name = DINNER
  end.

(** The meals of a planned row keep to their windows. *)
Definition meals_in_windows (p : planned) : Prop :=
  (plan_name p = LUNCH -> meal_within LUNCH_START LUNCH_END (plan_interval p))
  /\ (plan_name p = DINNER -> meal_within DINNER_START DINNER_END (plan_interval p)).

(** The entry that a loadable row contributes, with its day. *)
Definition load_entry (uni_decimal : pychar -> bool) (r : row)
  : option (pystr * class_entry) :=
  match nth_error r 1, parse_start_end_from_string uni_decimal (last r []) with
  | Some (c :: day), Ok (Some start_t, Some end_t) =>
      Some (c :: day, (start_t, end_t, r))
  | _, _ => None
  end.

(** The entries of the loadable rows, in file order. *)
Definition accepted_entries (uni_decimal : pychar -> bool) (header : row)
    (rows : list row) : list (pystr * class_entry) :=
  flat_map (fun r => if loadable uni_decimal header r
                     then match load_entry uni_decimal r with
                          | Some x => [x]
                          | None => []
                          end
                     else []) rows.

(** A schedule extended by entries, one append after the other. *)
Definition append_entries (schedules : schedule)
    (entries : list (pystr * class_entry)) : schedule :=
  fold_left (fun sch x => schedule_append sch (fst x) (snd x)) entries schedules.

(** Every entry of the schedule, with its day. *)
Definition schedule_entries (schedules : schedule) : list (pystr * class_entry) :=
  flat_map (fun dc => map (fun c => (fst dc, c)) (snd dc)) schedules.

(** An entry of the schedule under [day] that stands for a row of the
    file: the row is long enough for the header, [day] is its second field,
    and the two times are those the parser reads in its last field. *)
Definition loaded_from (uni_decimal : pychar -> bool) (header : row)
    (rows : list row) (day : pystr) (c : class_entry) : Prop :=
  In (snd c) rows
  /\ (length header <= length (snd c))%nat
  /\ nth_error (snd c) 1 = Some day
  /\ parse_start_end_from_string uni_decimal (last (snd c) [])
     = Ok (Some (fst (fst c)), Some (snd (fst c)))
  /\ time_valid (fst (fst c)) /\ time_valid (snd (fst c)).

(** The second field of the row is [day]. *)
Definition row_day_is (day : pystr) (r : row) : bool :=
  match nth_error r 1 with
  | Some d => pystr_eqb d day
  | None => false
  end.

(* ================================================================== *)
(** * Part II: properties                                              *)
(* ================================================================== *)

(** ** The order on times *)

Lemma time_cmp_lt_lex a b :
  time_cmp a b = Lt <->
  hour a < hour b \/
  (hour a = hour b /\
   (minute a < minute b \/ (minute a = minute b /\ second a < second b))).
Proof.
  unfold time_cmp.
  destruct (Z.compare_spec (hour a) (hour b));
    destruct (Z.compare_spec (minute a) (minute b));
    destruct (Z.compare_spec (second a) (second b));
    split; intros; try discriminate; try reflexivity; lia.
Qed.

Lemma time_cmp_gt_lex a b :
  time_cmp a b = Gt <-> time_cmp b a = Lt.
Proof.
  unfold time_cmp.
  destruct (Z.compare_spec (hour a) (hour b));
    destruct (Z.compare_spec (minute a) (minute b));
    destruct (Z.compare_spec (second a) (second b));
    destruct (Z.compare_spec (hour b) (hour a));
    destruct (Z.compare_spec (minute b) (minute a));
    destruct (Z.compare_spec (second b) (second a));
    split; intros; try discriminate; try reflexivity; lia.
Qed.

Lemma time_gtb_ltb a b : time_gtb a b = time_ltb b a.
Proof.
  unfold time_gtb, time_ltb.
  destruct (time_cmp a b) eqn:E1; destruct (time_cmp b a) eqn:E2; try reflexivity;
    try (apply time_cmp_gt_lex in E1; congruence);
    try (apply time_cmp_gt_lex in E2; congruence).
Qed.

Lemma tlt_lex a b :
  tlt a b <->
  hour a < hour b \/
  (hour a = hour b /\
   (minute a < minute b \/ (minute a = minute b /\ second a < second b))).
Proof.
  unfold tlt, time_ltb. rewrite <- time_cmp_lt_lex.
  destruct (time_cmp a b); split; congruence.
Qed.

Lemma tle_not_tlt a b : tle a b <-> ~ tlt b a.
Proof. unfold tle, tlt. destruct (time_ltb b a); split; congruence. Qed.

Lemma time_eq_fields a b :
  a = b <-> hour a = hour b /\ minute a = minute b /\ second a = second b.
Proof.
  destruct a, b; simpl. split.
  - intros H; inversion H; auto.
  - intros (-> & -> & ->); reflexivity.
Qed.

Module TimeOrdFacts.
Import TimeOrd.

#[global] Instance eq_equiv : Equivalence eq.
Proof. unfold eq. split; congruence. Qed.

#[global] Instance lt_strorder : StrictOrder lt.
Proof.
  split.
  - intros x H. apply tlt_lex in H. lia.
  - intros x y z H1 H2. apply tlt_lex in H1, H2. apply tlt_lex. lia.
Qed.

#[global] Instance lt_compat : Proper (eq ==> eq ==> iff) lt.
Proof. unfold eq. intros x x' -> y y' ->. reflexivity. Qed.

Lemma le_lteq x y : le x y <-> lt x y \/ eq x y.
Proof.
  unfold le, lt, eq. rewrite tle_not_tlt, !tlt_lex, time_eq_fields. lia.
Qed.

Lemma lt_total x y : lt x y \/ eq x y \/ lt y x.
Proof. unfold lt, eq. rewrite !tlt_lex, time_eq_fields. lia. Qed.

End TimeOrdFacts.

Module TimeTac := MakeOrderTac TimeOrd TimeOrdFacts.

(** Order reasoning on times: comparisons of the code become [tlt]/[tle]
    facts, which [order] then closes. *)
Ltac time_facts :=
  repeat match goal with
  | H : time_ltb ?a ?b = true |- _ => change (TimeOrd.lt a b) in H
  | H : time_ltb ?a ?b = false |- _ => change (TimeOrd.le b a) in H
  | H : tlt ?a ?b |- _ => change (TimeOrd.lt a b) in H
  | H : tle ?a ?b |- _ => change (TimeOrd.le a b) in H
  | H : ~ tlt ?a ?b |- _ => change (~ TimeOrd.lt a b) in H
  | H : ~ tle ?a ?b |- _ => change (~ TimeOrd.le a b) in H
  end;
  try match goal with
  | |- time_ltb ?a ?b = true => change (TimeOrd.lt a b)
  | |- time_ltb ?a ?b = false => change (TimeOrd.le b a)
  | |- tlt ?a ?b => change (TimeOrd.lt a b)
  | |- tle ?a ?b => change (TimeOrd.le a b)
  | |- ~ tlt ?a ?b => change (~ TimeOrd.lt a b)
  | |- ~ tle ?a ?b => change (~ TimeOrd.le a b)
  end.

Ltac time_order := time_facts; TimeTac.order.

Lemma time_max_cases a b :
  (tlt a b /\ time_max a b = b) \/ (tle b a /\ time_max a b = a).
Proof.
  unfold time_max. rewrite time_gtb_ltb.
  destruct (time_ltb a b) eqn:E; [left | right]; split; auto.
Qed.

Lemma time_min_cases a b :
  (tlt b a /\ time_min a b = b) \/ (tle a b /\ time_min a b = a).
Proof.
  unfold time_min.
  destruct (time_ltb b a) eqn:E; [left | right]; split; auto.
Qed.

(** ** The Free-Slot Computer *)

Lemma free_loop_unfold busy : forall cursor free_slots,
  (let '(c, fs) := fold_left free_step busy (cursor, free_slots) in
   if time_ltb c DAY_END then fs ++ [(c, DAY_END)] else fs)
  = free_slots ++ spec_free_slots_from cursor busy.
Proof.
  induction busy as [| [[s e] r] busy IH]; intros cursor fs; simpl.
  - destruct (time_ltb cursor DAY_END); [reflexivity | now rewrite app_nil_r].
  - rewrite !time_gtb_ltb. unfold slot_start, slot_end, time_max; simpl.
    rewrite time_gtb_ltb.
    destruct (time_ltb cursor s); rewrite IH; [rewrite <- app_assoc |]; reflexivity.
Qed.

Lemma print_free_slots_unfold day busy :
  print_free_slots day busy = spec_free_slots busy.
Proof.
  unfold print_free_slots, spec_free_slots.
  exact (free_loop_unfold busy DAY_START []).
Qed.

Lemma free_slots_positive busy : forall cursor,
  Forall (fun iv => tlt (fst iv) (snd iv)) (spec_free_slots_from cursor busy).
Proof.
  induction busy as [| b busy IH]; intros cursor; simpl.
  - destruct (time_ltb cursor DAY_END) eqn:E; constructor; auto.
  - apply Forall_app; split; [| apply IH].
    destruct (time_ltb cursor (slot_start b)) eqn:E; constructor; auto.
Qed.

(** With well-formed busy intervals the free intervals come out one after
    the other: each starts at or after the cursor, and each ends before the
    next begins. *)
Lemma free_slots_ordered busy : forall cursor,
  Forall (fun b => tle (slot_start b) (slot_end b)) busy ->
  Forall (fun iv => tle cursor (fst iv)) (spec_free_slots_from cursor busy) /\
  StronglySorted (fun x y => tle (snd x) (fst y)) (spec_free_slots_from cursor busy).
Proof.
  induction busy as [| b busy IH]; intros cursor Hwf; simpl.
  - destruct (time_ltb cursor DAY_END) eqn:E; split; repeat constructor.
    simpl. time_order.
  - inversion Hwf as [| ? ? Hb Hrest]; subst.
    destruct (IH (time_max cursor (slot_end b)) Hrest) as [Hlo Hsorted].
    destruct (time_max_cases cursor (slot_end b)) as [[Hlt Hmax] | [Hle Hmax]];
      rewrite Hmax in *;
      destruct (time_ltb cursor (slot_start b)) eqn:E; simpl; split;
      try (constructor; [simpl; time_order |]);
      try (constructor; [assumption |]);
      try assumption;
      try (eapply Forall_impl; [| exact Hlo]; simpl; intros; time_order).
Qed.

Lemma StronglySorted_irrefl_NoDup {A} (R : A -> A -> Prop) (l : list A) :
  Forall (fun x => ~ R x x) l -> StronglySorted R l -> NoDup l.
Proof.
  intros Hirr Hs. induction Hs as [| x l Hs IH Hx]; constructor.
  - intros Hin. inversion Hirr as [| ? ? Hxx _]; subst.
    rewrite Forall_forall in Hx. exact (Hxx (Hx x Hin)).
  - apply IH. now inversion Hirr.
Qed.

(** C5. The Free-Slot Computer is the cursor algorithm of the specification:
    [print_free_slots] computes what the cursor formulation computes; every
    iteration emits [[cursor, busy.start)] exactly when the busy interval
    starts strictly after the cursor and moves the cursor to
    [max(cursor, busy.end)], never backwards; every free interval has
    positive length; with busy intervals whose start does not exceed their
    end no free interval occurs twice; no busy interval gives the whole day,
    and one busy interval covering the day gives nothing. *)
Theorem free_slot_computer_algorithm (day : pystr) (busy : list class_entry) :
  print_free_slots day busy = spec_free_slots busy
  /\ (forall st b,
        fst (free_step st b) = time_max (fst st) (slot_end b)
        /\ tle (fst st) (fst (free_step st b))
        /\ snd (free_step st b)
           = snd st ++ (if time_ltb (fst st) (slot_start b)
                        then [(fst st, slot_start b)] else []))
  /\ Forall (fun iv => tlt (fst iv) (snd iv)) (print_free_slots day busy)
  /\ (Forall (fun b => tle (slot_start b) (slot_end b)) busy ->
      NoDup (print_free_slots day busy))
  /\ print_free_slots day [] = [(DAY_START, DAY_END)]
  /\ (forall b, tle (slot_start b) DAY_START -> tle DAY_END (slot_end b) ->
      print_free_slots day [b] = []).
Proof.
  repeat split.
  - apply print_free_slots_unfold.
  - destruct st as [c fs], b as [[s e] r]; reflexivity.
  - destruct st as [c fs], b as [[s e] r]; unfold free_step; simpl.
    rewrite time_gtb_ltb. destruct (time_ltb c e) eqn:E; time_order.
  - destruct st as [c fs], b as [[s e] r]; unfold free_step, slot_start; simpl.
    rewrite time_gtb_ltb. destruct (time_ltb c s); [reflexivity | now rewrite app_nil_r].
  - rewrite print_free_slots_unfold. apply free_slots_positive.
  - intros Hwf. rewrite print_free_slots_unfold.
    apply StronglySorted_irrefl_NoDup with (R := fun x y => tle (snd x) (fst y)).
    + eapply Forall_impl; [| apply free_slots_positive]. simpl. intros iv H H'. time_order.
    + apply free_slots_ordered; assumption.
  - intros [[s e] r] Hs He. unfold slot_start, slot_end in *; simpl in *.
    rewrite print_free_slots_unfold. unfold spec_free_slots; simpl.
    unfold slot_start, slot_end; simpl.
    destruct (time_ltb DAY_START s) eqn:E1; [time_order |].
    destruct (time_max_cases DAY_START e) as [[H1 ->] | [H1 ->]]; simpl.
    + destruct (time_ltb e DAY_END) eqn:E2; [time_order | reflexivity].
    + exfalso. assert (tlt DAY_START DAY_END) by reflexivity. time_order.
Qed.

Lemma free_slot_computer_algorithm_witness :
  NoDup (print_free_slots [] [(mk_time 9 0 0, mk_time 10 35 0, []);
                              (mk_time 10 0 0, mk_time 12 0 0, [])])
  /\ print_free_slots [] [(mk_time 6 30 0, mk_time 22 0 0, [])] = [].
Proof.
  split.
  - apply (free_slot_computer_algorithm []
             [(mk_time 9 0 0, mk_time 10 35 0, []);
              (mk_time 10 0 0, mk_time 12 0 0, [])]).
    repeat constructor.
  - apply (free_slot_computer_algorithm [] []); reflexivity.
Defined.

(** Without the interval invariant [start <= end] a free interval can be
    emitted twice: two rows that both run backwards from 09:00 to 06:00. *)
Example free_slots_reversed_rows :
  print_free_slots [] [(mk_time 9 0 0, mk_time 6 0 0, []);
                       (mk_time 9 0 0, mk_time 6 0 0, [])]
  = [(DAY_START, mk_time 9 0 0); (DAY_START, mk_time 9 0 0); (DAY_START, DAY_END)].
Proof. reflexivity. Qed.

(** ** Tiling of the day *)

Lemma cover_count_app t l1 l2 :
  cover_count t (l1 ++ l2) = (cover_count t l1 + cover_count t l2)%nat.
Proof. unfold cover_count. now rewrite filter_app, length_app. Qed.

Lemma cover_count_cons t iv l :
  cover_count t (iv :: l) = ((if covers t iv then 1 else 0) + cover_count t l)%nat.
Proof. unfold cover_count; simpl. now destruct (covers t iv). Qed.

Lemma cover_count_perm t l1 l2 :
  Permutation l1 l2 -> cover_count t l1 = cover_count t l2.
Proof.
  induction 1; rewrite ?cover_count_cons; lia.
Qed.

Lemma insert_by_start_perm x l : Permutation (x :: l) (insert_by_start x l).
Proof.
  induction l as [| y l IH]; simpl; auto.
  destruct (time_ltb (fst y) (fst x)); auto.
  rewrite perm_swap. now constructor.
Qed.

Lemma sort_by_start_perm l : Permutation l (sort_by_start l).
Proof.
  induction l as [| x l IH]; simpl; auto.
  rewrite <- insert_by_start_perm. now constructor.
Qed.

Lemma insert_by_start_sorted x l :
  StronglySorted (fun a b => tle (fst a) (fst b)) l ->
  StronglySorted (fun a b => tle (fst a) (fst b)) (insert_by_start x l).
Proof.
  induction 1 as [| y l Hs IH Hy]; simpl.
  - repeat constructor.
  - destruct (time_ltb (fst y) (fst x)) eqn:E.
    + constructor; auto.
      rewrite <- insert_by_start_perm. constructor; auto. time_order.
    + constructor; [now constructor |].
      constructor; auto.
      eapply Forall_impl; [| exact Hy]. simpl; intros. time_order.
Qed.

Lemma sort_by_start_sorted l :
  StronglySorted (fun a b => tle (fst a) (fst b)) (sort_by_start l).
Proof.
  induction l; simpl; [constructor | now apply insert_by_start_sorted].
Qed.

Ltac split_covers :=
  unfold covers; simpl;
  repeat match goal with
  | |- context [time_ltb ?a ?b] =>
      let E := fresh "E" in destruct (time_ltb a b) eqn:E; simpl
  end.

(** The free slots computed from a cursor tile [[cursor, DAY_END)] together
    with the busy intervals still to come, when those are sorted, well
    formed, pairwise disjoint, and the non-empty ones start at or after the
    cursor. *)
Lemma tiling_from busy : forall cursor,
  tle cursor DAY_END ->
  StronglySorted (fun x y => tle (slot_start x) (slot_start y)) busy ->
  Forall (fun b => tle (slot_start b) (slot_end b) /\ tle (slot_end b) DAY_END) busy ->
  ForallOrdPairs (fun x y => ~ overlaps (busy_interval x) (busy_interval y)) busy ->
  Forall (fun b => tlt (slot_start b) (slot_end b) -> tle cursor (slot_start b)) busy ->
  forall t,
    cover_count t (map busy_interval busy ++ spec_free_slots_from cursor busy)
    = if covers t (cursor, DAY_END) then 1%nat else 0%nat.
Proof.
  induction busy as [| b busy IH]; intros cursor Hc Hsort Hwf Hdis Hlo t.
  - simpl. destruct (time_ltb cursor DAY_END) eqn:E; unfold cover_count; simpl.
    + destruct (covers t (cursor, DAY_END)); reflexivity.
    + split_covers; try reflexivity. time_order.
  - inversion Hsort as [| ? ? Hsort' Hb_le]; subst.
    inversion Hwf as [| ? ? [Hb1 Hb2] Hwf']; subst.
    inversion Hdis as [| ? ? Hb_dis Hdis']; subst.
    inversion Hlo as [| ? ? Hb_lo Hlo']; subst.
    assert (Hnext : Forall (fun r => tlt (slot_start r) (slot_end r) ->
                              tle (time_max cursor (slot_end b)) (slot_start r)) busy).
    { rewrite Forall_forall in *. intros r Hr Hne.
      specialize (Hb_le r Hr). specialize (Hb_dis r Hr). specialize (Hlo' r Hr Hne).
      destruct (time_max_cases cursor (slot_end b)) as [[Hlt ->] | [Hle ->]]; auto.
      unfold overlaps, busy_interval, slot_start, slot_end in *.
      destruct b as [[s e] rb], r as [[s' e'] rr]; simpl in *.
      destruct (time_max_cases s s') as [[? Hm] | [? Hm]]; rewrite Hm in Hb_dis;
        destruct (time_min_cases e e') as [[? Hn] | [? Hn]]; rewrite Hn in Hb_dis;
        time_order. }
    assert (Hc' : tle (time_max cursor (slot_end b)) DAY_END).
    { destruct (time_max_cases cursor (slot_end b)) as [[Hlt ->] | [Hle ->]]; auto. }
    specialize (IH _ Hc' Hsort' Hwf' Hdis' Hnext t).
    simpl. rewrite cover_count_cons, !cover_count_app.
    rewrite cover_count_app in IH.
    generalize dependent (cover_count t (map busy_interval busy)).
    generalize dependent
      (cover_count t (spec_free_slots_from (time_max cursor (slot_end b)) busy)).
    clear Hnext Hlo' Hdis' Hwf' Hsort' Hb_le Hb_dis Hlo Hdis Hwf Hsort.
    unfold busy_interval, slot_start, slot_end in *.
    destruct b as [[s e] rb]; simpl in *.
    intros n m.
    destruct (time_max_cases cursor e) as [[Hlt Hm] | [Hle Hm]]; rewrite Hm in *;
      destruct (time_ltb cursor s) eqn:Ecs; unfold cover_count; simpl;
      split_covers; intros IH; try lia; exfalso;
      try (assert (tle cursor s) by (apply Hb_lo; time_order));
      time_order.
Qed.

(** C3. Tiling: for busy intervals sorted by start, lying within the day
    with [start <= end], and pairwise non-overlapping, the busy intervals
    together with the free slots of [print_free_slots], sorted by start time,
    cover the day exactly: every instant of [[DAY_START, DAY_END)] lies in
    exactly one interval of the timeline and no other instant lies in any. *)
Theorem busy_and_free_tile_the_day (day : pystr) (busy : list class_entry) :
  Sorted (fun x y => tle (slot_start x) (slot_start y)) busy ->
  Forall (fun b => tle DAY_START (slot_start b)
                   /\ tle (slot_start b) (slot_end b)
                   /\ tle (slot_end b) DAY_END) busy ->
  ForallOrdPairs (fun x y => ~ overlaps (busy_interval x) (busy_interval y)) busy ->
  let timeline :=
    sort_by_start (map busy_interval busy ++ print_free_slots day busy) in
  Permutation (map busy_interval busy ++ print_free_slots day busy) timeline
  /\ StronglySorted (fun a b => tle (fst a) (fst b)) timeline
  /\ forall t,
       cover_count t timeline
       = if covers t (DAY_START, DAY_END) then 1%nat else 0%nat.
Proof.
  intros Hsort Hwf Hdis timeline. subst timeline.
  split; [apply sort_by_start_perm |].
  split; [apply sort_by_start_sorted |].
  intros t. rewrite <- (cover_count_perm t _ _ (sort_by_start_perm _)).
  rewrite print_free_slots_unfold. apply tiling_from.
  - reflexivity.
  - apply Sorted_StronglySorted; auto.
    intros x y z H1 H2. time_order.
  - eapply Forall_impl; [| exact Hwf]. simpl. tauto.
  - assumption.
  - eapply Forall_impl; [| exact Hwf]. simpl. tauto.
Qed.

Lemma busy_and_free_tile_the_day_witness :
  cover_count (mk_time 12 30 0)
    (sort_by_start
       (map busy_interval [(mk_time 9 0 0, mk_time 10 35 0, []);
                           (mk_time 10 35 0, mk_time 12 0 0, []);
                           (mk_time 14 0 0, mk_time 15 35 0, [])]
        ++ print_free_slots []
             [(mk_time 9 0 0, mk_time 10 35 0, []);
              (mk_time 10 35 0, mk_time 12 0 0, []);
              (mk_time 14 0 0, mk_time 15 35 0, [])]))
  = if covers (mk_time 12 30 0) (DAY_START, DAY_END) then 1%nat else 0%nat.
Proof.
  apply (busy_and_free_tile_the_day []
           [(mk_time 9 0 0, mk_time 10 35 0, []);
            (mk_time 10 35 0, mk_time 12 0 0, []);
            (mk_time 14 0 0, mk_time 15 35 0, [])]).
  - repeat constructor.
  - repeat constructor.
  - repeat constructor; intros H; discriminate H.
Defined.

(** ** Times as text *)

Lemma digit_val_char d : 0 <= d <= 9 -> digit_val (digit_char d) = Some d.
Proof.
  intros H. unfold digit_val, digit_char, is_ascii_digit.
  replace ((48 <=? 48 + Z.to_N d)%N && (48 + Z.to_N d <=? 57)%N) with true.
  - f_equal. lia.
  - symmetry. apply andb_true_iff. split; apply N.leb_le; lia.
Qed.

Lemma digit_val_inv c d : digit_val c = Some d -> 0 <= d <= 9 /\ c = digit_char d.
Proof.
  unfold digit_val, digit_char, is_ascii_digit.
  destruct ((48 <=? c)%N && (c <=? 57)%N) eqn:E; [| discriminate].
  apply andb_true_iff in E. destruct E as [E1 E2].
  apply N.leb_le in E1, E2. intros [= <-]. lia.
Qed.

Lemma two_digit_val_digits z :
  0 <= z < 100 -> two_digit_val (digit_char (z / 10)) (digit_char (z mod 10)) = Some z.
Proof.
  intros H. unfold two_digit_val.
  rewrite !digit_val_char by (Z.div_mod_to_equations; lia).
  f_equal. Z.div_mod_to_equations; lia.
Qed.

Lemma two_digit_val_inv c d z :
  two_digit_val c d = Some z -> 0 <= z < 100 /\ [c; d] = two_digits z.
Proof.
  unfold two_digit_val, two_digits.
  destruct (digit_val c) as [x |] eqn:Ex; [| discriminate].
  destruct (digit_val d) as [y |] eqn:Ey; [| discriminate].
  apply digit_val_inv in Ex, Ey. destruct Ex as [Hx ->], Ey as [Hy ->].
  intros H. assert (Hz : z = 10 * x + y) by congruence.
  clear H. subst z. split; [lia |].
  replace ((10 * x + y) / 10) with x by (Z.div_mod_to_equations; lia).
  replace ((10 * x + y) mod 10) with y by (Z.div_mod_to_equations; lia).
  reflexivity.
Qed.

(** [time.fromisoformat] accepts exactly the texts [HH:MM:SS] of the valid
    times of day, and reads back the time they print. *)
Lemma time_fromisoformat_ok s t :
  time_fromisoformat s = Ok t <-> time_valid t /\ s = time_isoformat t.
Proof.
  split.
  - unfold time_fromisoformat.
    destruct s as [| h1 [| h2 [| c1 [| m1 [| m2 [| c2 [| s1 [| s2 [| ? ?]]]]]]]]];
      try discriminate.
    destruct (two_digit_val h1 h2) as [hh |] eqn:Eh; [| discriminate].
    destruct (two_digit_val m1 m2) as [mm |] eqn:Em; [| discriminate].
    destruct (two_digit_val s1 s2) as [ss |] eqn:Es; [| discriminate].
    destruct ((c1 =? colon)%N && (c2 =? colon)%N && (hh <? 24) && (mm <? 60)
              && (ss <? 60)) eqn:E; [| discriminate].
    intros [= <-].
    repeat (apply andb_true_iff in E; destruct E as [E ?]).
    apply N.eqb_eq in E. subst c1.
    match goal with H : (c2 =? colon)%N = true |- _ => apply N.eqb_eq in H; subst c2 end.
    apply two_digit_val_inv in Eh, Em, Es.
    destruct Eh as [Hh Eh], Em as [Hm Em], Es as [Hs Es].
    injection Eh as -> ->. injection Em as -> ->. injection Es as -> ->.
    split; [unfold time_valid; simpl; lia | reflexivity].
  - intros [(Hh & Hm & Hs) ->]. unfold time_isoformat, two_digits; simpl.
    rewrite !two_digit_val_digits by lia.
    replace (hour t <? 24) with true by (symmetry; apply Z.ltb_lt; lia).
    replace (minute t <? 60) with true by (symmetry; apply Z.ltb_lt; lia).
    replace (second t <? 60) with true by (symmetry; apply Z.ltb_lt; lia).
    destruct t; reflexivity.
Qed.

Lemma time_fromisoformat_exn s e : time_fromisoformat s = Raise e -> e = ValueError.
Proof.
  unfold time_fromisoformat.
  repeat match goal with
  | |- context [match ?x with _ => _ end] => destruct x
  end; congruence.
Qed.

(** ** The Time Range Parser *)

Section ParserFacts.

Variable uni_decimal : pychar -> bool.

Abbreviation parse := (parse_start_end_from_string uni_decimal).
Abbreviation findall := (re_findall uni_decimal).

Lemma parse_two_matches s m0 m1 :
  findall s = [m0; m1] ->
  parse s = match time_fromisoformat m0, time_fromisoformat m1 with
            | Ok a, Ok b => Ok (Some a, Some b)
            | _, _ => Ok (None, None)
            end.
Proof.
  intros H. unfold parse_start_end_from_string. rewrite H; simpl.
  destruct (time_fromisoformat m0) as [a | e0] eqn:E0; simpl.
  - destruct (time_fromisoformat m1) as [b | e1] eqn:E1; simpl; auto.
    now rewrite (time_fromisoformat_exn _ _ E1).
  - now rewrite (time_fromisoformat_exn _ _ E0).
Qed.

Lemma parse_other_count s :
  length (findall s) <> 2%nat -> parse s = Ok (None, None).
Proof.
  intros H. unfold parse_start_end_from_string.
  destruct (Nat.eqb_spec (length (findall s)) 2); [contradiction | reflexivity].
Qed.

(** C9. Failure policy of the Time Range Parser: on every string the parser
    returns, and never raises; the result is either the pair (None, None) or
    a pair of two times; it is (None, None) when the number of matches of
    the pattern differs from two and when one of two matches is not the text
    of a valid time of day; it is a pair of times exactly when there are two
    matches and both are such texts, and then these are the times read. *)
Theorem parser_failure_policy (s : pystr) :
  (parse s = Ok (None, None) \/ exists a b, parse s = Ok (Some a, Some b))
  /\ (length (findall s) <> 2%nat -> parse s = Ok (None, None))
  /\ (forall m0 m1, findall s = [m0; m1] ->
        ~ time_text m0 \/ ~ time_text m1 -> parse s = Ok (None, None))
  /\ (forall a b,
        parse s = Ok (Some a, Some b) <->
        findall s = [time_isoformat a; time_isoformat b]
        /\ time_valid a /\ time_valid b).
Proof.
  assert (Hshape : length (findall s) <> 2%nat \/ exists m0 m1, findall s = [m0; m1]).
  { destruct (findall s) as [| m0 [| m1 [| m2 l]]]; simpl;
      try (left; discriminate). right; eauto. }
  split; [| split; [| split]].
  - destruct Hshape as [H | (m0 & m1 & H)].
    + left. now apply parse_other_count.
    + rewrite (parse_two_matches _ _ _ H).
      destruct (time_fromisoformat m0), (time_fromisoformat m1); eauto.
  - apply parse_other_count.
  - intros m0 m1 H Hbad. rewrite (parse_two_matches _ _ _ H).
    destruct (time_fromisoformat m0) as [a |] eqn:E0; auto.
    destruct (time_fromisoformat m1) as [b |] eqn:E1; auto.
    apply time_fromisoformat_ok in E0, E1. unfold time_text in Hbad.
    destruct Hbad as [Hbad | Hbad]; exfalso; apply Hbad; eauto.
  - intros a b. split.
    + destruct Hshape as [Hn | (m0 & m1 & H)]; intros Hp.
      * rewrite (parse_other_count _ Hn) in Hp. discriminate.
      * rewrite (parse_two_matches _ _ _ H) in Hp.
        destruct (time_fromisoformat m0) as [a' |] eqn:E0; try discriminate.
        destruct (time_fromisoformat m1) as [b' |] eqn:E1; try discriminate.
        injection Hp as -> ->.
        apply time_fromisoformat_ok in E0, E1.
        destruct E0 as [Ha ->], E1 as [Hb ->]. auto.
    + intros (H & Ha & Hb). rewrite (parse_two_matches _ _ _ H).
      rewrite (proj2 (time_fromisoformat_ok _ a)) by auto.
      rewrite (proj2 (time_fromisoformat_ok _ b)) by auto.
      reflexivity.
Qed.

End ParserFacts.

(** ** Reading back a formatted interval *)

Section RoundTrip.

Variable uni_decimal : pychar -> bool.

Lemma re_digit_digit_char d :
  0 <= d <= 9 -> re_digit uni_decimal (digit_char d) = true.
Proof.
  intros H. unfold re_digit, digit_char, is_ascii_digit.
  replace (48 + Z.to_N d <? 128)%N with true by (symmetry; apply N.ltb_lt; lia).
  apply andb_true_iff; split; apply N.leb_le; lia.
Qed.

(** The scan passes over the date and finds the time behind it. *)
Lemma findall_dated d1 d2 d3 d4 d5 d6 rest :
  re_digit uni_decimal d1 = true -> re_digit uni_decimal d2 = true ->
  re_digit uni_decimal d3 = true -> re_digit uni_decimal d4 = true ->
  re_digit uni_decimal d5 = true -> re_digit uni_decimal d6 = true ->
  findall_from uni_decimal 0
    (lit "1900-01-01 " ++ [d1; d2; colon; d3; d4; colon; d5; d6] ++ rest)
  = [d1; d2; colon; d3; d4; colon; d5; d6] :: findall_from uni_decimal 0 rest.
Proof.
  intros H1 H2 H3 H4 H5 H6.
  simpl. rewrite H1, H2, H3, H4, H5, H6. reflexivity.
Qed.

Lemma findall_dated_time t rest :
  time_valid t ->
  findall_from uni_decimal 0 (lit "1900-01-01 " ++ time_isoformat t ++ rest)
  = time_isoformat t :: findall_from uni_decimal 0 rest.
Proof.
  intros (Hh & Hm & Hs).
  apply findall_dated; apply re_digit_digit_char; Z.div_mod_to_equations; lia.
Qed.

Lemma format_time_range_shape a b :
  format_time_range a b
  = lit "[" ++ (lit "1900-01-01 " ++ time_isoformat a
                ++ (lit ", " ++ (lit "1900-01-01 " ++ time_isoformat b ++ lit "]"))).
Proof. reflexivity. Qed.

Lemma findall_format_time_range a b :
  time_valid a -> time_valid b ->
  re_findall uni_decimal (format_time_range a b) = [time_isoformat a; time_isoformat b].
Proof.
  intros Ha Hb. rewrite format_time_range_shape. unfold re_findall.
  change (findall_from uni_decimal 0 (lit "[" ++ ?l))
    with (findall_from uni_decimal 0 l).
  rewrite (findall_dated_time a _ Ha).
  change (findall_from uni_decimal 0 (lit ", " ++ ?l))
    with (findall_from uni_decimal 0 l).
  rewrite (findall_dated_time b _ Hb).
  reflexivity.
Qed.

(** The parser inverts [format_time_range] on valid times. *)
Lemma parse_format_time_range a b :
  time_valid a -> time_valid b ->
  parse_start_end_from_string uni_decimal (format_time_range a b)
  = Ok (Some a, Some b).
Proof.
  intros Ha Hb.
  rewrite (parse_two_matches uni_decimal _ _ _ (findall_format_time_range a b Ha Hb)).
  rewrite (proj2 (time_fromisoformat_ok _ a)) by auto.
  rewrite (proj2 (time_fromisoformat_ok _ b)) by auto.
  reflexivity.
Qed.

End RoundTrip.

Lemma parser_failure_policy_witness :
  parse_start_end_from_string (fun _ => false) (lit "104 [08:00:00]") = Ok (None, None)
  /\ parse_start_end_from_string (fun _ => false) (lit "08:00:00 25:61:00")
     = Ok (None, None)
  /\ parse_start_end_from_string (fun _ => false)
       (lit "104 [1900-01-01 08:00:00, 1900-01-01 09:35:00]")
     = Ok (Some (mk_time 8 0 0), Some (mk_time 9 35 0)).
Proof.
  split; [| split].
  - apply (parser_failure_policy (fun _ => false) (lit "104 [08:00:00]")).
    vm_compute. discriminate.
  - apply (proj1 (proj2 (proj2 (parser_failure_policy (fun _ => false)
                                  (lit "08:00:00 25:61:00"))))
             (lit "08:00:00") (lit "25:61:00")).
    + reflexivity.
    + right. intros (t & (Hh & Hm & Hs) & E).
      injection E as E1 E2 E3 E4 E5 E6.
      assert (minute t / 10 = 6) by (unfold digit_char in E3; lia).
      Z.div_mod_to_equations; lia.
  - apply (parser_failure_policy (fun _ => false)
             (lit "104 [1900-01-01 08:00:00, 1900-01-01 09:35:00]")).
    split; [reflexivity | split; unfold time_valid; simpl; lia].
Defined.

(** Matches are counted as [re.findall] finds them, from the left and without
    overlap: in ["11:22:33:44 05:06:07"] the text ["22:33:44"] lies inside
    the first match and is not a match of its own, so there are two matches
    and the parser returns their times. *)
Example parse_counts_matches :
  parse_start_end_from_string (fun _ => false) (lit "11:22:33:44 05:06:07")
  = Ok (Some (mk_time 11 22 33), Some (mk_time 5 6 7)).
Proof. reflexivity. Qed.

(** A decimal digit outside ASCII matches [\d] but is no digit for
    [time.fromisoformat]: with U+0661 (ARABIC-INDIC DIGIT ONE) counted as a
    digit, the second match is not the text of a time. *)
Example parse_non_ascii_digit :
  parse_start_end_from_string (fun c => N.eqb c 1633)
    (lit "08:00:00 " ++ [1633; 1633; 58; 1633; 1633; 58; 1633; 1633]%N)
  = Ok (None, None).
Proof. reflexivity. Qed.

(** ** The final sort *)

Lemma key_ltb_lex a b :
  key_ltb a b = true <-> fst a < fst b \/ (fst a = fst b /\ tlt (snd a) (snd b)).
Proof.
  unfold key_ltb, tlt. rewrite orb_true_iff, andb_true_iff, Z.ltb_lt, Z.eqb_eq.
  tauto.
Qed.

Lemma key_le_lex a b :
  key_le a b <-> fst a < fst b \/ (fst a = fst b /\ tle (snd a) (snd b)).
Proof.
  unfold key_le. destruct (key_ltb b a) eqn:E.
  - apply key_ltb_lex in E. split; [discriminate |].
    intros [H | [H1 H2]]; destruct E as [E | [E1 E2]]; try lia. time_order.
  - split; [intros _ | reflexivity].
    assert (H : ~ (fst b < fst a \/ (fst b = fst a /\ tlt (snd b) (snd a)))).
    { rewrite <- key_ltb_lex. congruence. }
    destruct (Z.lt_trichotomy (fst a) (fst b)) as [Hlt | [Heq | Hgt]]; auto.
    + right. split; auto. apply tle_not_tlt. intros Hc. apply H. right. split; auto.
    + exfalso. apply H. now left.
Qed.

Lemma key_le_trans a b c : key_le a b -> key_le b c -> key_le a c.
Proof.
  rewrite !key_le_lex. intros [H1 | [H1 H1']] [H2 | [H2 H2']]; try (left; lia).
  right. split; [lia | time_order].
Qed.

Lemma key_ltb_le a b : key_ltb a b = true -> key_le a b.
Proof.
  rewrite key_ltb_lex, key_le_lex. intros [H | [H1 H2]]; [now left | right].
  split; auto. time_order.
Qed.

Section SortFacts.

Context {A : Type}.

Lemma insert_by_key_perm (x : sort_key * A) l :
  Permutation (x :: l) (insert_by_key x l).
Proof.
  induction l as [| y l IH]; simpl; auto.
  destruct (key_ltb (fst y) (fst x)); auto.
  rewrite perm_swap. now constructor.
Qed.

Lemma sort_by_key_perm (l : list (sort_key * A)) : Permutation l (sort_by_key l).
Proof.
  induction l as [| x l IH]; simpl; auto.
  rewrite <- insert_by_key_perm. now constructor.
Qed.

Lemma insert_by_key_sorted (x : sort_key * A) l :
  StronglySorted (fun a b => key_le (fst a) (fst b)) l ->
  StronglySorted (fun a b => key_le (fst a) (fst b)) (insert_by_key x l).
Proof.
  induction 1 as [| y l Hs IH Hy]; simpl.
  - repeat constructor.
  - destruct (key_ltb (fst y) (fst x)) eqn:E.
    + constructor; auto.
      rewrite <- insert_by_key_perm. constructor; auto. now apply key_ltb_le.
    + constructor; [now constructor |].
      constructor; auto.
      eapply Forall_impl; [| exact Hy]. simpl; intros z Hz.
      eapply key_le_trans; eauto.
Qed.

Lemma sort_by_key_sorted (l : list (sort_key * A)) :
  StronglySorted (fun a b => key_le (fst a) (fst b)) (sort_by_key l).
Proof.
  induction l; simpl; [constructor | now apply insert_by_key_sorted].
Qed.

(** Stability: the elements of one key keep their order. *)
Lemma insert_by_key_stable k (x : sort_key * A) l :
  filter (fun y => if key_ltb (fst y) k then false else negb (key_ltb k (fst y)))
         (insert_by_key x l)
  = filter (fun y => if key_ltb (fst y) k then false else negb (key_ltb k (fst y)))
           (x :: l).
Proof.
  induction l as [| y l IH]; [reflexivity |].
  simpl insert_by_key.
  destruct (key_ltb (fst y) (fst x)) eqn:E; [| reflexivity].
  simpl in *. rewrite IH.
  destruct (key_ltb (fst x) k) eqn:E1; simpl; [reflexivity |].
  destruct (key_ltb k (fst x)) eqn:E2; simpl; [reflexivity |].
  destruct (key_ltb (fst y) k) eqn:E3; simpl; [reflexivity |].
  exfalso.
  apply key_ltb_lex in E.
  assert (H1 : key_le k (fst x)) by exact E1.
  assert (H3 : key_le k (fst y)) by exact E3.
  assert (H2 : key_le (fst x) k) by exact E2.
  apply key_le_lex in H1, H2, H3.
  destruct E as [E | [Ea Eb]]; destruct H1 as [H1 | [H1 H1']];
    destruct H2 as [H2 | [H2 H2']]; destruct H3 as [H3 | [H3 H3']];
    try lia; time_order.
Qed.

Lemma sort_by_key_stable k (l : list (sort_key * A)) :
  filter (fun y => if key_ltb (fst y) k then false else negb (key_ltb k (fst y)))
         (sort_by_key l)
  = filter (fun y => if key_ltb (fst y) k then false else negb (key_ltb k (fst y))) l.
Proof.
  induction l as [| x l IH]; [reflexivity |].
  simpl sort_by_key. rewrite insert_by_key_stable. simpl. now rewrite IH.
Qed.

End SortFacts.

Section FinalSortFacts.

Variable uni_decimal : pychar -> bool.

Lemma parse_returns s :
  exists p, parse_start_end_from_string uni_decimal s = Ok p.
Proof.
  destruct (re_findall uni_decimal s) as [| m0 [| m1 [| m2 l]]] eqn:E;
    try (rewrite parse_other_count; [eauto | rewrite E; simpl; discriminate]).
  rewrite (parse_two_matches _ _ _ _ E).
  destruct (time_fromisoformat m0), (time_fromisoformat m1); eauto.
Qed.

Lemma parse_Some_pair s a b :
  parse_start_end_from_string uni_decimal s = Ok (Some a, b) -> b <> None.
Proof.
  destruct (re_findall uni_decimal s) as [| m0 [| m1 [| m2 l]]] eqn:E;
    try (rewrite parse_other_count; [congruence | rewrite E; simpl; discriminate]).
  rewrite (parse_two_matches _ _ _ _ E).
  destruct (time_fromisoformat m0), (time_fromisoformat m1); congruence.
Qed.

Lemma list_get_last {A} (l : list A) (d : A) :
  l <> [] -> list_get l (length l - 1) = Ok (last l d).
Proof.
  intros H. unfold list_get.
  destruct (exists_last H) as (l' & x & ->).
  rewrite length_app, last_last; simpl.
  replace (length l' + 1 - 1)%nat with (length l') by lia.
  now rewrite nth_error_app2, Nat.sub_diag by lia.
Qed.

Lemma get_sort_key_spec r :
  get_sort_key uni_decimal r = Ok (spec_sort_key uni_decimal r).
Proof.
  unfold get_sort_key, spec_sort_key, spec_weekday, spec_start_time.
  assert (Hday :
    (if Nat.ltb 1 (length r)
     then (d <- list_get r 1 ;; Ok (dict_get day_map d 8))%result
     else Ok 8)
    = Ok (match nth_error r 1 with
          | Some label => weekday_ordinal label
          | None => 8
          end)).
  { destruct r as [| f0 [| f1 r']]; reflexivity. }
  rewrite Hday; cbn [rbind]. clear Hday.
  destruct r as [| f0 r'].
  - reflexivity.
  - change (Nat.ltb 0 (length (f0 :: r'))) with true; cbv iota.
    rewrite (list_get_last (f0 :: r') []) by discriminate. cbn [rbind].
    generalize (last (f0 :: r') []); intros t.
    destruct (parse_returns t) as [[[s |] e] Hp]; rewrite Hp; reflexivity.
Qed.

Lemma mapR_get_sort_key rows :
  mapR (get_sort_key uni_decimal) rows = Ok (map (spec_sort_key uni_decimal) rows).
Proof.
  induction rows as [| r rows IH]; simpl; [reflexivity |].
  now rewrite get_sort_key_spec, IH.
Qed.

Lemma combine_map_self {X Y} (f : X -> Y) (l : list X) :
  combine (map f l) l = map (fun x => (f x, x)) l.
Proof. induction l; simpl; congruence. Qed.

Lemma dict_get_known d label default :
  In label (map fst d) -> In (label, dict_get d label default) d.
Proof.
  induction d as [| [k v] d IH]; simpl; [tauto |].
  unfold pystr_eqb. destruct (list_eq_dec N.eq_dec k label) as [-> | Hne]; auto.
  intros [H | H]; [contradiction | auto].
Qed.

Lemma dict_get_unknown d label default :
  ~ In label (map fst d) -> dict_get d label default = default.
Proof.
  induction d as [| [k v] d IH]; simpl; [reflexivity |].
  unfold pystr_eqb. destruct (list_eq_dec N.eq_dec k label) as [-> | Hne]; tauto.
Qed.

(** C8. Sort determinism: the final sort returns (it does not raise) a
    permutation of the records that is ascending in the key
    (weekday ordinal, start time) and keeps the records of one key in their
    order; the key computed by [get_sort_key] is the one the specification
    describes: the ordinal of the day label under the fixed seven-entry
    mapping, which lies in 1..7 for the known labels and is 8 for every other
    label, and the start time read by the Time Range Parser from the last
    field, 00:00:00 when that field yields no pair of times. *)
Theorem sort_determinism (rows : list row) :
  (forall r, get_sort_key uni_decimal r = Ok (spec_sort_key uni_decimal r))
  /\ (exists out,
        sort_events uni_decimal rows = Ok out
        /\ Permutation rows out
        /\ StronglySorted
             (fun a b => key_le (spec_sort_key uni_decimal a) (spec_sort_key uni_decimal b))
             out
        /\ forall k,
             filter (fun r => if key_ltb (spec_sort_key uni_decimal r) k then false
                              else negb (key_ltb k (spec_sort_key uni_decimal r))) out
             = filter (fun r => if key_ltb (spec_sort_key uni_decimal r) k then false
                                else negb (key_ltb k (spec_sort_key uni_decimal r))) rows)
  /\ day_map
     = [([26143; 26399; 49]%N, 1); ([26143; 26399; 50]%N, 2);
        ([26143; 26399; 51]%N, 3); ([26143; 26399; 52]%N, 4);
        ([26143; 26399; 53]%N, 5); ([26143; 26399; 54]%N, 6);
        ([26143; 26399; 55]%N, 7)]
  /\ (forall label, In label (map fst day_map) -> 1 <= weekday_ordinal label <= 7)
  /\ (forall label, ~ In label (map fst day_map) -> weekday_ordinal label = 8)
  /\ (forall r : row,
        (forall s e, parse_start_end_from_string uni_decimal (last r [])
                     <> Ok (Some s, Some e)) ->
        spec_start_time uni_decimal r = mk_time 0 0 0)
  /\ (forall (r : row) s e,
        parse_start_end_from_string uni_decimal (last r []) = Ok (Some s, Some e) ->
        spec_start_time uni_decimal r = s).
Proof.
  split; [apply get_sort_key_spec |].
  split.
  { unfold sort_events. rewrite mapR_get_sort_key; simpl.
    rewrite combine_map_self.
    set (dec := map (fun r => (spec_sort_key uni_decimal r, r)) rows).
    assert (Hfst : Forall (fun x => fst x = spec_sort_key uni_decimal (snd x))
                          (sort_by_key dec)).
    { rewrite <- (sort_by_key_perm dec). subst dec.
      apply Forall_forall. intros x Hx. apply in_map_iff in Hx.
      destruct Hx as (r & <- & _). reflexivity. }
    eexists. split; [reflexivity |]. split; [| split].
    - replace rows with (map snd dec) at 1.
      + apply Permutation_map, sort_by_key_perm.
      + subst dec. rewrite map_map; simpl. apply map_id.
    - pose proof (sort_by_key_sorted dec) as Hs.
      induction Hs as [| x l Hs IH Hx]; simpl; constructor.
      + apply IH. now inversion Hfst.
      + inversion Hfst as [| ? ? Hx0 Hl]; subst.
        rewrite Forall_forall in *. intros b Hb.
        apply in_map_iff in Hb. destruct Hb as (y & <- & Hy).
        rewrite <- Hx0, <- (Hl y Hy). now apply Hx.
    - intros k.
      assert (Hmap : forall l,
        Forall (fun x => fst x = spec_sort_key uni_decimal (snd x)) l ->
        filter (fun r => if key_ltb (spec_sort_key uni_decimal r) k then false
                         else negb (key_ltb k (spec_sort_key uni_decimal r)))
               (map snd l)
        = map snd (filter (fun y => if key_ltb (fst y) k then false
                                    else negb (key_ltb k (fst y))) l)).
      { induction 1 as [| x l Hx Hl IH]; simpl; [reflexivity |].
        rewrite <- Hx, IH.
        destruct (if key_ltb (fst x) k then false else negb (key_ltb k (fst x)));
          reflexivity. }
      rewrite Hmap by assumption. rewrite sort_by_key_stable.
      rewrite <- Hmap.
      + subst dec. rewrite map_map; simpl. now rewrite map_id.
      + subst dec. apply Forall_forall. intros x Hx. apply in_map_iff in Hx.
        destruct Hx as (r & <- & _). reflexivity. }
  split; [reflexivity |].
  split.
  { intros label H. unfold weekday_ordinal.
    pose proof (dict_get_known day_map label 8 H) as Hin.
    revert Hin. generalize (dict_get day_map label 8). intros v Hin.
    assert (Hall : Forall (fun kv => 1 <= snd kv <= 7) day_map)
      by (repeat constructor; simpl; lia).
    rewrite Forall_forall in Hall. exact (Hall _ Hin). }
  split.
  { intros label H. now apply dict_get_unknown. }
  split.
  - intros r H. unfold spec_start_time.
    destruct (parse_returns (last r [])) as [[[s |] e] Hp]; rewrite Hp;
      [| reflexivity].
    destruct e as [e |]; [exfalso; exact (H s e Hp) |].
    apply parse_Some_pair in Hp. congruence.
  - intros r s e H. unfold spec_start_time. now rewrite H.
Qed.

End FinalSortFacts.

(** ** The gap filler follows its plan *)

Lemma realise_app home p1 p2 r :
  realise home (p1 ++ p2) r
  = match realise home p1 r with
    | Ok (a1, r1) =>
        match realise home p2 r1 with
        | Ok (a2, r2) => Ok (a1 ++ a2, r2)
        | Raise e => Raise e
        end
    | Raise e => Raise e
    end.
Proof.
  revert r. induction p1 as [| [[name pl] [s e]] p1 IH]; intros r; simpl.
  - unfold mret. destruct (realise home p2 r) as [[a2 r2] |]; reflexivity.
  - unfold mbind, mret. destruct (pick home pl r) as [[loc r1] |]; [| reflexivity].
    rewrite IH. destruct (realise home p1 r1) as [[a1 r2] |]; [| reflexivity].
    cbv beta iota.
    destruct (realise home p2 r2) as [[a2 r3] |]; reflexivity.
Qed.

Section FollowsPlan.

Context {R : Type}.
Variable new_row : pystr -> location -> time -> time -> result R.
Variable f : activity -> R.
Hypothesis new_row_total :
  forall name loc s e, new_row name loc s e = Ok (f (mk_activity name loc s e)).

Local Opaque choice time_ltb time_max time_min capped_meal_end.

Ltac run_calls :=
  repeat first
    [ progress unfold mbind, mret, lift, append_row, pick, then_rows
    | progress cbv beta iota zeta
    | progress simpl
    | progress rewrite new_row_total
    | match goal with
      | H : time_ltb ?a ?b = _ |- context [time_ltb ?a ?b] => rewrite H
      | |- context [if time_ltb ?a ?b then _ else _] =>
          destruct (time_ltb a b) eqn:?
      | H : choice ?p ?r = _ |- context [choice ?p ?r] => rewrite H
      | |- context [choice ?p ?r] => destruct (choice p r) as [[? ?] | ?] eqn:?
      end ];
  rewrite <- ?app_assoc, ?app_nil_r; try reflexivity.

Lemma interior_body_plan home ate filled sl r :
  interior_body new_row (ate, filled) sl r
  = then_rows f (fun rows => (snd (plan_interior ate sl), rows)) filled
      (realise home (fst (plan_interior ate sl)) r).
Proof.
  destruct sl as [s e].
  unfold interior_body, plan_interior, lunch_overlap, plan_around, plan_whole.
  change (time_add_seconds (time_max s LUNCH_START)
            (Z.min (seconds_between (time_max s LUNCH_START) (time_min e LUNCH_END)) 3600))
    with (capped_meal_end (time_max s LUNCH_START) (time_min e LUNCH_END)).
  destruct ate; run_calls.
Qed.

Lemma interior_loop_plan home slots : forall ate filled r,
  foldM (interior_body new_row) slots (ate, filled) r
  = then_rows f
      (fun rows =>
         (fold_left (fun a sl => snd (plan_interior a sl)) slots ate, rows))
      filled (realise home (plan_interiors ate slots) r).
Proof.
  induction slots as [| sl slots IH]; intros ate filled r.
  - simpl. unfold mret. now rewrite app_nil_r.
  - cbn [foldM plan_interiors fold_left]. unfold mbind.
    rewrite (interior_body_plan home), realise_app. unfold then_rows at 1.
    destruct (realise home (fst (plan_interior ate sl)) r) as [[a1 r1] |];
      [| reflexivity].
    rewrite IH. unfold then_rows.
    destruct (realise home (plan_interiors (snd (plan_interior ate sl)) slots) r1)
      as [[a2 r2] |]; [| reflexivity].
    now rewrite map_app, app_assoc.
Qed.

Lemma last_slot_body_plan home filled sl r :
  last_slot_body new_row filled home sl r
  = then_rows f (fun rows => rows) filled (realise home (plan_last sl) r).
Proof.
  destruct sl as [s e].
  unfold last_slot_body, plan_last, plan_around.
  change (time_add_seconds (time_max s DINNER_START)
            (Z.min (seconds_between (time_max s DINNER_START) (time_min e DINNER_END)) 3600))
    with (capped_meal_end (time_max s DINNER_START) (time_min e DINNER_END)).
  run_calls.
Qed.

(** The gap filler builds the rows of its plan, in order. *)
Lemma fill_body_plan home slots r :
  fill_body new_row slots home r
  = then_rows f (fun rows => rows) [] (realise home (fill_plan slots) r).
Proof.
  destruct slots as [| [fs fe] [| sl2 rest]].
  - reflexivity.
  - unfold fill_body, fill_plan. run_calls.
  - unfold fill_body, fill_plan.
    set (slots := @cons slot (fs, fe) (sl2 :: rest)).
    assert (Hint : (if Nat.ltb 2 (length slots) then interior slots else [])
                   = removelast (sl2 :: rest))
      by (destruct rest; reflexivity).
    rewrite Hint. clear Hint.
    change (Nat.ltb 1 (length slots)) with true. cbv iota.
    change (last slots (fs, fe)) with (last (sl2 :: rest) (fs, fe)).
    clearbody slots.
    unfold mbind at 1. unfold append_row at 1. unfold mbind at 1.
    rewrite new_row_total. unfold lift, mret at 1. cbv beta iota.
    unfold mbind at 1.
    rewrite (interior_loop_plan home).
    change (realise home ((WAKE, Home, (fs, fe))
                          :: plan_interiors false (removelast (sl2 :: rest))
                             ++ plan_last (last (sl2 :: rest) (fs, fe))) r)
      with (realise home ([(WAKE, Home, (fs, fe))]
                          ++ (plan_interiors false (removelast (sl2 :: rest))
                             ++ plan_last (last (sl2 :: rest) (fs, fe)))) r).
    rewrite (realise_app home [(WAKE, Home, (fs, fe))]).
    change (realise home [(WAKE, Home, (fs, fe))] r)
      with (Ok ([mk_activity WAKE home fs fe], r) : result (list activity * rng)).
    cbv beta iota. rewrite realise_app. unfold then_rows at 1.
    destruct (realise home (plan_interiors false (removelast (sl2 :: rest))) r)
      as [[a1 r1] |]; [| reflexivity].
    cbv beta iota.
    rewrite (last_slot_body_plan home). unfold then_rows.
    destruct (realise home (plan_last (last (sl2 :: rest) (fs, fe))) r1)
      as [[a2 r2] |]; [| reflexivity].
    cbn [app map]. now rewrite map_app.
Qed.
End FollowsPlan.

Lemma choice_nonempty {A} (pool : list A) r :
  pool <> [] -> exists x, choice pool r = Ok (x, fun i => r (S i)) /\ In x pool.
Proof.
  destruct pool as [| d pool]; [congruence | intros _].
  unfold choice. eexists; split; [reflexivity |].
  apply nth_In. apply Nat.mod_upper_bound. discriminate.
Qed.

(** Realising a plan never raises, and the activities carry out the plan. *)
Lemma realise_total home plan : forall r,
  exists acts r',
    realise home plan r = Ok (acts, r') /\ Forall2 (carries_out home) plan acts.
Proof.
  induction plan as [| [[name pl] [s e]] plan IH]; intros r.
  - exists [], r. split; [reflexivity | constructor].
  - assert (Hpick : exists loc r1,
              pick home pl r = Ok (loc, r1)
              /\ carries_out home (name, pl, (s, e)) (mk_activity name loc s e)).
    { destruct pl; simpl.
      - exists home, r. repeat split.
      - destruct (choice_nonempty LIBRARIES r) as (x & Hx & Hin); [discriminate |].
        exists x, (fun i => r (S i)). repeat split; auto.
      - destruct (choice_nonempty CANTEENS r) as (x & Hx & Hin); [discriminate |].
        exists x, (fun i => r (S i)). repeat split; auto. }
    destruct Hpick as (loc & r1 & Hpick & Hc).
    destruct (IH r1) as (acts & r' & Hr & Hall).
    exists (mk_activity name loc s e :: acts), r'. split; [| now constructor].
    simpl. unfold mbind. now rewrite Hpick, Hr.
Qed.

(** The calls of the gap filler are its realised plan. *)
Lemma fill_calls_plan slots home r :
  fill_calls slots home r = realise home (fill_plan slots) r.
Proof.
  unfold fill_calls.
  rewrite (fill_body_plan record_call (fun a => a)) by reflexivity.
  unfold then_rows.
  destruct (realise home (fill_plan slots) r) as [[acts r'] |]; [| reflexivity].
  simpl. now rewrite map_id.
Qed.

(** ** Rows *)

Lemma pad_loop_spec fuel : forall n event,
  (n - length event <= fuel)%nat ->
  pad_loop fuel n event = event ++ repeat DASH (n - length event).
Proof.
  induction fuel as [| fuel IH]; intros n event H; simpl.
  - replace (n - length event)%nat with O by lia. now rewrite app_nil_r.
  - destruct (Nat.ltb_spec (length event) n) as [Hlt | Hge].
    + rewrite IH by (rewrite length_app; simpl; lia).
      rewrite length_app; simpl. rewrite <- app_assoc. f_equal.
      replace (n - length event)%nat with (S (n - (length event + 1))) by lia.
      reflexivity.
    + replace (n - length event)%nat with O by lia. now rewrite app_nil_r.
Qed.

Lemma render_length day n a : length (render day n a) = n.
Proof.
  unfold render. rewrite pad_loop_spec by lia.
  rewrite length_firstn, length_app, repeat_length. simpl length. lia.
Qed.

Lemma create_new_row_render day n name loc s e :
  (8 <= n)%nat ->
  create_new_row day n name loc s e = Ok (render day n (mk_activity name loc s e)).
Proof.
  intros Hn. unfold create_new_row, render. destruct loc as [loc_type loc_name].
  cbn [act_name act_loc act_start act_end fst snd].
  set (event := firstn n _).
  assert (Hlen : length event = n).
  { subst event. rewrite pad_loop_spec by lia.
    rewrite length_firstn, length_app, repeat_length. simpl length. lia. }
  unfold list_get.
  destruct (nth_error event 0) eqn:E0;
    [| apply nth_error_None in E0; lia].
  destruct (nth_error event 1) eqn:E1;
    [| apply nth_error_None in E1; lia].
  destruct (nth_error event 6) eqn:E6;
    [| apply nth_error_None in E6; lia].
  destruct (nth_error event 7) eqn:E7;
    [| apply nth_error_None in E7; lia].
  reflexivity.
Qed.

Lemma create_new_row_short day n name loc s e :
  (n < 8)%nat -> create_new_row day n name loc s e = Raise IndexError.
Proof.
  intros Hn. unfold create_new_row. destruct loc as [loc_type loc_name].
  set (event := firstn n _).
  assert (Hlen : (length event <= n)%nat).
  { subst event. rewrite length_firstn. lia. }
  unfold list_get.
  destruct (nth_error event 0); [| reflexivity].
  destruct (nth_error event 1); [| reflexivity].
  destruct (nth_error event 6); [| reflexivity].
  destruct (nth_error event 7) eqn:E7; [| reflexivity].
  assert (nth_error event 7 <> None) by congruence.
  apply nth_error_Some in H. lia.
Qed.

(** With a header of eight columns or more the gap filler returns the rows
    of its calls; with a shorter header the first call already raises. *)
Lemma fill_free_time_rows day slots home n r :
  (8 <= n)%nat ->
  fill_free_time day slots home n r
  = match fill_calls slots home r with
    | Ok (acts, r') => Ok (map (render day n) acts, r')
    | Raise e => Raise e
    end.
Proof.
  intros Hn. unfold fill_free_time.
  rewrite (fill_body_plan (create_new_row day n) (render day n))
    by (intros; now apply create_new_row_render).
  rewrite fill_calls_plan. reflexivity.
Qed.

Lemma fill_free_time_short day slots home n r :
  (n < 8)%nat -> slots <> [] ->
  fill_free_time day slots home n r = Raise IndexError.
Proof.
  intros Hn Hne. destruct slots as [| [fs fe] rest]; [congruence |].
  unfold fill_free_time, fill_body, mbind at 1, append_row at 1, mbind at 1, lift.
  now rewrite create_new_row_short.
Qed.

(** ** Seconds of the day *)

Lemma to_seconds_range t : time_valid t -> 0 <= to_seconds t < 86400.
Proof. unfold time_valid, to_seconds. lia. Qed.

Lemma of_seconds_valid z : 0 <= z < 86400 -> time_valid (of_seconds z).
Proof.
  intros H. unfold time_valid, of_seconds; simpl.
  Z.div_mod_to_equations. lia.
Qed.

Lemma to_seconds_of_seconds z : 0 <= z < 86400 -> to_seconds (of_seconds z) = z.
Proof.
  intros H. unfold to_seconds, of_seconds; simpl.
  Z.div_mod_to_equations. lia.
Qed.

Lemma tlt_seconds a b :
  time_valid a -> time_valid b -> (tlt a b <-> to_seconds a < to_seconds b).
Proof.
  unfold time_valid, to_seconds. rewrite tlt_lex. lia.
Qed.

Lemma tle_seconds a b :
  time_valid a -> time_valid b -> (tle a b <-> to_seconds a <= to_seconds b).
Proof.
  intros Ha Hb. rewrite tle_not_tlt, (tlt_seconds b a) by assumption. lia.
Qed.

Lemma time_max_valid a b : time_valid a -> time_valid b -> time_valid (time_max a b).
Proof. intros. unfold time_max. now destruct (time_gtb b a). Qed.

Lemma time_min_valid a b : time_valid a -> time_valid b -> time_valid (time_min a b).
Proof. intros. unfold time_min. now destruct (time_ltb b a). Qed.

Lemma window_times_valid :
  time_valid LUNCH_START /\ time_valid LUNCH_END
  /\ time_valid DINNER_START /\ time_valid DINNER_END.
Proof. unfold time_valid; simpl; lia. Qed.

Create HintDb times discriminated.
#[global] Hint Resolve time_max_valid time_min_valid : times.
#[global] Hint Extern 1 (time_valid LUNCH_START) => apply window_times_valid : times.
#[global] Hint Extern 1 (time_valid LUNCH_END) => apply window_times_valid : times.
#[global] Hint Extern 1 (time_valid DINNER_START) => apply window_times_valid : times.
#[global] Hint Extern 1 (time_valid DINNER_END) => apply window_times_valid : times.

(** A capped meal ends after its start, within the overlap, and lasts the
    overlap or one hour, whichever is shorter. *)
Lemma capped_meal_end_spec os oe :
  time_valid os -> time_valid oe -> tlt os oe ->
  time_valid (capped_meal_end os oe)
  /\ seconds_between os (capped_meal_end os oe) = Z.min (seconds_between os oe) 3600
  /\ tlt os (capped_meal_end os oe)
  /\ tle (capped_meal_end os oe) oe.
Proof.
  intros Hs He Hlt.
  pose proof (to_seconds_range _ Hs) as Rs.
  pose proof (to_seconds_range _ He) as Re.
  apply (tlt_seconds _ _ Hs He) in Hlt.
  unfold capped_meal_end, time_add_seconds, seconds_between.
  set (d := Z.min (to_seconds oe - to_seconds os) 3600).
  assert (Hd : 0 < d <= to_seconds oe - to_seconds os) by (subst d; lia).
  rewrite Z.mod_small by lia.
  assert (Hv : time_valid (of_seconds (to_seconds os + d)))
    by (apply of_seconds_valid; lia).
  assert (Hsec : to_seconds (of_seconds (to_seconds os + d)) = to_seconds os + d)
    by (apply to_seconds_of_seconds; lia).
  split; [exact Hv |]. split; [lia |]. split.
  - apply (tlt_seconds _ _ Hs Hv). lia.
  - apply (tle_seconds _ _ Hv He). lia.
Qed.

(** ** Coverage by the plan *)

Lemma chain_le lo hi l : chain lo hi l -> tle lo hi.
Proof.
  revert lo. induction l as [| [a b] l IH]; simpl; intros lo.
  - intros ->. time_order.
  - intros (-> & Hab & Hrest). specialize (IH _ Hrest). time_order.
Qed.

Lemma chain_cover t lo hi l :
  chain lo hi l ->
  cover_count t l = if covers t (lo, hi) then 1%nat else 0%nat.
Proof.
  revert lo. induction l as [| [a b] l IH]; simpl; intros lo.
  - intros ->. unfold cover_count; simpl. split_covers; reflexivity.
  - intros (-> & Hab & Hrest). rewrite cover_count_cons, (IH _ Hrest).
    apply chain_le in Hrest. revert Hab Hrest. clear.
    intros. split_covers; try reflexivity; exfalso; time_order.
Qed.

Lemma chain_app lo mid hi l1 l2 :
  chain lo mid l1 -> chain mid hi l2 -> chain lo hi (l1 ++ l2).
Proof.
  revert lo. induction l1 as [| iv l1 IH]; simpl; intros lo.
  - now intros ->.
  - intros (Ha & Hab & H1) H2. auto.
Qed.

(** The rows around a meal window follow one another from the start of the
    slot to its end. *)
Lemma plan_around_chain meal rest_name rest_place ws we s e :
  time_valid s -> time_valid e -> time_valid ws -> time_valid we -> tlt s e ->
  chain s e (map plan_interval (plan_around meal rest_name rest_place ws we (s, e))).
Proof.
  intros Hs He Hws Hwe Hse. unfold plan_around.
  destruct (time_ltb (time_max s ws) (time_min e we)) eqn:Hov.
  - destruct (capped_meal_end_spec (time_max s ws) (time_min e we))
      as (Hc & _ & Hlt & Hle); auto with times.
    set (c := capped_meal_end (time_max s ws) (time_min e we)) in *.
    rewrite map_app. apply chain_app with (mid := time_max s ws).
    + destruct (time_ltb s (time_max s ws)) eqn:E; simpl; auto.
      destruct (time_max_cases s ws) as [[? Hm] | [? Hm]]; rewrite Hm in *;
        [time_order | reflexivity].
    + simpl. split; [reflexivity |]. split; [exact Hlt |].
      destruct (time_ltb c e) eqn:E; simpl; auto.
      destruct (time_min_cases e we) as [[? Hm] | [? Hm]]; rewrite Hm in *;
        time_order.
  - rewrite Hse. simpl. auto.
Qed.

Lemma plan_interior_chain ate s e :
  time_valid s -> time_valid e -> tlt s e ->
  chain s e (map plan_interval (fst (plan_interior ate (s, e)))).
Proof.
  intros Hs He Hse. unfold plan_interior.
  destruct (negb ate && lunch_overlap (s, e)); cbn [fst].
  - apply plan_around_chain; auto with times.
  - unfold plan_whole. cbn [fst snd]. rewrite Hse. simpl. auto.
Qed.

Lemma plan_interiors_chains slots : forall ate,
  Forall slot_valid slots ->
  Forall (fun sl => tlt (fst sl) (snd sl)) slots ->
  exists pieces,
    map plan_interval (plan_interiors ate slots) = concat pieces
    /\ Forall2 (fun sl piece => chain (fst sl) (snd sl) piece) slots pieces.
Proof.
  induction slots as [| [s e] slots IH]; intros ate Hv Hp.
  - exists []. split; [reflexivity | constructor].
  - inversion Hv as [| ? ? [Hs He] Hv']; subst.
    inversion Hp as [| ? ? Hse Hp']; subst.
    destruct (IH (snd (plan_interior ate (s, e))) Hv' Hp') as (pieces & Hc & Hall).
    exists (map plan_interval (fst (plan_interior ate (s, e))) :: pieces).
    split.
    + simpl. now rewrite map_app, Hc.
    + constructor; auto. now apply plan_interior_chain.
Qed.

(** With two free slots or more, the rows of the plan split into one run of
    consecutive intervals per free slot, from the start of the slot to its
    end. *)
Lemma fill_plan_chains slots :
  (2 <= length slots)%nat ->
  Forall slot_valid slots ->
  Forall (fun sl => tlt (fst sl) (snd sl)) slots ->
  exists pieces,
    map plan_interval (fill_plan slots) = concat pieces
    /\ Forall2 (fun sl piece => chain (fst sl) (snd sl) piece) slots pieces.
Proof.
  intros Hlen Hv Hp.
  destruct slots as [| [fs fe] [| sl2 rest]]; simpl in Hlen; try lia.
  inversion Hv as [| ? ? Hv1 Hv']; subst.
  inversion Hp as [| ? ? Hp1 Hp']; subst.
  assert (Hrest : sl2 :: rest = removelast (sl2 :: rest) ++ [last (sl2 :: rest) (fs, fe)])
    by (apply app_removelast_last; discriminate).
  set (mid := removelast (sl2 :: rest)) in *.
  set (lst := last (sl2 :: rest) (fs, fe)) in *.
  rewrite Hrest in Hv', Hp'.
  apply Forall_app in Hv'. destruct Hv' as [Hvm Hvl].
  apply Forall_app in Hp'. destruct Hp' as [Hpm Hpl].
  inversion Hvl as [| ? ? [Hls Hle] _]; subst.
  inversion Hpl as [| ? ? Hlse _]; subst.
  destruct (plan_interiors_chains mid false Hvm Hpm) as (pieces & Hc & Hall).
  exists ([(fs, fe)] :: pieces ++ [map plan_interval (plan_last lst)]).
  split.
  - unfold fill_plan. fold mid lst. cbn [map concat app].
    rewrite map_app, Hc, concat_app. simpl. now rewrite app_nil_r.
  - rewrite Hrest. constructor; [simpl; auto |].
    apply Forall2_app; auto. constructor; [| constructor].
    destruct lst as [ls le]. unfold plan_last.
    apply plan_around_chain; auto with times.
Qed.

Lemma chains_cover t slots pieces :
  Forall2 (fun sl piece => chain (fst sl) (snd sl) piece) slots pieces ->
  cover_count t (concat pieces) = cover_count t slots.
Proof.
  induction 1 as [| [s e] piece slots pieces Hc Hall IH]; [reflexivity |].
  simpl concat. rewrite cover_count_app, cover_count_cons, IH.
  now rewrite (chain_cover t s e piece).
Qed.

Lemma carries_out_intervals home plan acts :
  Forall2 (carries_out home) plan acts ->
  map act_interval acts = map plan_interval plan.
Proof.
  induction 1 as [| p a plan acts (_ & Hi & _) Hall IH]; simpl; congruence.
Qed.

(** ** Lunch and dinner in the plan *)

Lemma plan_interiors_ate slots : plan_interiors true slots = study_only slots.
Proof.
  induction slots as [| sl slots IH]; simpl; [reflexivity |].
  now rewrite IH.
Qed.

(** The first interior slot that overlaps the lunch window is carved; the
    slots before and behind it are study time. *)
Lemma plan_interiors_carve pre sl post :
  Forall (fun x => lunch_overlap x = false) pre ->
  lunch_overlap sl = true ->
  plan_interiors false (pre ++ sl :: post)
  = study_only pre
    ++ plan_around LUNCH STUDY Library LUNCH_START LUNCH_END sl
    ++ study_only post.
Proof.
  induction 1 as [| x pre Hx Hall IH]; intros Hsl; simpl.
  - unfold plan_interior. rewrite Hsl. simpl. now rewrite plan_interiors_ate.
  - unfold plan_interior at 1 2. rewrite Hx. simpl.
    rewrite IH by assumption. now rewrite app_assoc.
Qed.

Lemma named_study_only name slots :
  pystr_eqb STUDY name = false -> filter (named name) (study_only slots) = [].
Proof.
  intros Hne. induction slots as [| sl slots IH]; simpl; [reflexivity |].
  rewrite filter_app, IH, app_nil_r. unfold plan_whole.
  destruct (time_ltb (fst sl) (snd sl)); simpl; [| reflexivity].
  unfold named, plan_name; cbn [fst]. now rewrite Hne.
Qed.

Lemma named_plan_around meal rest_name rest_place ws we sl :
  pystr_eqb STUDY meal = false -> pystr_eqb rest_name meal = false ->
  filter (named meal) (plan_around meal rest_name rest_place ws we sl)
  = if time_ltb (time_max (fst sl) ws) (time_min (snd sl) we)
    then [(meal, Canteen,
           (time_max (fst sl) ws,
            capped_meal_end (time_max (fst sl) ws) (time_min (snd sl) we)))]
    else [].
Proof.
  intros H1 H2. destruct sl as [s e]. unfold plan_around. cbn [fst snd].
  assert (Hself : pystr_eqb meal meal = true).
  { unfold pystr_eqb. destruct (list_eq_dec N.eq_dec meal meal); congruence. }
  destruct (time_ltb (time_max s ws) (time_min e we)).
  - rewrite !filter_app.
    destruct (time_ltb s (time_max s ws));
      destruct (time_ltb (capped_meal_end (time_max s ws) (time_min e we)) e);
      cbn [filter app]; unfold named, plan_name; cbn [fst]; rewrite ?H1, ?H2, Hself; reflexivity.
  - destruct (time_ltb s e); cbn [filter app]; unfold named, plan_name; cbn [fst]; rewrite ?H2; reflexivity.
Qed.

Lemma named_plan_other meal rest_name rest_place ws we sl name :
  pystr_eqb STUDY name = false -> pystr_eqb rest_name name = false ->
  pystr_eqb meal name = false ->
  filter (named name) (plan_around meal rest_name rest_place ws we sl) = [].
Proof.
  intros H1 H2 H3. destruct sl as [s e]. unfold plan_around.
  destruct (time_ltb (time_max s ws) (time_min e we)).
  - rewrite !filter_app.
    destruct (time_ltb s (time_max s ws));
      destruct (time_ltb (capped_meal_end (time_max s ws) (time_min e we)) e);
      cbn [filter app]; unfold named, plan_name; cbn [fst]; rewrite ?H1, ?H2, ?H3; reflexivity.
  - destruct (time_ltb s e); cbn [filter app]; unfold named, plan_name; cbn [fst]; rewrite ?H2; reflexivity.
Qed.

Lemma lunch_in_interiors slots : forall ate,
  (length (filter (named LUNCH) (plan_interiors ate slots)) <= 1)%nat.
Proof.
  induction slots as [| sl slots IH]; intros ate; simpl; [lia |].
  rewrite filter_app, length_app. unfold plan_interior.
  destruct (negb ate && lunch_overlap sl) eqn:E; cbn [fst snd].
  - rewrite plan_interiors_ate, named_study_only by reflexivity.
    rewrite named_plan_around by reflexivity.
    destruct (time_ltb _ _); simpl; lia.
  - specialize (IH ate).
    replace (filter (named LUNCH) (plan_whole STUDY Library sl)) with (@nil planned).
    + simpl. lia.
    + unfold plan_whole. now destruct (time_ltb (fst sl) (snd sl)).
Qed.

(** Lunch rows only come from the interior slots, dinner rows only from the
    last slot. *)
Lemma lunch_in_plan slots :
  filter (named LUNCH) (fill_plan slots)
  = filter (named LUNCH) (plan_interiors false (removelast (tl slots))).
Proof.
  destruct slots as [| first [| sl2 rest]]; try reflexivity.
  unfold fill_plan. cbn [tl]. cbn [filter]. 
  change (named LUNCH (WAKE, Home, first)) with false. cbv iota.
  rewrite filter_app. unfold plan_last.
  rewrite named_plan_other by reflexivity. now rewrite app_nil_r.
Qed.

Lemma dinner_in_plan first rest :
  rest <> [] ->
  filter (named DINNER) (fill_plan (first :: rest))
  = filter (named DINNER) (plan_last (last rest first)).
Proof.
  destruct rest as [| sl2 rest]; [congruence | intros _].
  unfold fill_plan. cbn [filter].
  change (named DINNER (WAKE, Home, first)) with false. cbv iota.
  rewrite filter_app.
  replace (filter (named DINNER) (plan_interiors false (removelast (sl2 :: rest))))
    with (@nil planned); [reflexivity |].
  generalize (removelast (sl2 :: rest)) false. intros l.
  induction l as [| sl l IH]; intros ate; simpl; [reflexivity |].
  rewrite filter_app, <- IH, app_nil_r. unfold plan_interior.
  destruct (negb ate && lunch_overlap sl); cbn [fst].
  - now rewrite named_plan_other.
  - unfold plan_whole. now destruct (time_ltb (fst sl) (snd sl)).
Qed.

Lemma carries_out_filter home name plan acts :
  Forall2 (carries_out home) plan acts ->
  Forall2 (carries_out home) (filter (named name) plan) (filter (is_named name) acts).
Proof.
  induction 1 as [| p a plan acts Hc Hall IH]; simpl; [constructor |].
  unfold named, is_named. destruct Hc as (Hn & Hi & Hl). rewrite Hn.
  destruct (pystr_eqb (plan_name p) name); auto.
  constructor; auto. repeat split; auto.
Qed.

(** ** The gap filler on a single free interval *)

(** C2. With exactly one free interval [fill_free_time] does not return the
    single rest record of the specification: the first-slot step has already
    appended a wake/prepare/breakfast record for the whole interval when the
    single-slot branch appends the rest/free-time record, so two records come
    back, both at the home location and both spanning the whole interval
    (and with a header shorter than eight columns the call raises). *)
Theorem single_free_interval_two_records (s e : time) (home : location) (r : rng) :
  fill_calls [(s, e)] home r
  = Ok ([mk_activity WAKE home s e; mk_activity REST home s e], r)
  /\ forall day n,
       fill_free_time day [(s, e)] home n r
       = if Nat.leb 8 n
         then Ok ([render day n (mk_activity WAKE home s e);
                   render day n (mk_activity REST home s e)], r)
         else Raise IndexError.
Proof.
  assert (Hcalls : fill_calls [(s, e)] home r
                   = Ok ([mk_activity WAKE home s e; mk_activity REST home s e], r))
    by reflexivity.
  split; [exact Hcalls |].
  intros day n. destruct (Nat.leb_spec 8 n) as [Hn | Hn].
  - now rewrite fill_free_time_rows, Hcalls.
  - apply fill_free_time_short; [lia | discriminate].
Qed.

(** The whole day free, on a nine-column header: the two rows returned. *)
Example whole_day_free_rows :
  fill_free_time [26143; 26399; 49]%N [(DAY_START, DAY_END)]
                 ([23487; 33293]%N, lit "001" ++ [26635%N]) 9 (fun _ => O)
  = Ok ([[WAKE; [26143; 26399; 49]%N; DASH; DASH; DASH; DASH; [23487; 33293]%N;
          lit "001" ++ [26635%N];
          lit "[1900-01-01 07:00:00, 1900-01-01 22:00:00]"];
         [REST; [26143; 26399; 49]%N; DASH; DASH; DASH; DASH; [23487; 33293]%N;
          lit "001" ++ [26635%N];
          lit "[1900-01-01 07:00:00, 1900-01-01 22:00:00]"]],
        fun _ => O).
Proof. reflexivity. Qed.

(** C1. Coverage fails on a single free interval: the two records that
    [fill_free_time] returns both span the interval, so every instant of the
    interval is covered twice. *)
Theorem single_free_interval_covered_twice (s e : time) (home : location)
    (r : rng) (t : time) :
  exists acts r',
    fill_calls [(s, e)] home r = Ok (acts, r')
    /\ map act_interval acts = [(s, e); (s, e)]
    /\ cover_count t (map act_interval acts) = (2 * cover_count t [(s, e)])%nat.
Proof.
  exists [mk_activity WAKE home s e; mk_activity REST home s e], r.
  split; [reflexivity |]. split; [reflexivity |].
  unfold act_interval; simpl map. rewrite !cover_count_cons.
  unfold cover_count; simpl. lia.
Qed.

(** X9. With two free intervals or more, of valid times and positive length,
    the records returned split into one run per free interval, and each run
    goes from the start of its interval to its end without a gap; so every
    instant lies in as many records as free intervals. *)
Theorem gap_filler_coverage_multi (slots : list slot) (home : location) (r : rng) :
  (2 <= length slots)%nat ->
  Forall slot_valid slots ->
  Forall (fun sl => tlt (fst sl) (snd sl)) slots ->
  exists acts r',
    fill_calls slots home r = Ok (acts, r')
    /\ (exists pieces,
          map act_interval acts = concat pieces
          /\ Forall2 (fun sl piece => chain (fst sl) (snd sl) piece) slots pieces)
    /\ forall t, cover_count t (map act_interval acts) = cover_count t slots.
Proof.
  intros Hlen Hv Hp.
  destruct (realise_total home (fill_plan slots) r) as (acts & r' & Hr & Hall).
  exists acts, r'. rewrite fill_calls_plan. split; [exact Hr |].
  destruct (fill_plan_chains slots Hlen Hv Hp) as (pieces & Hc & Hch).
  rewrite (carries_out_intervals _ _ _ Hall), Hc.
  split; [eauto |]. intros t. now apply chains_cover.
Qed.

Lemma free_slots_valid busy : forall cursor,
  time_valid cursor ->
  Forall (fun b => time_valid (slot_start b) /\ time_valid (slot_end b)) busy ->
  Forall slot_valid (spec_free_slots_from cursor busy).
Proof.
  induction busy as [| b busy IH]; intros cursor Hc Hb; simpl.
  - destruct (time_ltb cursor DAY_END); constructor; [| constructor].
    split; [assumption | unfold time_valid; simpl; lia].
  - inversion Hb as [| ? ? [Hs He] Hb']; subst.
    apply Forall_app; split.
    + destruct (time_ltb cursor (slot_start b)); constructor; [| constructor].
      split; assumption.
    + apply IH; auto with times.
Qed.

(** X10. The two components together: on a day whose classes leave two free
    slots or more, the records of the gap filler cover the free slots of the
    Free-Slot Computer exactly. *)
Corollary day_free_time_covered (day : pystr) (busy : list class_entry)
    (home : location) (r : rng) :
  Forall (fun b => time_valid (slot_start b) /\ time_valid (slot_end b)) busy ->
  (2 <= length (print_free_slots day busy))%nat ->
  exists acts r',
    fill_calls (print_free_slots day busy) home r = Ok (acts, r')
    /\ forall t,
         cover_count t (map act_interval acts)
         = cover_count t (print_free_slots day busy).
Proof.
  intros Hb Hlen.
  destruct (realise_total home (fill_plan (print_free_slots day busy)) r)
    as (acts & r' & Hr & Hall).
  exists acts, r'. rewrite fill_calls_plan. split; [exact Hr |].
  destruct (fill_plan_chains (print_free_slots day busy) Hlen)
    as (pieces & Hc & Hch).
  - rewrite print_free_slots_unfold. apply free_slots_valid; auto.
    unfold time_valid; simpl; lia.
  - rewrite print_free_slots_unfold. apply free_slots_positive.
  - intros t. rewrite (carries_out_intervals _ _ _ Hall), Hc.
    now apply chains_cover.
Qed.

(** ** The meal cap *)

(** The calls for a slot whose overlap with the meal window is longer than
    an hour: a study record in front of the overlap when the slot starts
    before it, the meal of one hour, and the record behind the meal up to the
    end of the slot; nothing else. An instant of the overlap behind the meal
    lies in the last of them and in no other. *)
Lemma around_long_calls home meal rest_name rest_place ws we s e r :
  time_valid s -> time_valid e -> time_valid ws -> time_valid we ->
  3600 < seconds_between (time_max s ws) (time_min e we) ->
  exists front canteen loc r',
    realise home (plan_around meal rest_name rest_place ws we (s, e)) r
    = Ok (front
          ++ [mk_activity meal canteen (time_max s ws)
                (time_add_seconds (time_max s ws) 3600);
              mk_activity rest_name loc (time_add_seconds (time_max s ws) 3600) e],
          r')
    /\ In canteen CANTEENS /\ place_ok home rest_place loc
    /\ (if time_ltb s (time_max s ws)
        then exists lib0, In lib0 LIBRARIES
                          /\ front = [mk_activity STUDY lib0 s (time_max s ws)]
        else front = [])
    /\ forall t,
         covers t (time_add_seconds (time_max s ws) 3600, time_min e we) = true ->
         covers t (time_add_seconds (time_max s ws) 3600, e) = true
         /\ cover_count t
              (map act_interval
                 (front
                  ++ [mk_activity meal canteen (time_max s ws)
                        (time_add_seconds (time_max s ws) 3600);
                      mk_activity rest_name loc
                        (time_add_seconds (time_max s ws) 3600) e]))
            = 1%nat.
Proof.
  intros Hs He Hws Hwe Hlong.
  set (os := time_max s ws) in *. set (oe := time_min e we) in *.
  assert (Hos : time_valid os) by (subst os; auto with times).
  assert (Hoe : time_valid oe) by (subst oe; auto with times).
  assert (Hov : tlt os oe).
  { apply tlt_seconds; auto. unfold seconds_between in Hlong. lia. }
  destruct (capped_meal_end_spec os oe Hos Hoe Hov) as (Hc & Hdur & Hlt & Hle).
  assert (Hcap : capped_meal_end os oe = time_add_seconds os 3600).
  { unfold capped_meal_end. now rewrite Z.min_r by lia. }
  rewrite Hcap in *. set (cap := time_add_seconds os 3600) in *.
  assert (Hoe_e : tle oe e).
  { subst oe. destruct (time_min_cases e we) as [[? ->] | [? ->]]; time_order. }
  assert (Hplan :
    plan_around meal rest_name rest_place ws we (s, e)
    = (if time_ltb s os then [(STUDY, Library, (s, os))] else [])
      ++ [(meal, Canteen, (os, cap)); (rest_name, rest_place, (cap, e))]).
  { assert (Hstrict : tlt cap oe).
    { apply tlt_seconds; auto. unfold seconds_between in *. lia. }
    unfold plan_around. fold os oe. rewrite Hov, Hcap. fold cap.
    replace (time_ltb cap e) with true by (symmetry; time_order).
    reflexivity. }
  destruct (realise_total home (plan_around meal rest_name rest_place ws we (s, e)) r)
    as (acts & r' & Hr & Hall).
  rewrite Hr. rewrite Hplan in Hall. clear Hr Hplan.
  apply Forall2_app_inv_l in Hall.
  destruct Hall as (front & ta & Hfront & Hta & ->).
  inversion Hta as [| ? a ? ? Ha Hta']; subst.
  inversion Hta' as [| ? b ? ? Hb Hta'']; subst.
  inversion Hta''; subst. clear Hta Hta' Hta''.
  destruct a as [an al as_ ae], b as [bn bl bs be].
  destruct Ha as (Ha1 & Ha2 & Ha3), Hb as (Hb1 & Hb2 & Hb3).
  unfold act_interval, plan_name, plan_interval, plan_place in Ha1, Ha2, Ha3, Hb1, Hb2, Hb3.
  cbn [act_name act_start act_end act_loc fst snd] in Ha1, Ha2, Ha3, Hb1, Hb2, Hb3.
  subst an bn. injection Ha2 as -> ->. injection Hb2 as -> ->.
  exists front, al, bl, r'.
  split; [reflexivity |]. split; [exact Ha3 |].
  split; [destruct rest_place; exact Hb3 |].
  assert (Hshape :
    if time_ltb s os
    then exists lib0, In lib0 LIBRARIES /\ front = [mk_activity STUDY lib0 s os]
    else front = []).
  { destruct (time_ltb s os).
    - inversion Hfront as [| ? c ? ? Hc0 Hrest]; subst. inversion Hrest; subst.
      destruct c as [cn cl cs ce]. destruct Hc0 as (Hc1 & Hc2 & Hc3).
      unfold act_interval, plan_name, plan_interval, plan_place in Hc1, Hc2, Hc3.
      cbn [act_name act_start act_end act_loc fst snd] in Hc1, Hc2, Hc3.
      subst cn. injection Hc2 as -> ->. exists cl. split; [exact Hc3 | reflexivity].
    - now inversion Hfront. }
  split; [exact Hshape |].
  intros t Ht. unfold covers in Ht; cbn [fst snd] in Ht.
  apply andb_true_iff in Ht. destruct Ht as [Ht1 Ht2]. apply negb_true_iff in Ht1.
  assert (Hlast : covers t (cap, e) = true).
  { unfold covers; cbn [fst snd]. rewrite Ht1. cbn [negb andb]. time_order. }
  assert (Hmeal : covers t (os, cap) = false).
  { unfold covers; cbn [fst snd]. apply andb_false_iff. right. time_order. }
  assert (Hstudy : covers t (s, os) = false).
  { unfold covers; cbn [fst snd]. apply andb_false_iff. right. time_order. }
  split; [exact Hlast |].
  rewrite map_app, cover_count_app. cbn [map].
  rewrite !cover_count_cons. unfold act_interval at 2 3.
  cbn [act_start act_end]. rewrite Hlast, Hmeal.
  destruct (time_ltb s os).
  - destruct Hshape as (lib0 & _ & ->). cbn [map].
    rewrite cover_count_cons. unfold act_interval; cbn [act_start act_end].
    now rewrite Hstudy.
  - subst front. reflexivity.
Qed.

(** C4, as the code has it. When the overlap of a free interval with the
    meal window is longer than one hour, the loop body appends exactly
    these records: a study record from the start of the interval to the
    start of the overlap when the interval starts before the window, the
    meal record of one hour from the start of the overlap, and one trailing
    record (study after lunch, the evening rest at home after dinner) from
    the end of the meal to the end of the free interval. The time of the
    overlap behind the meal gets no further record and is not dropped:
    each of its instants lies in the trailing record and in no other record
    that the body appends. *)
Theorem meal_leftover_joins_trailing_record (s e : time) (home : location)
    (filled : list activity) (r : rng) :
  time_valid s -> time_valid e ->
  (3600 < seconds_between (time_max s LUNCH_START) (time_min e LUNCH_END) ->
   exists front canteen lib r',
     interior_body record_call (false, filled) (s, e) r
     = Ok ((true,
            filled ++ front
            ++ [mk_activity LUNCH canteen (time_max s LUNCH_START)
                  (time_add_seconds (time_max s LUNCH_START) 3600);
                mk_activity STUDY lib
                  (time_add_seconds (time_max s LUNCH_START) 3600) e]), r')
     /\ In canteen CANTEENS /\ In lib LIBRARIES
     /\ (if time_ltb s (time_max s LUNCH_START)
         then exists lib0, In lib0 LIBRARIES
                /\ front = [mk_activity STUDY lib0 s (time_max s LUNCH_START)]
         else front = [])
     /\ forall t,
          covers t (time_add_seconds (time_max s LUNCH_START) 3600,
                    time_min e LUNCH_END) = true ->
          covers t (time_add_seconds (time_max s LUNCH_START) 3600, e) = true
          /\ cover_count t
               (map act_interval
                  (front
                   ++ [mk_activity LUNCH canteen (time_max s LUNCH_START)
                         (time_add_seconds (time_max s LUNCH_START) 3600);
                       mk_activity STUDY lib
                         (time_add_seconds (time_max s LUNCH_START) 3600) e]))
             = 1%nat)
  /\ (3600 < seconds_between (time_max s DINNER_START) (time_min e DINNER_END) ->
      exists front canteen r',
        last_slot_body record_call filled home (s, e) r
        = Ok (filled ++ front
              ++ [mk_activity DINNER canteen (time_max s DINNER_START)
                    (time_add_seconds (time_max s DINNER_START) 3600);
                  mk_activity EVENING home
                    (time_add_seconds (time_max s DINNER_START) 3600) e], r')
        /\ In canteen CANTEENS
        /\ (if time_ltb s (time_max s DINNER_START)
            then exists lib0, In lib0 LIBRARIES
                   /\ front = [mk_activity STUDY lib0 s (time_max s DINNER_START)]
            else front = [])
        /\ forall t,
             covers t (time_add_seconds (time_max s DINNER_START) 3600,
                       time_min e DINNER_END) = true ->
             covers t (time_add_seconds (time_max s DINNER_START) 3600, e) = true
             /\ cover_count t
                  (map act_interval
                     (front
                      ++ [mk_activity DINNER canteen (time_max s DINNER_START)
                            (time_add_seconds (time_max s DINNER_START) 3600);
                          mk_activity EVENING home
                            (time_add_seconds (time_max s DINNER_START) 3600) e]))
                = 1%nat).
Proof.
  intros Hs He. split; intros Hlong.
  - destruct (around_long_calls home LUNCH STUDY Library LUNCH_START LUNCH_END s e r)
      as (front & canteen & lib & r' & Hr & Hcan & Hlib & Hfront & Hleft);
      auto with times.
    assert (Hov : lunch_overlap (s, e) = true).
    { unfold lunch_overlap; cbn [fst snd]. apply tlt_seconds; auto with times.
      unfold seconds_between in Hlong. lia. }
    rewrite (interior_body_plan record_call (fun a => a)) with (home := home)
      by reflexivity.
    unfold plan_interior. rewrite Hov. cbn [negb andb fst snd]. rewrite Hr.
    unfold then_rows. rewrite map_id.
    exists front, canteen, lib, r'.
    split; [reflexivity |]. split; [exact Hcan |]. split; [exact Hlib |].
    split; [exact Hfront | exact Hleft].
  - destruct (around_long_calls home DINNER EVENING Home DINNER_START DINNER_END s e r)
      as (front & canteen & loc & r' & Hr & Hcan & Hloc & Hfront & Hleft);
      auto with times.
    simpl in Hloc. subst loc.
    rewrite (last_slot_body_plan record_call (fun a => a)) by reflexivity.
    unfold plan_last. rewrite Hr. unfold then_rows. rewrite map_id.
    exists front, canteen, r'.
    split; [reflexivity |]. split; [exact Hcan |].
    split; [exact Hfront | exact Hleft].
Qed.

Lemma meal_leftover_joins_trailing_record_witness :
  exists front canteen lib r',
    interior_body record_call (false, []) (mk_time 11 0 0, mk_time 14 0 0) (fun _ => O)
    = Ok ((true,
           [] ++ front
           ++ [mk_activity LUNCH canteen (time_max (mk_time 11 0 0) LUNCH_START)
                 (time_add_seconds (time_max (mk_time 11 0 0) LUNCH_START) 3600);
               mk_activity STUDY lib
                 (time_add_seconds (time_max (mk_time 11 0 0) LUNCH_START) 3600)
                 (mk_time 14 0 0)]), r')
    /\ In canteen CANTEENS /\ In lib LIBRARIES
    /\ (exists lib0, In lib0 LIBRARIES
          /\ front = [mk_activity STUDY lib0 (mk_time 11 0 0) LUNCH_START])
    /\ covers (mk_time 13 0 0)
         (time_add_seconds (time_max (mk_time 11 0 0) LUNCH_START) 3600,
          mk_time 14 0 0) = true
    /\ cover_count (mk_time 13 0 0)
         (map act_interval
            (front
             ++ [mk_activity LUNCH canteen (time_max (mk_time 11 0 0) LUNCH_START)
                   (time_add_seconds (time_max (mk_time 11 0 0) LUNCH_START) 3600);
                 mk_activity STUDY lib
                   (time_add_seconds (time_max (mk_time 11 0 0) LUNCH_START) 3600)
                   (mk_time 14 0 0)]))
       = 1%nat.
Proof.
  destruct (meal_leftover_joins_trailing_record (mk_time 11 0 0) (mk_time 14 0 0)
              ([], []) [] (fun _ => O)) as [Hlunch _].
  - unfold time_valid; simpl; lia.
  - unfold time_valid; simpl; lia.
  - destruct Hlunch as (front & canteen & lib & r' & H1 & H2 & H3 & H4 & H5).
    + vm_compute. reflexivity.
    + exists front, canteen, lib, r'.
      split; [exact H1 |]. split; [exact H2 |]. split; [exact H3 |].
      split; [exact H4 |]. apply (H5 (mk_time 13 0 0)). reflexivity.
Defined.

(** The leftover of the lunch overlap is not dropped: on the free intervals
    07:00-09:00, 11:00-14:00 and 20:00-22:00 the overlap of the second one
    with the lunch window is 11:30-13:30, lunch is 11:30-12:30, and the
    leftover 12:30-13:30 lies in the study record 12:30-14:00. *)
Lemma meal_leftover_not_dropped :
  exists acts r',
    fill_calls [(mk_time 7 0 0, mk_time 9 0 0); (mk_time 11 0 0, mk_time 14 0 0);
                (mk_time 20 0 0, mk_time 22 0 0)]
               ([23487; 33293]%N, lit "001" ++ [26635%N]) (fun _ => O)
    = Ok (acts, r')
    /\ map (fun a => (act_name a, act_interval a)) acts
       = [(WAKE, (mk_time 7 0 0, mk_time 9 0 0));
          (STUDY, (mk_time 11 0 0, mk_time 11 30 0));
          (LUNCH, (mk_time 11 30 0, mk_time 12 30 0));
          (STUDY, (mk_time 12 30 0, mk_time 14 0 0));
          (EVENING, (mk_time 20 0 0, mk_time 22 0 0))]
    /\ ~ leftover_dropped acts (mk_time 12 30 0, mk_time 13 30 0).
Proof.
  eexists. eexists. split; [lazy; reflexivity |]. split; [reflexivity |].
  intros H. specialize (H (mk_time 12 45 0) eq_refl). discriminate H.
Qed.

(** ** One lunch a day *)

Lemma removelast_middle {A} (pre : list A) x post lst :
  removelast (pre ++ x :: post ++ [lst]) = pre ++ x :: post.
Proof.
  change (pre ++ x :: post ++ [lst]) with (pre ++ (x :: post) ++ [lst]).
  rewrite app_assoc. apply removelast_last.
Qed.

Lemma filter_map_comm {A B} (g : A -> B) (p : B -> bool) l :
  filter p (map g l) = map g (filter (fun x => p (g x)) l).
Proof.
  induction l as [| x l IH]; simpl; [reflexivity |].
  destruct (p (g x)); simpl; now rewrite IH.
Qed.

Lemma render_head day n a : (8 <= n)%nat -> nth 0 (render day n a) [] = act_name a.
Proof.
  intros Hn. unfold render. rewrite pad_loop_spec by lia.
  destruct n as [| n]; [lia | reflexivity].
Qed.

(** C6. Single lunch: the gap filler returns, and among the records it
    returns at most one is a lunch record, however many interior free
    intervals overlap the lunch window; the same holds for the rows built on
    a header of eight columns or more; and when some interior interval
    overlaps the lunch window, the lunch record is carved out of the first
    such interval: it starts at that interval's overlap start and ends at the
    capped end of that overlap. *)
Theorem single_lunch (slots : list slot) (home : location) (r : rng) :
  exists acts r',
    fill_calls slots home r = Ok (acts, r')
    /\ (length (filter (is_named LUNCH) acts) <= 1)%nat
    /\ (forall day n, (8 <= n)%nat ->
          exists rows,
            fill_free_time day slots home n r = Ok (rows, r')
            /\ (length (filter (fun row => pystr_eqb (nth 0 row []) LUNCH) rows)
                <= 1)%nat)
    /\ (forall first pre sl post lst,
          slots = first :: pre ++ sl :: post ++ [lst] ->
          Forall (fun x => lunch_overlap x = false) pre ->
          lunch_overlap sl = true ->
          map act_interval (filter (is_named LUNCH) acts)
          = [(time_max (fst sl) LUNCH_START,
              capped_meal_end (time_max (fst sl) LUNCH_START)
                              (time_min (snd sl) LUNCH_END))]).
Proof.
  destruct (realise_total home (fill_plan slots) r) as (acts & r' & Hr & Hall).
  exists acts, r'. rewrite fill_calls_plan. split; [exact Hr |].
  pose proof (carries_out_filter home LUNCH _ _ Hall) as Hlunch.
  assert (Hcount : (length (filter (is_named LUNCH) acts) <= 1)%nat).
  { rewrite <- (Forall2_length Hlunch), lunch_in_plan. apply lunch_in_interiors. }
  split; [exact Hcount |]. split.
  - intros day n Hn. exists (map (render day n) acts).
    rewrite fill_free_time_rows, fill_calls_plan, Hr by assumption.
    split; [reflexivity |].
    rewrite filter_map_comm, length_map.
    rewrite (filter_ext _ (is_named LUNCH)); [exact Hcount |].
    intros a. unfold is_named. now rewrite render_head.
  - intros first pre sl post lst -> Hpre Hsl.
    rewrite (carries_out_intervals _ _ _ Hlunch), lunch_in_plan.
    cbn [tl]. rewrite removelast_middle, plan_interiors_carve by assumption.
    rewrite !filter_app, !named_study_only by reflexivity.
    rewrite named_plan_around by reflexivity.
    unfold lunch_overlap in Hsl. rewrite Hsl. reflexivity.
Qed.

Lemma single_lunch_witness :
  exists acts r',
    fill_calls [(mk_time 7 0 0, mk_time 9 0 0); (mk_time 11 0 0, mk_time 12 0 0);
                (mk_time 12 30 0, mk_time 13 15 0); (mk_time 20 0 0, mk_time 22 0 0)]
               ([], []) (fun _ => O)
    = Ok (acts, r')
    /\ map act_interval (filter (is_named LUNCH) acts)
       = [(time_max (mk_time 11 0 0) LUNCH_START,
           capped_meal_end (time_max (mk_time 11 0 0) LUNCH_START)
                           (time_min (mk_time 12 0 0) LUNCH_END))]
    /\ exists rows,
         fill_free_time [] [(mk_time 7 0 0, mk_time 9 0 0);
                            (mk_time 11 0 0, mk_time 12 0 0);
                            (mk_time 12 30 0, mk_time 13 15 0);
                            (mk_time 20 0 0, mk_time 22 0 0)]
                        ([], []) 9 (fun _ => O)
         = Ok (rows, r')
         /\ (length (filter (fun row => pystr_eqb (nth 0 row []) LUNCH) rows) <= 1)%nat.
Proof.
  destruct (single_lunch
              [(mk_time 7 0 0, mk_time 9 0 0); (mk_time 11 0 0, mk_time 12 0 0);
               (mk_time 12 30 0, mk_time 13 15 0); (mk_time 20 0 0, mk_time 22 0 0)]
              ([], []) (fun _ => O))
    as (acts & r' & Hcalls & _ & Hrows & Hfirst).
  exists acts, r'. split; [exact Hcalls |]. split.
  - apply (Hfirst (mk_time 7 0 0, mk_time 9 0 0) []
                  (mk_time 11 0 0, mk_time 12 0 0)
                  [(mk_time 12 30 0, mk_time 13 15 0)]
                  (mk_time 20 0 0, mk_time 22 0 0)).
    + reflexivity.
    + constructor.
    + reflexivity.
  - apply Hrows. lia.
Defined.

(** ** The meal cap on a slot that contains the window *)

Lemma lunch_rows_of_plan first pre sl post lst :
  Forall (fun x => lunch_overlap x = false) pre ->
  lunch_overlap sl = true ->
  filter (named LUNCH) (fill_plan (first :: pre ++ sl :: post ++ [lst]))
  = [(LUNCH, Canteen,
      (time_max (fst sl) LUNCH_START,
       capped_meal_end (time_max (fst sl) LUNCH_START) (time_min (snd sl) LUNCH_END)))].
Proof.
  intros Hpre Hsl. rewrite lunch_in_plan.
  cbn [tl]. rewrite removelast_middle, plan_interiors_carve by assumption.
  rewrite !filter_app, !named_study_only by reflexivity.
  rewrite named_plan_around by reflexivity.
  unfold lunch_overlap in Hsl. rewrite Hsl. reflexivity.
Qed.

Lemma window_in_slot s e ws we :
  tle s ws -> tle we e -> time_max s ws = ws /\ time_min e we = we.
Proof.
  intros Hs He. split.
  - destruct (time_max_cases s ws) as [[? ->] | [? ->]]; [reflexivity |].
    apply time_eq_fields. apply tle_not_tlt in Hs, H. rewrite tlt_lex in Hs, H. lia.
  - destruct (time_min_cases e we) as [[? ->] | [? ->]]; [reflexivity |].
    apply time_eq_fields. apply tle_not_tlt in He, H. rewrite tlt_lex in He, H. lia.
Qed.

(** C7. Meal cap: when the interior free interval carved for lunch contains
    the whole lunch window, the one lunch record starts at the overlap start,
    which is the start of the window, and lasts
    min(window length, 3600 seconds), whatever the length of the free
    interval; likewise the dinner record when the last of two or more free
    intervals contains the whole dinner window. *)
Theorem meal_cap (slots : list slot) (home : location) (r : rng) :
  exists acts r',
    fill_calls slots home r = Ok (acts, r')
    /\ (forall first pre sl post lst,
          slots = first :: pre ++ sl :: post ++ [lst] ->
          Forall (fun x => lunch_overlap x = false) pre ->
          tle (fst sl) LUNCH_START -> tle LUNCH_END (snd sl) ->
          exists lunch_end,
            map act_interval (filter (is_named LUNCH) acts)
            = [(time_max (fst sl) LUNCH_START, lunch_end)]
            /\ time_max (fst sl) LUNCH_START = LUNCH_START
            /\ seconds_between LUNCH_START lunch_end
               = Z.min (seconds_between LUNCH_START LUNCH_END) 3600)
    /\ (forall first rest,
          slots = first :: rest -> rest <> [] ->
          tle (fst (last rest first)) DINNER_START ->
          tle DINNER_END (snd (last rest first)) ->
          exists dinner_end,
            map act_interval (filter (is_named DINNER) acts)
            = [(time_max (fst (last rest first)) DINNER_START, dinner_end)]
            /\ time_max (fst (last rest first)) DINNER_START = DINNER_START
            /\ seconds_between DINNER_START dinner_end
               = Z.min (seconds_between DINNER_START DINNER_END) 3600).
Proof.
  destruct (realise_total home (fill_plan slots) r) as (acts & r' & Hr & Hall).
  exists acts, r'. rewrite fill_calls_plan. split; [exact Hr |]. split.
  - intros first pre sl post lst -> Hpre Hs He.
    destruct (window_in_slot _ _ _ _ Hs He) as [Hmax Hmin].
    pose proof (carries_out_filter home LUNCH _ _ Hall) as Hlunch.
    rewrite lunch_rows_of_plan in Hlunch;
      [| assumption | unfold lunch_overlap; now rewrite Hmax, Hmin].
    apply carries_out_intervals in Hlunch. rewrite Hlunch, Hmax, Hmin.
    exists (capped_meal_end LUNCH_START LUNCH_END). repeat split.
  - intros first rest -> Hne Hs He.
    destruct (window_in_slot _ _ _ _ Hs He) as [Hmax Hmin].
    pose proof (carries_out_filter home DINNER _ _ Hall) as Hdinner.
    rewrite (dinner_in_plan first rest Hne) in Hdinner.
    unfold plan_last in Hdinner. rewrite named_plan_around in Hdinner by reflexivity.
    rewrite Hmax, Hmin in Hdinner.
    change (time_ltb DINNER_START DINNER_END) with true in Hdinner. cbv iota in Hdinner.
    apply carries_out_intervals in Hdinner. rewrite Hdinner, Hmax.
    exists (capped_meal_end DINNER_START DINNER_END). repeat split.
Qed.

Lemma meal_cap_witness :
  exists acts r',
    fill_calls [(mk_time 7 0 0, mk_time 9 0 0); (mk_time 10 35 0, mk_time 15 0 0);
                (mk_time 16 0 0, mk_time 22 0 0)] ([], []) (fun _ => O)
    = Ok (acts, r')
    /\ (exists lunch_end,
          map act_interval (filter (is_named LUNCH) acts)
          = [(time_max (mk_time 10 35 0) LUNCH_START, lunch_end)]
          /\ time_max (mk_time 10 35 0) LUNCH_START = LUNCH_START
          /\ seconds_between LUNCH_START lunch_end
             = Z.min (seconds_between LUNCH_START LUNCH_END) 3600)
    /\ (exists dinner_end,
          map act_interval (filter (is_named DINNER) acts)
          = [(time_max (mk_time 16 0 0) DINNER_START, dinner_end)]
          /\ time_max (mk_time 16 0 0) DINNER_START = DINNER_START
          /\ seconds_between DINNER_START dinner_end
             = Z.min (seconds_between DINNER_START DINNER_END) 3600).
Proof.
  destruct (meal_cap
              [(mk_time 7 0 0, mk_time 9 0 0); (mk_time 10 35 0, mk_time 15 0 0);
               (mk_time 16 0 0, mk_time 22 0 0)] ([], []) (fun _ => O))
    as (acts & r' & Hcalls & Hlunch & Hdinner).
  exists acts, r'. split; [exact Hcalls |]. split.
  - apply (Hlunch (mk_time 7 0 0, mk_time 9 0 0) []
                  (mk_time 10 35 0, mk_time 15 0 0) []
                  (mk_time 16 0 0, mk_time 22 0 0)).
    + reflexivity.
    + constructor.
    + reflexivity.
    + reflexivity.
  - apply (Hdinner (mk_time 7 0 0, mk_time 9 0 0)
                   [(mk_time 10 35 0, mk_time 15 0 0); (mk_time 16 0 0, mk_time 22 0 0)]).
    + reflexivity.
    + discriminate.
    + reflexivity.
    + reflexivity.
Defined.

(** ** Width of the synthetic rows and their sort key *)

Lemma pool_names_short :
  Forall (fun loc : location => (length (snd loc) <= 4)%nat)
         (DORMITORIES ++ CANTEENS ++ LIBRARIES).
Proof.
  apply Forall_forall. intros loc Hin.
  assert (H : forallb (fun loc : location => Nat.leb (length (snd loc)) 4)
                      (DORMITORIES ++ CANTEENS ++ LIBRARIES) = true)
    by (vm_compute; reflexivity).
  rewrite forallb_forall in H. apply Nat.leb_le. now apply H.
Qed.

Lemma format_time_range_length s e : length (format_time_range s e) = 42%nat.
Proof. reflexivity. Qed.

Lemma last_repeat_dash (l : row) k : last (l ++ repeat DASH (S k)) [] = DASH.
Proof.
  replace (repeat DASH (S k)) with (repeat DASH k ++ [DASH]).
  - now rewrite app_assoc, last_last.
  - change [DASH] with (repeat DASH 1). rewrite <- repeat_app. f_equal. lia.
Qed.

(** The row of an activity: the nine fields followed by ["-"] fields on a
    header wider than nine columns, and the first eight fields on a header
    of eight columns. *)
Lemma render_wide day n a :
  (9 <= n)%nat ->
  render day n a
  = [act_name a; day; DASH; DASH; DASH; DASH; fst (act_loc a); snd (act_loc a);
     format_time_range (act_start a) (act_end a)] ++ repeat DASH (n - 9).
Proof.
  intros Hn. unfold render. rewrite pad_loop_spec by lia.
  apply firstn_all2. rewrite length_app, repeat_length. simpl length. lia.
Qed.

Lemma render_eight day a :
  render day 8 a
  = [act_name a; day; DASH; DASH; DASH; DASH; fst (act_loc a); snd (act_loc a)].
Proof. reflexivity. Qed.

Section RowKeys.

Variable uni_decimal : pychar -> bool.

Lemma findall_short s : forall skip,
  (length s < 8)%nat -> findall_from uni_decimal skip s = [].
Proof.
  induction s as [| c s IH]; intros skip Hlen; [reflexivity |].
  simpl in Hlen. destruct skip as [| k]; cbn [findall_from].
  - replace (match_hms uni_decimal (c :: s)) with (@None pystr).
    + apply IH. lia.
    + unfold match_hms.
      destruct s as [| c1 [| c2 [| c3 [| c4 [| c5 [| c6 [| c7 s]]]]]]];
        try reflexivity. simpl in Hlen. lia.
  - apply IH. lia.
Qed.

Lemma short_field_key (r : row) day :
  nth_error r 1 = Some day -> (length (last r []) < 8)%nat ->
  get_sort_key uni_decimal r = Ok (weekday_ordinal day, mk_time 0 0 0).
Proof.
  intros Hday Hlast. rewrite get_sort_key_spec.
  unfold spec_sort_key, spec_weekday, spec_start_time. rewrite Hday.
  rewrite parse_other_count; [reflexivity |].
  unfold re_findall. now rewrite findall_short.
Qed.

(** C10. Width of the synthetic rows. With a home location from the
    dormitory pool, as the program draws it: on a header of fewer than eight
    columns the gap filler builds no row, its first call raises IndexError;
    on a header of [n >= 8] columns it returns one row per call, each row of
    exactly [n] fields; the formatted interval string is the last field of
    the row exactly when [n = 9]; for [n > 9] the last field is the padding
    ["-"], for [n = 8] the interval string is cut off and the row ends with
    the location name; and whenever [n <> 9] the key of the final sort for
    the row is the ordinal of its day with the start time 00:00:00. *)
Theorem synthetic_row_width (day : pystr) (slots : list slot) (home : location)
    (n : nat) (r : rng) :
  In home DORMITORIES ->
  ((n < 8)%nat -> slots <> [] ->
   fill_free_time day slots home n r = Raise IndexError)
  /\ ((8 <= n)%nat ->
      exists acts rows r',
        fill_calls slots home r = Ok (acts, r')
        /\ fill_free_time day slots home n r = Ok (rows, r')
        /\ Forall2
             (fun a row =>
                create_new_row day n (act_name a) (act_loc a) (act_start a) (act_end a)
                = Ok row
                /\ length row = n
                /\ (last row [] = format_time_range (act_start a) (act_end a)
                    <-> n = 9%nat)
                /\ ((9 < n)%nat -> last row [] = DASH)
                /\ ((n < 9)%nat ->
                    row = [act_name a; day; DASH; DASH; DASH; DASH;
                           fst (act_loc a); snd (act_loc a)])
                /\ (n <> 9%nat ->
                    get_sort_key uni_decimal row
                    = Ok (weekday_ordinal day, mk_time 0 0 0)))
             acts rows).
Proof.
  intros Hhome. split; [apply fill_free_time_short |].
  intros Hn.
  destruct (realise_total home (fill_plan slots) r) as (acts & r' & Hr & Hall).
  exists acts, (map (render day n) acts), r'.
  rewrite fill_free_time_rows, fill_calls_plan, Hr by assumption.
  split; [reflexivity |]. split; [reflexivity |].
  assert (Hlocs : Forall (fun a => (length (snd (act_loc a)) <= 4)%nat) acts).
  { clear Hr. induction Hall as [| p a plan acts (_ & _ & Hl) _ IH]; constructor; auto.
    pose proof pool_names_short as Hshort. rewrite Forall_forall in Hshort.
    apply Hshort. rewrite !in_app_iff.
    destruct (plan_place p); [left; congruence | auto | auto]. }
  clear Hr Hall. induction Hlocs as [| a acts Ha _ IH]; simpl; constructor; auto.
  split.
  { destruct a as [name loc s e]. now apply create_new_row_render. }
  split; [apply render_length |].
  destruct (Nat.eq_dec n 8) as [-> | Hn8].
  - rewrite render_eight. cbn [last].
    split; [| split; [lia | split; [reflexivity |]]].
    + split; [| discriminate]. intros Heq. exfalso.
      apply (f_equal (@length pychar)) in Heq.
      rewrite format_time_range_length in Heq. lia.
    + intros _. apply short_field_key; [reflexivity | simpl; lia].
  - assert (Hn9 : (9 <= n)%nat) by lia.
    rewrite (render_wide day n a Hn9).
    destruct (Nat.eq_dec n 9) as [-> | Hne].
    + simpl repeat. rewrite app_nil_r. cbn [last].
      split; [tauto |]. split; [lia |]. split; [lia | congruence].
    + replace (n - 9)%nat with (S (n - 10)) by lia.
      rewrite last_repeat_dash.
      split; [| split; [reflexivity | split; [lia |]]].
      * split; [| lia]. intros Heq. exfalso.
        apply (f_equal (@length pychar)) in Heq.
        rewrite format_time_range_length in Heq. simpl in Heq. lia.
      * intros _. apply short_field_key; [reflexivity |].
        rewrite last_repeat_dash. simpl. lia.
Qed.

End RowKeys.

Lemma synthetic_row_width_witness :
  fill_free_time [26143; 26399; 49]%N [(DAY_START, DAY_END)]
                 ([23487; 33293]%N, lit "001" ++ [26635%N]) 5 (fun _ => O)
  = Raise IndexError
  /\ exists acts rows r',
       fill_calls [(DAY_START, DAY_END)]
                  ([23487; 33293]%N, lit "001" ++ [26635%N]) (fun _ => O)
       = Ok (acts, r')
       /\ fill_free_time [26143; 26399; 49]%N [(DAY_START, DAY_END)]
                         ([23487; 33293]%N, lit "001" ++ [26635%N]) 8 (fun _ => O)
          = Ok (rows, r')
       /\ Forall2
            (fun a row =>
               create_new_row [26143; 26399; 49]%N 8 (act_name a) (act_loc a)
                              (act_start a) (act_end a)
               = Ok row
               /\ length row = 8%nat
               /\ (last row [] = format_time_range (act_start a) (act_end a)
                   <-> 8%nat = 9%nat)
               /\ ((9 < 8)%nat -> last row [] = DASH)
               /\ ((8 < 9)%nat ->
                   row = [act_name a; [26143; 26399; 49]%N; DASH; DASH; DASH; DASH;
                          fst (act_loc a); snd (act_loc a)])
               /\ (8%nat <> 9%nat ->
                   get_sort_key (fun _ => false) row
                   = Ok (weekday_ordinal [26143; 26399; 49]%N, mk_time 0 0 0)))
            acts rows.
Proof.
  split.
  - apply (synthetic_row_width (fun _ => false) [26143; 26399; 49]%N
             [(DAY_START, DAY_END)] ([23487; 33293]%N, lit "001" ++ [26635%N])
             5 (fun _ => O)).
    + left; reflexivity.
    + lia.
    + discriminate.
  - apply (synthetic_row_width (fun _ => false) [26143; 26399; 49]%N
             [(DAY_START, DAY_END)] ([23487; 33293]%N, lit "001" ++ [26635%N])
             8 (fun _ => O)).
    + left; reflexivity.
    + lia.
Defined.

Lemma sort_determinism_witness :
  1 <= weekday_ordinal [26143; 26399; 51]%N <= 7
  /\ weekday_ordinal (lit "Monday") = 8
  /\ spec_start_time (fun _ => false) [lit "x"; lit "y"; lit "-"] = mk_time 0 0 0
  /\ spec_start_time (fun _ => false)
       [lit "x"; lit "y"; lit "[1900-01-01 08:00:00, 1900-01-01 09:35:00]"]
     = mk_time 8 0 0.
Proof.
  destruct (sort_determinism (fun _ => false) [])
    as (_ & _ & _ & Hknown & Hunknown & Hnone & Hsome).
  split; [| split; [| split]].
  - apply Hknown. vm_compute. tauto.
  - apply Hunknown. vm_compute. intuition discriminate.
  - apply Hnone. intros s e. vm_compute. discriminate.
  - apply (Hsome _ (mk_time 8 0 0) (mk_time 9 35 0)). reflexivity.
Defined.

(* ================================================================== *)
(** * Part III: further properties of the program                      *)
(* ================================================================== *)

(** ** Free slots and classes *)

Lemma free_slots_after_cursor busy : forall cursor,
  Forall (fun iv => tle cursor (fst iv)) (spec_free_slots_from cursor busy).
Proof.
  induction busy as [| b busy IH]; intros cursor; simpl.
  - destruct (time_ltb cursor DAY_END); repeat constructor. simpl. time_order.
  - apply Forall_app; split.
    + destruct (time_ltb cursor (slot_start b)); repeat constructor. simpl. time_order.
    + eapply Forall_impl; [| apply IH]. simpl. intros iv H.
      destruct (time_max_cases cursor (slot_end b)) as [[? Hm] | [? Hm]];
        rewrite Hm in H; time_order.
Qed.

Lemma cover_count_zero t l :
  Forall (fun iv => covers t iv = false) l -> cover_count t l = 0%nat.
Proof.
  induction 1 as [| iv l Hiv _ IH]; [reflexivity |].
  now rewrite cover_count_cons, Hiv, IH.
Qed.

Lemma free_slots_below_cursor busy cursor t :
  tlt t cursor -> cover_count t (spec_free_slots_from cursor busy) = 0%nat.
Proof.
  intros Ht. apply cover_count_zero.
  eapply Forall_impl; [| apply free_slots_after_cursor]. simpl.
  intros iv H. unfold covers.
  destruct (time_ltb t (fst iv)) eqn:E; [reflexivity |]. exfalso. time_order.
Qed.

(** From a cursor on, an instant before [DAY_END] lies in one free slot when
    no class still to come contains it, and in none otherwise. *)
Lemma free_complement_from busy : forall cursor t,
  StronglySorted (fun x y => tle (slot_start x) (slot_start y)) busy ->
  Forall (fun b => tle (slot_start b) (slot_end b)) busy ->
  tle cursor t -> tlt t DAY_END ->
  cover_count t (spec_free_slots_from cursor busy)
  = if existsb (covers t) (map busy_interval busy) then 0%nat else 1%nat.
Proof.
  induction busy as [| b busy IH]; intros cursor t Hsort Hwf Hc Ht.
  - simpl. unfold cover_count.
    replace (time_ltb cursor DAY_END) with true by (symmetry; time_order).
    simpl. unfold covers; simpl.
    replace (time_ltb t cursor) with false by (symmetry; time_order).
    now rewrite Ht.
  - inversion Hsort as [| ? ? Hsort' Hle]; subst.
    inversion Hwf as [| ? ? Hb Hwf']; subst.
    cbn [spec_free_slots_from map existsb]. rewrite cover_count_app.
    destruct (time_ltb t (slot_start b)) eqn:Ets.
    + (* before the class: in the slot in front of it *)
      assert (Hcs : time_ltb cursor (slot_start b) = true) by time_order.
      rewrite Hcs.
      rewrite free_slots_below_cursor.
      2:{ destruct (time_max_cases cursor (slot_end b)) as [[? ->] | [? ->]];
          time_order. }
      replace (existsb (covers t) (map busy_interval busy)) with false.
      * unfold cover_count, covers, busy_interval, slot_start in *.
        destruct b as [[s e] rb]; simpl in *.
        rewrite Ets; simpl.
        replace (time_ltb t cursor) with false by (symmetry; time_order).
        reflexivity.
      * symmetry. apply not_true_is_false. intros Hex.
        apply existsb_exists in Hex. destruct Hex as (iv & Hin & Hcov).
        apply in_map_iff in Hin. destruct Hin as (b' & <- & Hin').
        rewrite Forall_forall in Hle. specialize (Hle b' Hin').
        unfold covers, busy_interval, slot_start in *.
        destruct b' as [[s' e'] rb']; simpl in *.
        destruct (time_ltb t s') eqn:E; [discriminate |]. time_order.
    + (* at or behind the start of the class *)
      match goal with
      | |- (cover_count t ?l + _)%nat = _ => replace (cover_count t l) with 0%nat
      end.
      2:{ destruct (time_ltb cursor (slot_start b)); [| reflexivity].
          unfold cover_count, covers; simpl. rewrite Ets.
          now destruct (time_ltb t cursor). }
      destruct (time_ltb t (slot_end b)) eqn:Ete.
      * replace (covers t (busy_interval b)) with true.
        -- cbn [orb Nat.add]. apply free_slots_below_cursor.
           destruct (time_max_cases cursor (slot_end b)) as [[? ->] | [? ->]];
             time_order.
        -- unfold covers, busy_interval, slot_start, slot_end in *.
           destruct b as [[s e] rb]; simpl in *. now rewrite Ets, Ete.
      * replace (covers t (busy_interval b)) with false.
        -- cbn [orb Nat.add]. apply IH; auto.
           destruct (time_max_cases cursor (slot_end b)) as [[? ->] | [? ->]];
             time_order.
        -- unfold covers, busy_interval, slot_start, slot_end in *.
           destruct b as [[s e] rb]; simpl in *. rewrite Ete.
           now destruct (time_ltb t s).
Qed.

(** X1. Free time is the day without the classes: for classes sorted by
    start whose start does not exceed their end - they may overlap one
    another and reach outside the day - every instant of
    [[DAY_START, DAY_END)] that lies in no class lies in exactly one free
    slot, and an instant that lies in some class lies in no free slot. *)
Theorem free_slots_complement (day : pystr) (busy : list class_entry) (t : time) :
  Sorted (fun x y => tle (slot_start x) (slot_start y)) busy ->
  Forall (fun b => tle (slot_start b) (slot_end b)) busy ->
  covers t (DAY_START, DAY_END) = true ->
  cover_count t (print_free_slots day busy)
  = if existsb (covers t) (map busy_interval busy) then 0%nat else 1%nat.
Proof.
  intros Hsort Hwf Ht. rewrite print_free_slots_unfold.
  unfold covers in Ht; simpl in Ht. apply andb_true_iff in Ht.
  destruct Ht as [Ht1 Ht2]. apply negb_true_iff in Ht1.
  apply free_complement_from; auto.
  apply Sorted_StronglySorted; auto.
  intros x y z H1 H2. time_order.
Qed.

Lemma free_slots_complement_witness :
  cover_count (mk_time 9 30 0)
    (print_free_slots [] [(mk_time 8 0 0, mk_time 10 0 0, []);
                          (mk_time 9 0 0, mk_time 9 45 0, []);
                          (mk_time 14 0 0, mk_time 23 0 0, [])])
  = if existsb (covers (mk_time 9 30 0))
         (map busy_interval [(mk_time 8 0 0, mk_time 10 0 0, []);
                             (mk_time 9 0 0, mk_time 9 45 0, []);
                             (mk_time 14 0 0, mk_time 23 0 0, [])])
    then 0%nat else 1%nat.
Proof.
  apply (free_slots_complement []
           [(mk_time 8 0 0, mk_time 10 0 0, []);
            (mk_time 9 0 0, mk_time 9 45 0, []);
            (mk_time 14 0 0, mk_time 23 0 0, [])] (mk_time 9 30 0)).
  - repeat constructor.
  - repeat constructor.
  - reflexivity.
Defined.

Lemma free_disjoint_from busy t : forall cursor,
  StronglySorted (fun x y => tle (slot_start x) (slot_start y)) busy ->
  forall iv b,
    In iv (spec_free_slots_from cursor busy) -> In b busy ->
    covers t iv = true -> covers t (busy_interval b) = true -> False.
Proof.
  induction busy as [| b0 busy IH]; intros cursor Hsort iv b Hiv Hb Hci Hcb.
  - destruct Hb.
  - inversion Hsort as [| ? ? Hsort' Hle]; subst.
    rewrite Forall_forall in Hle.
    simpl in Hiv. apply in_app_or in Hiv.
    unfold covers in Hci, Hcb. apply andb_true_iff in Hci, Hcb.
    destruct Hci as [Hi1 Hi2], Hcb as [Hb1 Hb2].
    apply negb_true_iff in Hi1, Hb1.
    destruct Hiv as [Hiv | Hiv].
    + destruct (time_ltb cursor (slot_start b0)) eqn:E; [| destruct Hiv].
      destruct Hiv as [<- | []]. simpl in *.
      destruct Hb as [<- | Hb].
      * unfold busy_interval, slot_start in *. destruct b0 as [[s e] rb].
        simpl in *. time_order.
      * specialize (Hle b Hb).
        unfold busy_interval, slot_start in *. destruct b as [[s e] rb].
        simpl in *. time_order.
    + destruct Hb as [<- | Hb].
      * pose proof (free_slots_after_cursor busy (time_max cursor (slot_end b0))) as Hlo.
        rewrite Forall_forall in Hlo. specialize (Hlo iv Hiv). simpl in Hlo.
        unfold busy_interval, slot_end in *. destruct b0 as [[s e] rb].
        simpl in *.
        destruct (time_max_cases cursor e) as [[? Hm] | [? Hm]]; rewrite Hm in Hlo;
          time_order.
      * apply (IH _ Hsort' iv b Hiv Hb); unfold covers;
          apply andb_true_iff; split; auto; now apply negb_true_iff.
Qed.

(** X2. A free slot never runs into a class: when the classes are sorted by
    start, no instant lies both in a free slot of [print_free_slots] and in a
    class, whatever the classes (overlapping, reversed, outside the day). *)
Theorem free_slots_avoid_classes (day : pystr) (busy : list class_entry)
    (iv : slot) (b : class_entry) (t : time) :
  Sorted (fun x y => tle (slot_start x) (slot_start y)) busy ->
  In iv (print_free_slots day busy) -> In b busy ->
  covers t iv = true -> covers t (busy_interval b) = false.
Proof.
  intros Hsort Hiv Hb Hci.
  destruct (covers t (busy_interval b)) eqn:Hcb; [exfalso | reflexivity].
  rewrite print_free_slots_unfold in Hiv.
  apply (free_disjoint_from busy t DAY_START) with (iv := iv) (b := b); auto.
  apply Sorted_StronglySorted; auto.
  intros x y z H1 H2. time_order.
Qed.

Lemma free_slots_avoid_classes_witness :
  covers (mk_time 9 0 0)
         (busy_interval (mk_time 10 0 0, mk_time 8 30 0, [])) = false.
Proof.
  apply (free_slots_avoid_classes []
           [(mk_time 8 0 0, mk_time 8 45 0, []); (mk_time 10 0 0, mk_time 8 30 0, [])]
           (mk_time 8 45 0, mk_time 10 0 0)
           (mk_time 10 0 0, mk_time 8 30 0, []) (mk_time 9 0 0)).
  - repeat constructor.
  - right. left. reflexivity.
  - right. left. reflexivity.
  - reflexivity.
Defined.

Lemma free_slots_end_in_day busy : forall cursor,
  Forall (fun b => tle (slot_start b) DAY_END) busy ->
  Forall (fun iv => tle (snd iv) DAY_END) (spec_free_slots_from cursor busy).
Proof.
  induction busy as [| b busy IH]; intros cursor Hb; simpl.
  - destruct (time_ltb cursor DAY_END); repeat constructor.
  - inversion Hb as [| ? ? Hb0 Hb']; subst.
    apply Forall_app; split; [| now apply IH].
    destruct (time_ltb cursor (slot_start b)); constructor; auto.
Qed.

Lemma free_slots_count busy : forall cursor,
  (length (spec_free_slots_from cursor busy) <= S (length busy))%nat.
Proof.
  induction busy as [| b busy IH]; intros cursor; cbn [spec_free_slots_from].
  - destruct (time_ltb cursor DAY_END); simpl; lia.
  - rewrite length_app. specialize (IH (time_max cursor (slot_end b))).
    change (list (time * time)) with (list slot) in *.
    destruct (time_ltb cursor (slot_start b)); cbn [length];
      unfold slot in *; lia.
Qed.

(** X3. Where the free slots lie: [print_free_slots] returns at most one
    free slot more than there are classes; every free slot starts at or
    after [DAY_START]; when no class starts after [DAY_END], every free slot
    ends at or before [DAY_END]; and when every class has its start at or
    before its end, the free slots come out in time order, each ending at or
    before the start of the next. A lone class that starts after [DAY_END]
    makes the free slot run past the end of the day, up to that start. *)
Theorem free_slots_bounds (day : pystr) (busy : list class_entry) :
  (length (print_free_slots day busy) <= S (length busy))%nat
  /\ Forall (fun iv => tle DAY_START (fst iv)) (print_free_slots day busy)
  /\ (Forall (fun b => tle (slot_start b) DAY_END) busy ->
      Forall (fun iv => tle (snd iv) DAY_END) (print_free_slots day busy))
  /\ (Forall (fun b => tle (slot_start b) (slot_end b)) busy ->
      StronglySorted (fun x y => tle (snd x) (fst y)) (print_free_slots day busy))
  /\ (forall s e rw, tlt DAY_END s -> tle s e ->
      print_free_slots day [(s, e, rw)] = [(DAY_START, s)]).
Proof.
  rewrite print_free_slots_unfold. unfold spec_free_slots.
  split; [apply free_slots_count |].
  split; [apply free_slots_after_cursor |].
  split; [apply free_slots_end_in_day |].
  split; [intros Hwf; now apply free_slots_ordered |].
  intros s e rw Hs Hse. rewrite print_free_slots_unfold.
  unfold spec_free_slots; simpl. unfold slot_start, slot_end; simpl.
  assert (H0 : tlt DAY_START DAY_END) by reflexivity.
  replace (time_ltb DAY_START s) with true by (symmetry; time_order).
  destruct (time_max_cases DAY_START e) as [[? ->] | [? ->]].
  - replace (time_ltb e DAY_END) with false by (symmetry; time_order). reflexivity.
  - exfalso. time_order.
Qed.

Lemma free_slots_bounds_witness :
  Forall (fun iv => tle (snd iv) DAY_END)
         (print_free_slots [] [(mk_time 6 0 0, mk_time 8 0 0, []);
                               (mk_time 21 0 0, mk_time 23 0 0, [])])
  /\ StronglySorted (fun x y => tle (snd x) (fst y))
       (print_free_slots [] [(mk_time 6 0 0, mk_time 8 0 0, []);
                             (mk_time 21 0 0, mk_time 23 0 0, [])])
  /\ print_free_slots [] [(mk_time 22 30 0, mk_time 23 0 0, [])]
     = [(DAY_START, mk_time 22 30 0)].
Proof.
  split; [| split].
  - apply (free_slots_bounds [] [(mk_time 6 0 0, mk_time 8 0 0, []);
                                 (mk_time 21 0 0, mk_time 23 0 0, [])]).
    repeat constructor.
  - apply (free_slots_bounds [] [(mk_time 6 0 0, mk_time 8 0 0, []);
                                 (mk_time 21 0 0, mk_time 23 0 0, [])]).
    repeat constructor.
  - apply (free_slots_bounds [] []); reflexivity.
Defined.

(** ** More on the records of the gap filler *)

Lemma gap_filler_coverage_multi_witness :
  exists acts r',
    fill_calls [(mk_time 7 0 0, mk_time 9 0 0); (mk_time 10 35 0, mk_time 22 0 0)]
               ([], []) (fun _ => O) = Ok (acts, r')
    /\ (exists pieces,
          map act_interval acts = concat pieces
          /\ Forall2 (fun sl piece => chain (fst sl) (snd sl) piece)
               [(mk_time 7 0 0, mk_time 9 0 0); (mk_time 10 35 0, mk_time 22 0 0)]
               pieces)
    /\ cover_count (mk_time 18 0 0) (map act_interval acts)
       = cover_count (mk_time 18 0 0)
           [(mk_time 7 0 0, mk_time 9 0 0); (mk_time 10 35 0, mk_time 22 0 0)].
Proof.
  destruct (gap_filler_coverage_multi
              [(mk_time 7 0 0, mk_time 9 0 0); (mk_time 10 35 0, mk_time 22 0 0)]
              ([], []) (fun _ => O))
    as (acts & r' & H1 & H2 & H3).
  - simpl. lia.
  - repeat constructor; simpl; lia.
  - repeat constructor.
  - exists acts, r'. split; [exact H1 |]. split; [exact H2 | apply H3].
Defined.

Lemma day_free_time_covered_witness :
  exists acts r',
    fill_calls (print_free_slots [] [(mk_time 9 0 0, mk_time 10 35 0, [])])
               ([], []) (fun _ => O) = Ok (acts, r')
    /\ cover_count (mk_time 12 0 0) (map act_interval acts)
       = cover_count (mk_time 12 0 0)
           (print_free_slots [] [(mk_time 9 0 0, mk_time 10 35 0, [])]).
Proof.
  destruct (day_free_time_covered [] [(mk_time 9 0 0, mk_time 10 35 0, [])]
              ([], []) (fun _ => O))
    as (acts & r' & H1 & H2).
  - repeat constructor; simpl; lia.
  - simpl. lia.
  - exists acts, r'. split; [exact H1 | apply H2].
Defined.

Lemma plan_around_places meal rest_name rest_place ws we sl :
  label_place meal Canteen -> label_place rest_name rest_place ->
  Forall (fun p => label_place (plan_name p) (plan_place p))
         (plan_around meal rest_name rest_place ws we sl).
Proof.
  intros Hm Hr. destruct sl as [s e]. unfold plan_around.
  destruct (time_ltb (time_max s ws) (time_min e we)).
  - apply Forall_app; split; [| apply Forall_app; split].
    + destruct (time_ltb s (time_max s ws)); constructor; [reflexivity | constructor].
    + constructor; [exact Hm | constructor].
    + destruct (time_ltb _ e); constructor; [exact Hr | constructor].
  - destruct (time_ltb s e); constructor; [exact Hr | constructor].
Qed.

Lemma plan_interiors_places l : forall ate,
  Forall (fun p => label_place (plan_name p) (plan_place p)) (plan_interiors ate l).
Proof.
  induction l as [| sl l IH]; intros ate; simpl; [constructor |].
  apply Forall_app; split; [| apply IH].
  unfold plan_interior. destruct (negb ate && lunch_overlap sl); cbn [fst].
  - apply plan_around_places; simpl; auto.
  - unfold plan_whole.
    destruct (time_ltb (fst sl) (snd sl)); constructor; [reflexivity | constructor].
Qed.

Lemma fill_plan_places slots :
  Forall (fun p => label_place (plan_name p) (plan_place p)) (fill_plan slots).
Proof.
  destruct slots as [| first [| sl2 rest]]; simpl.
  - constructor.
  - constructor; [simpl; auto |]. constructor; [simpl; auto | constructor].
  - constructor; [simpl; auto |].
    apply Forall_app; split; [apply plan_interiors_places |].
    apply plan_around_places; simpl; auto.
Qed.

(** X4. Who goes where: the run of [create_new_row] calls that
    [fill_free_time] makes is defined for every list of free slots, and each
    record it asks for is of one of three kinds - waking, resting and the
    evening at the home dormitory that was passed in; studying in one of the
    four libraries; lunch and dinner in one of the ten canteens. *)
Theorem records_have_their_place (slots : list slot) (home : location) (r : rng) :
  exists acts r',
    fill_calls slots home r = Ok (acts, r')
    /\ Forall
         (fun a =>
            (In (act_name a) [WAKE; REST; EVENING] /\ act_loc a = home)
            \/ (act_name a = STUDY /\ In (act_loc a) LIBRARIES)
            \/ (In (act_name a) [LUNCH; DINNER] /\ In (act_loc a) CANTEENS))
         acts.
Proof.
  destruct (realise_total home (fill_plan slots) r) as (acts & r' & Hr & Hall).
  exists acts, r'. rewrite fill_calls_plan. split; [exact Hr |].
  pose proof (fill_plan_places slots) as Hpl. clear Hr.
  revert Hpl. generalize dependent (fill_plan slots). intros plan Hall.
  induction Hall as [| p a plan acts (Hn & _ & Hl) _ IH]; intros Hpl; constructor.
  - inversion Hpl as [| ? ? Hp _]; subst. rewrite Hn.
    unfold label_place in Hp. destruct (plan_place p).
    + left. split; [| assumption].
      destruct Hp as [-> | [-> | ->]]; simpl; auto.
    + right; left. auto.
    + right; right. split; [| assumption].
      destruct Hp as [-> | ->]; simpl; auto.
  - apply IH. now inversion Hpl.
Qed.

(** A row around a meal window is a study row, a row named [rest_name], or
    the meal, and then within the window and of an hour at most. *)
Lemma plan_around_items meal rest_name rest_place ws we s e :
  time_valid s -> time_valid e -> time_valid ws -> time_valid we ->
  Forall (fun p => plan_name p = STUDY \/ plan_name p = rest_name
                   \/ (plan_name p = meal /\ meal_within ws we (plan_interval p)))
         (plan_around meal rest_name rest_place ws we (s, e)).
Proof.
  intros Hs He Hws Hwe. unfold plan_around.
  destruct (time_ltb (time_max s ws) (time_min e we)) eqn:Hov.
  - destruct (capped_meal_end_spec (time_max s ws) (time_min e we))
      as (Hc & Hdur & Hlt & Hle); auto with times.
    assert (Hpos : 0 < seconds_between (time_max s ws) (time_min e we)).
    { unfold seconds_between.
      apply (tlt_seconds (time_max s ws) (time_min e we)) in Hov;
        auto with times. lia. }
    apply Forall_app; split; [| apply Forall_app; split].
    + destruct (time_ltb s (time_max s ws)); constructor; [| constructor].
      left. reflexivity.
    + constructor; [| constructor]. right; right. split; [reflexivity |].
      unfold meal_within, plan_interval. cbn [fst snd]. rewrite Hdur.
      split; [| split; [| lia]].
      * destruct (time_max_cases s ws) as [[? ->] | [? ->]]; time_order.
      * assert (Hoe : tle (time_min e we) we)
          by (destruct (time_min_cases e we) as [[? ->] | [? ->]]; time_order).
        time_order.
    + destruct (time_ltb _ e); constructor; [| constructor].
      right; left. reflexivity.
  - destruct (time_ltb s e); constructor; [| constructor].
    right; left. reflexivity.
Qed.

Lemma plan_interiors_meals l : forall ate,
  Forall slot_valid l -> Forall meals_in_windows (plan_interiors ate l).
Proof.
  induction l as [| [s e] l IH]; intros ate Hl; simpl; [constructor |].
  inversion Hl as [| ? ? [Hs He] Hl']; subst.
  apply Forall_app; split; [| now apply IH].
  unfold plan_interior. destruct (negb ate && lunch_overlap (s, e)); cbn [fst].
  - eapply Forall_impl;
      [| apply (plan_around_items LUNCH STUDY Library LUNCH_START LUNCH_END s e);
         auto with times].
    intros p [Hp | [Hp | [Hp Hw]]]; split; intros Hn; rewrite Hn in Hp;
      try discriminate Hp; exact Hw.
  - unfold plan_whole. cbn [fst snd].
    destruct (time_ltb s e); constructor; [| constructor].
    split; intros Hn; discriminate Hn.
Qed.

Lemma fill_plan_meals slots :
  Forall slot_valid slots -> Forall meals_in_windows (fill_plan slots).
Proof.
  intros Hv. destruct slots as [| first [| sl2 rest]]; unfold fill_plan.
  - constructor.
  - constructor; [split; intros Hn; discriminate Hn |].
    constructor; [split; intros Hn; discriminate Hn | constructor].
  - inversion Hv as [| ? ? _ Hv']; subst.
    assert (Hrest : sl2 :: rest
                    = removelast (sl2 :: rest) ++ [last (sl2 :: rest) first])
      by (apply app_removelast_last; discriminate).
    set (mid := removelast (sl2 :: rest)) in *.
    set (lst := last (sl2 :: rest) first) in *.
    rewrite Hrest in Hv'. apply Forall_app in Hv'. destruct Hv' as [Hmid Hlast].
    constructor; [split; intros Hn; discriminate Hn |].
    apply Forall_app; split; [now apply plan_interiors_meals |].
    inversion Hlast as [| ? ? [Hs He] _]; subst.
    destruct lst as [ls le].
    unfold plan_last.
    eapply Forall_impl;
      [| apply (plan_around_items DINNER EVENING Home DINNER_START DINNER_END ls le);
         auto with times].
    intros p [Hp | [Hp | [Hp Hw]]]; split; intros Hn; rewrite Hn in Hp;
      try discriminate Hp; exact Hw.
Qed.

(** X5. Meals keep to their window: for free slots of valid times, every
    lunch record that [fill_free_time] asks its row builder for lies within
    11:30-13:30 and every dinner record within 17:30-19:00, and each lasts
    more than nothing and one hour at most. *)
Theorem meals_keep_to_their_window (slots : list slot) (home : location) (r : rng) :
  Forall slot_valid slots ->
  exists acts r',
    fill_calls slots home r = Ok (acts, r')
    /\ Forall
         (fun a =>
            (act_name a = LUNCH ->
             meal_within LUNCH_START LUNCH_END (act_interval a))
            /\ (act_name a = DINNER ->
                meal_within DINNER_START DINNER_END (act_interval a)))
         acts.
Proof.
  intros Hv.
  destruct (realise_total home (fill_plan slots) r) as (acts & r' & Hr & Hall).
  exists acts, r'. rewrite fill_calls_plan. split; [exact Hr |].
  pose proof (fill_plan_meals slots Hv) as Hpl. clear Hr.
  revert Hpl. generalize dependent (fill_plan slots). intros plan Hall.
  induction Hall as [| p a plan acts (Hn & Hi & _) _ IH]; intros Hpl; constructor.
  - inversion Hpl as [| ? ? Hp _]; subst. rewrite Hn, Hi. exact Hp.
  - apply IH. now inversion Hpl.
Qed.

Lemma meals_keep_to_their_window_witness :
  exists acts r',
    fill_calls [(mk_time 7 0 0, mk_time 9 0 0); (mk_time 12 45 0, mk_time 13 10 0);
                (mk_time 18 40 0, mk_time 22 0 0)] ([], []) (fun _ => O)
    = Ok (acts, r')
    /\ Forall
         (fun a =>
            (act_name a = LUNCH ->
             meal_within LUNCH_START LUNCH_END (act_interval a))
            /\ (act_name a = DINNER ->
                meal_within DINNER_START DINNER_END (act_interval a)))
         acts.
Proof.
  apply (meals_keep_to_their_window
           [(mk_time 7 0 0, mk_time 9 0 0); (mk_time 12 45 0, mk_time 13 10 0);
            (mk_time 18 40 0, mk_time 22 0 0)] ([], []) (fun _ => O)).
  repeat constructor; simpl; lia.
Defined.

Lemma plan_interiors_no_overlap slots :
  Forall (fun sl => lunch_overlap sl = false) slots ->
  plan_interiors false slots = study_only slots.
Proof.
  induction 1 as [| sl slots Hsl Hall IH]; simpl; [reflexivity |].
  unfold plan_interior. rewrite Hsl. simpl. now rewrite IH.
Qed.

Lemma carried_out_nil home acts : Forall2 (carries_out home) [] acts -> acts = [].
Proof. now inversion 1. Qed.

Lemma dinner_rows_of_plan slots :
  (length (filter (named DINNER) (fill_plan slots)) <= 1)%nat
  /\ ((length slots < 2)%nat -> filter (named DINNER) (fill_plan slots) = []).
Proof.
  destruct slots as [| first [| sl2 rest]].
  - split; [simpl; lia | reflexivity].
  - split; [simpl; lia | reflexivity].
  - split; [| simpl; lia].
    rewrite (dinner_in_plan first (sl2 :: rest)) by discriminate.
    unfold plan_last. rewrite named_plan_around by reflexivity.
    destruct (time_ltb _ _); simpl; lia.
Qed.

(** X6. When there is a meal: the records that [fill_free_time] asks its row
    builder for start with the wake record at the home dormitory over the
    whole first free slot, whatever that slot overlaps; there is no lunch
    record unless some free slot strictly between the first and the last
    overlaps the lunch window - so never with fewer than three free slots;
    there is at most one dinner record, and none with fewer than two free
    slots. *)
Theorem meals_need_room (slots : list slot) (home : location) (r : rng) :
  exists acts r',
    fill_calls slots home r = Ok (acts, r')
    /\ (forall first rest, slots = first :: rest ->
        exists tail, acts = mk_activity WAKE home (fst first) (snd first) :: tail)
    /\ (Forall (fun sl => lunch_overlap sl = false) (interior slots) ->
        filter (is_named LUNCH) acts = [])
    /\ ((length slots < 3)%nat -> filter (is_named LUNCH) acts = [])
    /\ (length (filter (is_named DINNER) acts) <= 1)%nat
    /\ ((length slots < 2)%nat -> filter (is_named DINNER) acts = []).
Proof.
  destruct (realise_total home (fill_plan slots) r) as (acts & r' & Hr & Hall).
  exists acts, r'. rewrite fill_calls_plan. split; [exact Hr |].
  pose proof (carries_out_filter home LUNCH _ _ Hall) as Hlunch.
  pose proof (carries_out_filter home DINNER _ _ Hall) as Hdinner.
  assert (Hnone : Forall (fun sl => lunch_overlap sl = false) (interior slots) ->
                  filter (is_named LUNCH) acts = []).
  { intros Hno. rewrite lunch_in_plan in Hlunch.
    unfold interior in Hno. rewrite (plan_interiors_no_overlap _ Hno) in Hlunch.
    rewrite named_study_only in Hlunch by reflexivity.
    now apply carried_out_nil in Hlunch. }
  split; [| split; [exact Hnone | split; [| split]]].
  - intros first rest ->.
    assert (Hhead : exists ptail,
              fill_plan (first :: rest) = (WAKE, Home, first) :: ptail)
      by (destruct rest; simpl; eauto).
    destruct Hhead as (ptail & Hhead). rewrite Hhead in Hall.
    inversion Hall as [| ? a ? tail (Hn & Hi & Hl) _]; subst.
    exists tail. destruct a as [an al as_ ae].
    unfold act_interval, plan_name, plan_interval, plan_place in *; simpl in *.
    destruct first as [fs fe]. injection Hi as -> ->. now subst.
  - intros Hlen. apply Hnone.
    destruct slots as [| s1 [| s2 [| s3 rest]]]; simpl in *; try constructor; lia.
  - rewrite <- (Forall2_length Hdinner). apply dinner_rows_of_plan.
  - intros Hlen. rewrite (proj2 (dinner_rows_of_plan slots) Hlen) in Hdinner.
    now apply carried_out_nil in Hdinner.
Qed.

Lemma meals_need_room_witness :
  exists acts r',
    fill_calls [(mk_time 7 0 0, mk_time 14 0 0); (mk_time 15 35 0, mk_time 22 0 0)]
               ([], []) (fun _ => O) = Ok (acts, r')
    /\ (exists tail,
          acts = mk_activity WAKE ([], []) (mk_time 7 0 0) (mk_time 14 0 0) :: tail)
    /\ filter (is_named LUNCH) acts = []
    /\ (length (filter (is_named DINNER) acts) <= 1)%nat.
Proof.
  destruct (meals_need_room
              [(mk_time 7 0 0, mk_time 14 0 0); (mk_time 15 35 0, mk_time 22 0 0)]
              ([], []) (fun _ => O))
    as (acts & r' & H1 & H2 & H3 & H4 & H5 & _).
  exists acts, r'. split; [exact H1 |]. split; [| split].
  - apply (H2 (mk_time 7 0 0, mk_time 14 0 0) [(mk_time 15 35 0, mk_time 22 0 0)]).
    reflexivity.
  - apply H4. simpl. lia.
  - exact H5.
Defined.

(** ** Interval strings *)

Section IntervalStrings.

Variable uni_decimal : pychar -> bool.

Lemma match_hms_no_colon c0 c1 c2 rest :
  c2 <> colon -> match_hms uni_decimal (c0 :: c1 :: c2 :: rest) = None.
Proof.
  intros Hc. unfold match_hms.
  destruct rest as [| c3 [| c4 [| c5 [| c6 [| c7 rest]]]]]; try reflexivity.
  replace (c2 =? colon)%N with false by (symmetry; now apply N.eqb_neq).
  now rewrite andb_false_r.
Qed.

(** Text without a colon in front of the bracket holds no match and hides
    none. *)
Lemma findall_skips_prefix prefix rest :
  Forall (fun c => c <> colon) prefix ->
  findall_from uni_decimal 0 (prefix ++ lit "[1" ++ rest)
  = findall_from uni_decimal 0 (lit "[1" ++ rest).
Proof.
  induction 1 as [| c prefix Hc Hall IH]; [reflexivity |].
  cbn [app findall_from].
  replace (match_hms uni_decimal (c :: prefix ++ lit "[1" ++ rest)) with (@None pystr).
  - exact IH.
  - symmetry. destruct prefix as [| c1 [| c2 prefix]].
    + apply match_hms_no_colon. discriminate.
    + apply match_hms_no_colon. discriminate.
    + inversion Hall as [| ? ? _ Hall']; subst.
      inversion Hall' as [| ? ? Hc2 _]; subst.
      now apply match_hms_no_colon.
Qed.

(** X7. Round trip of the interval string: the parser reads back the two
    times that [format_time_range] wrote, for all valid times of day, also
    behind any text without a colon, as the room number in front of the
    bracket in the rows of the input. *)
Theorem time_range_round_trip (prefix : pystr) (a b : time) :
  Forall (fun c => c <> colon) prefix ->
  time_valid a -> time_valid b ->
  parse_start_end_from_string uni_decimal (prefix ++ format_time_range a b)
  = Ok (Some a, Some b).
Proof.
  intros Hp Ha Hb.
  assert (Hfind : re_findall uni_decimal (prefix ++ format_time_range a b)
                  = [time_isoformat a; time_isoformat b]).
  { rewrite <- (findall_format_time_range uni_decimal a b Ha Hb).
    unfold re_findall.
    change (format_time_range a b)
      with (lit "[1" ++ tl (tl (format_time_range a b))).
    now apply findall_skips_prefix. }
  rewrite (parse_two_matches uni_decimal _ _ _ Hfind).
  rewrite (proj2 (time_fromisoformat_ok _ a)) by auto.
  rewrite (proj2 (time_fromisoformat_ok _ b)) by auto.
  reflexivity.
Qed.

End IntervalStrings.

Lemma time_range_round_trip_witness :
  parse_start_end_from_string (fun _ => false)
    (lit "104 " ++ format_time_range (mk_time 8 0 0) (mk_time 9 35 0))
  = Ok (Some (mk_time 8 0 0), Some (mk_time 9 35 0)).
Proof.
  apply (time_range_round_trip (fun _ => false) (lit "104 ")
           (mk_time 8 0 0) (mk_time 9 35 0)).
  - repeat constructor; discriminate.
  - unfold time_valid; simpl; lia.
  - unfold time_valid; simpl; lia.
Defined.

(** ** The sort key of a synthetic row on nine columns *)

Lemma plan_around_valid meal rest_name rest_place ws we s e :
  time_valid s -> time_valid e -> time_valid ws -> time_valid we ->
  Forall (fun p => slot_valid (plan_interval p))
         (plan_around meal rest_name rest_place ws we (s, e)).
Proof.
  intros Hs He Hws Hwe. unfold plan_around.
  destruct (time_ltb (time_max s ws) (time_min e we)) eqn:Hov.
  - destruct (capped_meal_end_spec (time_max s ws) (time_min e we))
      as (Hc & _); auto with times.
    apply Forall_app; split; [| apply Forall_app; split].
    + destruct (time_ltb s (time_max s ws)); constructor; [| constructor].
      split; simpl; auto with times.
    + constructor; [| constructor]. split; simpl; auto with times.
    + destruct (time_ltb _ e); constructor; [| constructor].
      split; simpl; auto.
  - destruct (time_ltb s e); constructor; [| constructor]. split; simpl; auto.
Qed.

Lemma plan_interiors_valid l : forall ate,
  Forall slot_valid l ->
  Forall (fun p => slot_valid (plan_interval p)) (plan_interiors ate l).
Proof.
  induction l as [| [s e] l IH]; intros ate Hl; simpl; [constructor |].
  inversion Hl as [| ? ? [Hs He] Hl']; subst.
  apply Forall_app; split; [| now apply IH].
  unfold plan_interior. destruct (negb ate && lunch_overlap (s, e)); cbn [fst].
  - apply plan_around_valid; auto with times.
  - unfold plan_whole. cbn [fst snd].
    destruct (time_ltb s e); constructor; [| constructor]. split; simpl; auto.
Qed.

Lemma fill_plan_valid slots :
  Forall slot_valid slots ->
  Forall (fun p => slot_valid (plan_interval p)) (fill_plan slots).
Proof.
  intros Hv. destruct slots as [| first [| sl2 rest]]; unfold fill_plan.
  - constructor.
  - inversion Hv as [| ? ? Hfirst _]; subst.
    constructor; [exact Hfirst |]. constructor; [exact Hfirst | constructor].
  - inversion Hv as [| ? ? Hfirst Hv']; subst.
    assert (Hrest : sl2 :: rest
                    = removelast (sl2 :: rest) ++ [last (sl2 :: rest) first])
      by (apply app_removelast_last; discriminate).
    set (mid := removelast (sl2 :: rest)) in *.
    set (lst := last (sl2 :: rest) first) in *.
    rewrite Hrest in Hv'. apply Forall_app in Hv'. destruct Hv' as [Hmid Hlast].
    constructor; [exact Hfirst |].
    apply Forall_app; split; [now apply plan_interiors_valid |].
    inversion Hlast as [| ? ? [Hs He] _]; subst.
    destruct lst as [ls le]. unfold plan_last.
    apply plan_around_valid; auto with times.
Qed.

Section NineColumns.

Variable uni_decimal : pychar -> bool.

(** X8. On a header of nine columns the synthetic rows sort by their start:
    for free slots of valid times, every row that [fill_free_time] returns
    ends with its interval string, the parser reads the interval of the
    record back from it, and the key of the final sort for the row is the
    ordinal of its day with the start time of the record. *)
Theorem nine_column_rows_sort_by_start (day : pystr) (slots : list slot)
    (home : location) (r : rng) :
  Forall slot_valid slots ->
  exists acts rows r',
    fill_calls slots home r = Ok (acts, r')
    /\ fill_free_time day slots home 9 r = Ok (rows, r')
    /\ Forall2
         (fun a row =>
            last row [] = format_time_range (act_start a) (act_end a)
            /\ parse_start_end_from_string uni_decimal (last row [])
               = Ok (Some (act_start a), Some (act_end a))
            /\ get_sort_key uni_decimal row
               = Ok (weekday_ordinal day, act_start a))
         acts rows.
Proof.
  intros Hv.
  destruct (realise_total home (fill_plan slots) r) as (acts & r' & Hr & Hall).
  exists acts, (map (render day 9) acts), r'.
  rewrite fill_free_time_rows, fill_calls_plan, Hr by lia.
  split; [reflexivity |]. split; [reflexivity |].
  assert (Hvalid : Forall (fun a => slot_valid (act_interval a)) acts).
  { pose proof (fill_plan_valid slots Hv) as Hpl. clear Hr.
    revert Hpl. generalize dependent (fill_plan slots). intros plan Hall.
    induction Hall as [| p a plan acts (_ & Hi & _) _ IH]; intros Hpl; constructor.
    - inversion Hpl; subst. now rewrite Hi.
    - apply IH. now inversion Hpl. }
  clear Hr Hall. induction Hvalid as [| a acts [Ha Hb] _ IH]; simpl; constructor; auto.
  assert (Hparse : parse_start_end_from_string uni_decimal
                     (format_time_range (act_start a) (act_end a))
                   = Ok (Some (act_start a), Some (act_end a)))
    by (apply parse_format_time_range; assumption).
  rewrite render_wide by lia. simpl repeat. rewrite app_nil_r. cbn [last].
  split; [reflexivity |]. split; [exact Hparse |].
  rewrite get_sort_key_spec. unfold spec_sort_key, spec_weekday, spec_start_time.
  cbn [nth_error last]. now rewrite Hparse.
Qed.

End NineColumns.

Lemma nine_column_rows_sort_by_start_witness :
  exists acts rows r',
    fill_calls [(mk_time 7 0 0, mk_time 9 0 0); (mk_time 10 35 0, mk_time 22 0 0)]
               ([], []) (fun _ => O) = Ok (acts, r')
    /\ fill_free_time [26143; 26399; 50]%N
         [(mk_time 7 0 0, mk_time 9 0 0); (mk_time 10 35 0, mk_time 22 0 0)]
         ([], []) 9 (fun _ => O) = Ok (rows, r')
    /\ Forall2
         (fun a row =>
            last row [] = format_time_range (act_start a) (act_end a)
            /\ parse_start_end_from_string (fun _ => false) (last row [])
               = Ok (Some (act_start a), Some (act_end a))
            /\ get_sort_key (fun _ => false) row
               = Ok (weekday_ordinal [26143; 26399; 50]%N, act_start a))
         acts rows.
Proof.
  apply (nine_column_rows_sort_by_start (fun _ => false) [26143; 26399; 50]%N
           [(mk_time 7 0 0, mk_time 9 0 0); (mk_time 10 35 0, mk_time 22 0 0)]
           ([], []) (fun _ => O)).
  repeat constructor; simpl; lia.
Defined.

(** ** The schedule as a dictionary *)

Lemma pystr_eqb_eq a b : pystr_eqb a b = true <-> a = b.
Proof.
  unfold pystr_eqb. destruct (list_eq_dec N.eq_dec a b); split; congruence.
Qed.

Lemma pystr_eqb_neq a b : pystr_eqb a b = false <-> a <> b.
Proof.
  unfold pystr_eqb. destruct (list_eq_dec N.eq_dec a b); split; congruence.
Qed.

Lemma schedule_append_keys sch day entry :
  map fst (schedule_append sch day entry)
  = if existsb (fun k => pystr_eqb k day) (map fst sch)
    then map fst sch else map fst sch ++ [day].
Proof.
  induction sch as [| [k classes] sch IH]; simpl; [reflexivity |].
  destruct (pystr_eqb k day); simpl; [reflexivity |].
  rewrite IH. now destruct (existsb _ _).
Qed.

Lemma schedule_append_NoDup sch day entry :
  NoDup (map fst sch) -> NoDup (map fst (schedule_append sch day entry)).
Proof.
  intros Hnd. rewrite schedule_append_keys.
  destruct (existsb (fun k => pystr_eqb k day) (map fst sch)) eqn:E; [assumption |].
  apply NoDup_app; auto.
  - repeat constructor. intros [].
  - intros k Hk [Heq | []]. subst k.
    assert (Hex : existsb (fun k' => pystr_eqb k' day) (map fst sch) = true).
    { apply existsb_exists. exists day. split; [assumption | now apply pystr_eqb_eq]. }
    congruence.
Qed.

Lemma schedule_append_entries sch day entry :
  Permutation (schedule_entries (schedule_append sch day entry))
              (schedule_entries sch ++ [(day, entry)]).
Proof.
  induction sch as [| [k classes] sch IH]; simpl; [reflexivity |].
  destruct (pystr_eqb k day) eqn:E; unfold schedule_entries in *; simpl.
  - apply pystr_eqb_eq in E. subst k.
    rewrite map_app, <- !app_assoc. apply Permutation_app_head.
    apply Permutation_app_comm.
  - rewrite <- app_assoc. now apply Permutation_app_head.
Qed.

Lemma schedule_append_get sch day entry d :
  schedule_get (schedule_append sch day entry) d
  = if pystr_eqb day d then schedule_get sch d ++ [entry] else schedule_get sch d.
Proof.
  induction sch as [| [k classes] sch IH]; simpl.
  - destruct (pystr_eqb day d); reflexivity.
  - destruct (pystr_eqb k day) eqn:E; simpl.
    + apply pystr_eqb_eq in E. subst k. now destruct (pystr_eqb day d).
    + destruct (pystr_eqb k d) eqn:E'; [| exact IH].
      apply pystr_eqb_eq in E'. subst k.
      replace (pystr_eqb day d) with false; [reflexivity |].
      symmetry. apply pystr_eqb_neq. apply pystr_eqb_neq in E. congruence.
Qed.

Lemma append_entries_NoDup entries : forall sch,
  NoDup (map fst sch) -> NoDup (map fst (append_entries sch entries)).
Proof.
  induction entries as [| x entries IH]; intros sch Hnd; simpl; auto.
  apply IH. now apply schedule_append_NoDup.
Qed.

Lemma append_entries_perm entries : forall sch,
  Permutation (schedule_entries (append_entries sch entries))
              (schedule_entries sch ++ entries).
Proof.
  induction entries as [| [day entry] entries IH]; intros sch; simpl.
  - now rewrite app_nil_r.
  - rewrite IH, schedule_append_entries, <- app_assoc. reflexivity.
Qed.

(** Within a day, the entries keep the order in which they were appended. *)
Lemma append_entries_get entries d : forall sch,
  schedule_get (append_entries sch entries) d
  = schedule_get sch d
    ++ map snd (filter (fun x => pystr_eqb (fst x) d) entries).
Proof.
  induction entries as [| [day entry] entries IH]; intros sch; simpl.
  - now rewrite app_nil_r.
  - rewrite IH, schedule_append_get.
    destruct (pystr_eqb day d); simpl; [now rewrite <- app_assoc | reflexivity].
Qed.

Lemma schedule_get_in sch day classes :
  NoDup (map fst sch) -> In (day, classes) sch -> schedule_get sch day = classes.
Proof.
  induction sch as [| [k cl] sch IH]; simpl; [tauto |].
  intros Hnd [Heq | Hin].
  - injection Heq as -> ->.
    now rewrite (proj2 (pystr_eqb_eq day day) eq_refl).
  - inversion Hnd as [| ? ? Hk Hnd']; subst.
    destruct (pystr_eqb k day) eqn:E; [| now apply IH].
    apply pystr_eqb_eq in E. subst k. exfalso. apply Hk.
    apply in_map_iff. exists (day, classes). auto.
Qed.

Lemma insert_class_perm x l : Permutation (x :: l) (insert_class x l).
Proof.
  induction l as [| y l IH]; simpl; auto.
  destruct (time_ltb (fst (fst y)) (fst (fst x))); auto.
  rewrite perm_swap. now constructor.
Qed.

Lemma sort_classes_perm l : Permutation l (sort_classes l).
Proof.
  induction l as [| x l IH]; simpl; auto.
  rewrite <- insert_class_perm. now constructor.
Qed.

Lemma insert_class_sorted x l :
  StronglySorted (fun a b => tle (slot_start a) (slot_start b)) l ->
  StronglySorted (fun a b => tle (slot_start a) (slot_start b)) (insert_class x l).
Proof.
  induction 1 as [| y l Hs IH Hy]; simpl.
  - repeat constructor.
  - fold (slot_start y). fold (slot_start x).
    destruct (time_ltb (slot_start y) (slot_start x)) eqn:E.
    + constructor; auto.
      rewrite <- insert_class_perm. constructor; auto. time_order.
    + constructor; [now constructor |].
      constructor; auto.
      eapply Forall_impl; [| exact Hy]. simpl; intros. time_order.
Qed.

Lemma sort_classes_sorted l :
  StronglySorted (fun a b => tle (slot_start a) (slot_start b)) (sort_classes l).
Proof.
  induction l; simpl; [constructor | now apply insert_class_sorted].
Qed.

Lemma schedule_append_nonempty sch day entry :
  Forall (fun dc : pystr * list class_entry => snd dc <> []) sch ->
  Forall (fun dc : pystr * list class_entry => snd dc <> [])
         (schedule_append sch day entry).
Proof.
  induction 1 as [| [k classes] sch Hk Hs IH]; simpl.
  - constructor; [discriminate | constructor].
  - destruct (pystr_eqb k day); constructor; auto.
    simpl. now destruct classes.
Qed.

Lemma append_entries_nonempty entries : forall sch,
  Forall (fun dc : pystr * list class_entry => snd dc <> []) sch ->
  Forall (fun dc : pystr * list class_entry => snd dc <> [])
         (append_entries sch entries).
Proof.
  induction entries as [| x entries IH]; intros sch H; simpl; auto.
  apply IH. now apply schedule_append_nonempty.
Qed.

Lemma append_entries_app sch es1 es2 :
  append_entries sch (es1 ++ es2) = append_entries (append_entries sch es1) es2.
Proof. apply fold_left_app. Qed.

Lemma schedule_rows_entries sch :
  schedule_rows sch = map (fun x => snd (snd x)) (schedule_entries sch).
Proof.
  unfold schedule_rows, schedule_entries.
  induction sch as [| [k classes] sch IH]; simpl; [reflexivity |].
  rewrite map_app, map_map, IH. reflexivity.
Qed.

Lemma schedule_get_sorted sch day :
  schedule_get (map (fun dc => (fst dc, sort_classes (snd dc))) sch) day
  = sort_classes (schedule_get sch day).
Proof.
  induction sch as [| [k classes] sch IH]; simpl; [reflexivity |].
  now destruct (pystr_eqb k day).
Qed.

Lemma schedule_rows_sorted sch :
  Permutation (schedule_rows (map (fun dc => (fst dc, sort_classes (snd dc))) sch))
              (schedule_rows sch).
Proof.
  unfold schedule_rows.
  induction sch as [| [k classes] sch IH]; simpl; [reflexivity |].
  apply Permutation_app; [| exact IH].
  apply Permutation_map. symmetry. apply sort_classes_perm.
Qed.

(** ** The loader *)

Section LoaderFacts.

Variable uni_decimal : pychar -> bool.

Local Abbreviation parse := (parse_start_end_from_string uni_decimal).

Lemma parse_times_valid s a b :
  parse s = Ok (Some a, Some b) -> time_valid a /\ time_valid b.
Proof.
  destruct (re_findall uni_decimal s) as [| m0 [| m1 [| m2 l]]] eqn:E;
    try (rewrite parse_other_count; [congruence | rewrite E; simpl; discriminate]).
  rewrite (parse_two_matches _ _ _ _ E).
  destruct (time_fromisoformat m0) as [a' |] eqn:E0; [| congruence].
  destruct (time_fromisoformat m1) as [b' |] eqn:E1; [| congruence].
  intros H. assert (a' = a) by congruence. assert (b' = b) by congruence. subst.
  apply time_fromisoformat_ok in E0, E1. tauto.
Qed.

(** One turn of the loop: a row that is not blank, or any row under a
    header with a column, either joins the schedule or is passed over. *)
Lemma load_row_entries header sch (r : row) :
  header <> [] \/ r <> [] ->
  load_row uni_decimal header sch r
  = Ok (append_entries sch (accepted_entries uni_decimal header [r])).
Proof.
  intros Hne. unfold load_row, accepted_entries, loadable, load_entry.
  cbn [flat_map]. rewrite app_nil_r.
  destruct (Nat.ltb (length r) (length header)) eqn:Elen; [reflexivity |].
  assert (Hr : r <> []).
  { destruct Hne as [Hh | Hr]; [| exact Hr].
    apply Nat.ltb_ge in Elen. destruct header; [congruence |].
    destruct r; [simpl in Elen; lia | discriminate]. }
  rewrite (list_get_last r [] Hr).
  generalize (last r []). intros t.
  destruct (parse_returns uni_decimal t) as (p & Hp).
  destruct r as [| f0 [| f1 r']]; [congruence | |]; simpl; rewrite Hp; simpl.
  - destruct p as [[a |] [b |]]; reflexivity.
  - destruct f1 as [| c day], p as [[a |] [b |]]; reflexivity.
Qed.

Lemma load_rows_entries header rows :
  header <> [] \/ ~ In [] rows ->
  forall sch,
    foldR (load_row uni_decimal header) rows sch
    = Ok (append_entries sch (accepted_entries uni_decimal header rows)).
Proof.
  intros Hne. induction rows as [| r rows IH]; intros sch; [reflexivity |].
  cbn [foldR]. rewrite load_row_entries.
  - cbn [rbind]. rewrite IH.
    + unfold accepted_entries at 3. cbn [flat_map].
      rewrite append_entries_app.
      unfold accepted_entries at 1. cbn [flat_map]. now rewrite app_nil_r.
    + destruct Hne as [Hh | Hr]; [now left | right].
      intros Hin. apply Hr. now right.
  - destruct Hne as [Hh | Hr]; [now left | right].
    intros ->. apply Hr. now left.
Qed.

(** A blank row under a header without columns stops the loop: [row[-1]]
    raises. *)
Lemma load_rows_blank rows :
  In [] rows ->
  forall sch, foldR (load_row uni_decimal []) rows sch = Raise IndexError.
Proof.
  induction rows as [| r rows IH]; intros Hin sch; [destruct Hin |].
  cbn [foldR]. destruct r as [| f0 r'].
  - reflexivity.
  - rewrite load_row_entries by (right; discriminate). cbn [rbind].
    apply IH. destruct Hin as [H | H]; [discriminate | exact H].
Qed.

Lemma load_rows_ok header rows sch sch' :
  foldR (load_row uni_decimal header) rows sch = Ok sch' ->
  header <> [] \/ ~ In [] rows.
Proof.
  intros H. destruct header as [| h header]; [right | left; discriminate].
  intros Hin. rewrite load_rows_blank in H by assumption. discriminate.
Qed.

Lemma accepted_entries_in header rows x :
  In x (accepted_entries uni_decimal header rows) <->
  exists r, In r rows /\ loadable uni_decimal header r = true
            /\ load_entry uni_decimal r = Some x.
Proof.
  unfold accepted_entries. rewrite in_flat_map. split.
  - intros (r & Hr & Hx). exists r.
    destruct (loadable uni_decimal header r); [| destruct Hx].
    destruct (load_entry uni_decimal r) as [y |]; [| destruct Hx].
    destruct Hx as [-> | []]. auto.
  - intros (r & Hr & Hl & He). exists r. rewrite Hl, He. split; [exact Hr | now left].
Qed.

Lemma load_entry_spec (r : row) day s e r' :
  load_entry uni_decimal r = Some (day, (s, e, r')) ->
  r' = r /\ nth_error r 1 = Some day /\ day <> []
  /\ parse (last r []) = Ok (Some s, Some e).
Proof.
  unfold load_entry.
  destruct (nth_error r 1) as [[| c d] |]; try discriminate.
  destruct (parse (last r [])) as [[[a |] [b |]] | ex]; try discriminate.
  intros [= <- <- <- <-]. repeat split. discriminate.
Qed.

Lemma loadable_entry header (r : row) :
  loadable uni_decimal header r = true ->
  exists day s e, load_entry uni_decimal r = Some (day, (s, e, r)).
Proof.
  unfold loadable, load_entry.
  destruct (nth_error r 1) as [[| c d] |];
    try (rewrite andb_false_r; discriminate).
  destruct (parse (last r [])) as [[[a |] [b |]] | ex];
    try (rewrite andb_false_r; discriminate).
  eauto.
Qed.

Lemma accepted_entries_rows header rows :
  map (fun x => snd (snd x)) (accepted_entries uni_decimal header rows)
  = filter (loadable uni_decimal header) rows.
Proof.
  unfold accepted_entries.
  induction rows as [| r rows IH]; [reflexivity |].
  cbn [flat_map filter]. rewrite map_app.
  destruct (loadable uni_decimal header r) eqn:El; [| exact IH].
  destruct (loadable_entry _ _ El) as (day & s & e & ->).
  cbn [map app snd]. f_equal. exact IH.
Qed.

(** What [load_schedule] returns for a file with a header line that is
    read to its end and whose loop runs to its end. *)
Lemma load_schedule_entries header rows :
  header <> [] \/ ~ In [] rows ->
  load_schedule uni_decimal (Some (header :: rows, EndOfFile))
  = (header,
     map (fun dc => (fst dc, sort_classes (snd dc)))
         (append_entries [] (accepted_entries uni_decimal header rows))).
Proof.
  intros Hne. unfold load_schedule. now rewrite load_rows_entries.
Qed.

End LoaderFacts.

Section Loader.

Variable uni_decimal : pychar -> bool.

Lemma accepted_entries_loaded header rows day c :
  In (day, c) (accepted_entries uni_decimal header rows) ->
  day <> [] /\ loadable uni_decimal header (snd c) = true
  /\ loaded_from uni_decimal header rows day c.
Proof.
  intros Hin. apply accepted_entries_in in Hin.
  destruct Hin as (r & Hr & Hl & He). destruct c as [[s e] r'].
  apply load_entry_spec in He. destruct He as (-> & Hday & Hne & Hp).
  split; [exact Hne |]. split; [exact Hl |].
  unfold loaded_from; cbn [fst snd].
  destruct (parse_times_valid _ _ _ _ Hp) as [Hs He].
  split; [exact Hr |]. split; [| tauto].
  unfold loadable in Hl.
  destruct (Nat.ltb (length r) (length header)) eqn:E; [discriminate |].
  now apply Nat.ltb_ge in E.
Qed.

(** X11. What the loader returns is sound. For a file with a header line
    that the reader reads to its end without raising, where the header has
    a column or no row is blank, [load_schedule] returns the header of the
    file unchanged; no day occurs twice among the
    keys of the schedule; no key is the empty string and no day is without
    a class; the classes of a day are in ascending order of start; and
    every class of a day stands for a row of the file that is as long as
    the header at least, has the day as its second field, and has a last
    field in which the parser reads the start and the end of the class,
    both valid times of day. *)
Theorem load_schedule_sound (header : row) (rows : list row) :
  header <> [] \/ ~ In [] rows ->
  fst (load_schedule uni_decimal (Some (header :: rows, EndOfFile))) = header
  /\ NoDup (map fst (snd (load_schedule uni_decimal
                             (Some (header :: rows, EndOfFile)))))
  /\ Forall (fun dc : pystr * list class_entry =>
               fst dc <> [] /\ snd dc <> []
               /\ StronglySorted (fun a b => tle (slot_start a) (slot_start b)) (snd dc)
               /\ Forall (loaded_from uni_decimal header rows (fst dc)) (snd dc))
            (snd (load_schedule uni_decimal (Some (header :: rows, EndOfFile)))).
Proof.
  intros Hne. rewrite load_schedule_entries by exact Hne. cbn [fst snd].
  set (entries := accepted_entries uni_decimal header rows).
  set (sch := append_entries [] entries).
  assert (Hnd : NoDup (map fst sch)) by (apply append_entries_NoDup; constructor).
  assert (Hfull : Forall (fun dc : pystr * list class_entry => snd dc <> []) sch)
    by (apply append_entries_nonempty; constructor).
  assert (Hin : forall day classes c,
            In (day, classes) sch -> In c classes -> In (day, c) entries).
  { intros day classes c Hdc Hc.
    apply (Permutation_in (l := schedule_entries sch)).
    - unfold sch. now rewrite append_entries_perm.
    - unfold schedule_entries. apply in_flat_map. exists (day, classes).
      split; [exact Hdc |]. apply in_map_iff. exists c. auto. }
  split; [reflexivity |]. split.
  - rewrite map_map. cbn [fst]. exact Hnd.
  - apply Forall_forall. intros dc Hdc. apply in_map_iff in Hdc.
    destruct Hdc as ([day classes] & <- & Hdc). cbn [fst snd].
    assert (Hcl : classes <> [])
      by (rewrite Forall_forall in Hfull; apply (Hfull _ Hdc)).
    split; [| split; [| split]].
    + destruct classes as [| c classes]; [congruence |].
      apply (accepted_entries_loaded header rows day c).
      apply (Hin day (c :: classes)); [exact Hdc | now left].
    + intros Hs. apply Hcl. apply Permutation_nil. symmetry.
      rewrite <- Hs. apply sort_classes_perm.
    + apply sort_classes_sorted.
    + apply Forall_forall. intros c Hc.
      apply (accepted_entries_loaded header rows day c).
      apply (Hin day classes); [exact Hdc |].
      apply (Permutation_in (l := sort_classes classes)); [| exact Hc].
      symmetry. apply sort_classes_perm.
Qed.

Lemma accepted_entries_day header rows day :
  map (fun x => snd (snd x))
      (filter (fun x => pystr_eqb (fst x) day) (accepted_entries uni_decimal header rows))
  = filter (fun r => loadable uni_decimal header r && row_day_is day r) rows.
Proof.
  unfold accepted_entries.
  induction rows as [| r rows IH]; [reflexivity |].
  cbn [flat_map filter]. rewrite filter_app, map_app.
  destruct (loadable uni_decimal header r) eqn:El; [| exact IH].
  destruct (loadable_entry _ _ _ El) as (d & s & e & He). rewrite He.
  apply load_entry_spec in He. destruct He as (_ & Hd & _).
  unfold row_day_is at 1. rewrite Hd.
  cbn [filter fst andb]. destruct (pystr_eqb d day).
  - cbn [map app snd]. f_equal. exact IH.
  - exact IH.
Qed.

(** X12. A file that is read to its end loses no row, and none is
    invented. For a file with a header line that the reader reads to its
    end without raising, where the header has a column or no row is blank,
    the rows of the schedule are, up to their order, the rows
    of the file that are long enough for the header, have a second field
    that is not empty and have a last field that reads as two times; and
    the rows found under a day are those of them whose second field is
    that day. *)
Theorem load_schedule_complete (header : row) (rows : list row) :
  header <> [] \/ ~ In [] rows ->
  Permutation
    (schedule_rows (snd (load_schedule uni_decimal (Some (header :: rows, EndOfFile)))))
    (filter (loadable uni_decimal header) rows)
  /\ forall day,
       Permutation
         (map snd (schedule_get
                     (snd (load_schedule uni_decimal (Some (header :: rows, EndOfFile))))
                     day))
         (filter (fun r => loadable uni_decimal header r && row_day_is day r) rows).
Proof.
  intros Hne. rewrite load_schedule_entries by exact Hne. cbn [snd]. split.
  - rewrite schedule_rows_sorted, schedule_rows_entries.
    rewrite <- accepted_entries_rows.
    apply Permutation_map. now rewrite append_entries_perm.
  - intros day. rewrite schedule_get_sorted, <- sort_classes_perm.
    rewrite append_entries_get. cbn [schedule_get app].
    rewrite map_map. now rewrite accepted_entries_day.
Qed.

(** X13. When the loader gives up. Without a file, and with a file that
    has no header line, [load_schedule] returns an empty header and an
    empty schedule; and so it does when the header line has no column and
    some row is blank, whatever the other rows are and however the reader
    ends: the rows loaded before the blank row are lost with it. The same
    holds when the reader raises behind the rows it has yielded: the header
    and every row loaded until then are lost. *)
Theorem load_schedule_failures (rows : list row) :
  In [] rows ->
  load_schedule uni_decimal None = ([], [])
  /\ (forall fin, load_schedule uni_decimal (Some ([], fin)) = ([], []))
  /\ (forall fin, load_schedule uni_decimal (Some ([] :: rows, fin)) = ([], []))
  /\ (forall yielded : list row,
        load_schedule uni_decimal (Some (yielded, ReaderError)) = ([], [])).
Proof.
  intros Hin. split; [reflexivity |]. split; [reflexivity |]. split.
  - intros fin. unfold load_schedule. now rewrite load_rows_blank.
  - intros [| header yielded]; [reflexivity |]. unfold load_schedule.
    now destruct (foldR (load_row uni_decimal header) yielded []).
Qed.

End Loader.

Lemma load_schedule_sound_witness :
  fst (load_schedule (fun _ => false)
         (Some ([lit "name"; lit "day"; lit "time"]
                :: [[lit "a"; lit "d"; lit "08:00:00 09:35:00"]], EndOfFile)))
  = [lit "name"; lit "day"; lit "time"]
  /\ NoDup (map fst (snd (load_schedule (fun _ => false)
         (Some ([lit "name"; lit "day"; lit "time"]
                :: [[lit "a"; lit "d"; lit "08:00:00 09:35:00"]], EndOfFile))))).
Proof.
  split;
    apply (load_schedule_sound (fun _ => false)
             [lit "name"; lit "day"; lit "time"]
             [[lit "a"; lit "d"; lit "08:00:00 09:35:00"]]);
    left; discriminate.
Defined.

Lemma load_schedule_complete_witness :
  Permutation
    (schedule_rows (snd (load_schedule (fun _ => false)
       (Some ([lit "name"; lit "day"; lit "time"]
              :: [[lit "a"; lit "d"; lit "08:00:00 09:35:00"];
                  [lit "b"; lit "d"];
                  [lit "c"; lit ""; lit "10:00:00 11:00:00"]], EndOfFile)))))
    (filter (loadable (fun _ => false) [lit "name"; lit "day"; lit "time"])
       [[lit "a"; lit "d"; lit "08:00:00 09:35:00"];
        [lit "b"; lit "d"];
        [lit "c"; lit ""; lit "10:00:00 11:00:00"]]).
Proof.
  apply (load_schedule_complete (fun _ => false)
           [lit "name"; lit "day"; lit "time"]
           [[lit "a"; lit "d"; lit "08:00:00 09:35:00"];
            [lit "b"; lit "d"];
            [lit "c"; lit ""; lit "10:00:00 11:00:00"]]).
  left; discriminate.
Defined.

Lemma load_schedule_failures_witness :
  load_schedule (fun _ => false)
    (Some ([] :: [[lit "a"; lit "d"; lit "08:00:00 09:35:00"]; []], EndOfFile))
  = ([], [])
  /\ load_schedule (fun _ => false)
       (Some ([lit "name"; lit "day"; lit "time"]
              :: [[lit "a"; lit "d"; lit "08:00:00 09:35:00"]], ReaderError))
     = ([], []).
Proof.
  split;
    apply (load_schedule_failures (fun _ => false)
             [[lit "a"; lit "d"; lit "08:00:00 09:35:00"]; []]);
    right; left; reflexivity.
Defined.

(** ** The main program *)

Lemma insert_day_perm x l : Permutation (x :: l) (insert_day x l).
Proof.
  induction l as [| y l IH]; cbn [insert_day]; auto.
  destruct (dict_get day_map y 8 <? dict_get day_map x 8); auto.
  apply perm_trans with (y :: x :: l); [apply perm_swap | apply perm_skip, IH].
Qed.

Lemma sort_days_perm l : Permutation l (sort_days l).
Proof.
  induction l as [| x l IH]; simpl; auto.
  apply perm_trans with (x :: sort_days l); [apply perm_skip, IH |].
  apply insert_day_perm.
Qed.

Lemma render_day day n a : (2 <= n)%nat -> nth_error (render day n a) 1 = Some day.
Proof.
  intros Hn. unfold render. rewrite nth_error_firstn.
  destruct (Nat.ltb_spec 1 n) as [_ | H]; [| lia].
  rewrite pad_loop_spec by lia. reflexivity.
Qed.

Lemma schedule_rows_by_day sch days :
  NoDup (map fst sch) -> Permutation (map fst sch) days ->
  Permutation (flat_map (fun d => map snd (schedule_get sch d)) days)
              (schedule_rows sch).
Proof.
  intros Hnd Hp. rewrite <- Hp. unfold schedule_rows.
  rewrite flat_map_concat_map, map_map.
  replace (map (fun dc : pystr * list class_entry =>
                  map snd (schedule_get sch (fst dc))) sch)
    with (map (fun dc : pystr * list class_entry => map snd (snd dc)) sch);
    [reflexivity |].
  apply map_ext_in. intros [day classes] Hin. cbn [fst snd].
  now rewrite (schedule_get_in sch day classes Hnd Hin).
Qed.

Section MainFacts.

Variable uni_decimal : pychar -> bool.

(** The final sort returns, and what it returns is the rows in ascending
    order of their keys. *)
Lemma sort_events_sorted (rows : list row) :
  exists out,
    sort_events uni_decimal rows = Ok out
    /\ Permutation rows out
    /\ StronglySorted
         (fun a b => key_le (spec_sort_key uni_decimal a) (spec_sort_key uni_decimal b))
         out.
Proof.
  unfold sort_events. rewrite mapR_get_sort_key; simpl.
  rewrite combine_map_self.
  set (dec := map (fun r => (spec_sort_key uni_decimal r, r)) rows).
  assert (Hfst : Forall (fun x => fst x = spec_sort_key uni_decimal (snd x))
                        (sort_by_key dec)).
  { rewrite <- (sort_by_key_perm dec). subst dec.
    apply Forall_forall. intros x Hx. apply in_map_iff in Hx.
    destruct Hx as (r & <- & _). reflexivity. }
  eexists. split; [reflexivity |]. split.
  - replace rows with (map snd dec) at 1.
    + apply Permutation_map, sort_by_key_perm.
    + subst dec. rewrite map_map; simpl. apply map_id.
  - pose proof (sort_by_key_sorted dec) as Hs.
    induction Hs as [| x l Hs IH Hx]; simpl; constructor.
    + apply IH. now inversion Hfst.
    + inversion Hfst as [| ? ? Hx0 Hl]; subst.
      rewrite Forall_forall in *. intros b Hb.
      apply in_map_iff in Hb. destruct Hb as (y & <- & Hy).
      rewrite <- Hx0, <- (Hl y Hy). now apply Hx.
Qed.

(** One day under a header of eight columns or more: the rows of the
    classes, then rows of the width of the header that bear the day. *)
Lemma process_day_wide header sch all day g :
  (8 <= length header)%nat ->
  exists synth g',
    process_day header sch all day g
    = Ok (all ++ map snd (schedule_get sch day) ++ synth, g')
    /\ Forall (fun r : row => length r = length header /\ nth_error r 1 = Some day)
              synth.
Proof.
  intros Hn. unfold process_day.
  destruct (choice_nonempty DORMITORIES g) as (home & Hc & _); [discriminate |].
  unfold mbind at 1. rewrite Hc.
  destruct (print_free_slots day (schedule_get sch day)) as [| sl slots] eqn:Ef.
  - exists [], (fun i => g (S i)). split; [| constructor].
    unfold mret. now rewrite app_nil_r.
  - unfold mbind. rewrite fill_free_time_rows by exact Hn.
    rewrite fill_calls_plan.
    destruct (realise_total home (fill_plan (sl :: slots)) (fun i => g (S i)))
      as (acts & g' & Hr & _).
    rewrite Hr. exists (map (render day (length header)) acts), g'.
    split; [unfold mret; now rewrite app_assoc |].
    apply Forall_forall. intros r Hin. apply in_map_iff in Hin.
    destruct Hin as (a & <- & _). split; [apply render_length |].
    apply render_day. lia.
Qed.

Lemma process_days_wide header sch days :
  (8 <= length header)%nat ->
  forall all g,
  exists out synth g',
    foldM (process_day header sch) days all g = Ok (out, g')
    /\ Permutation out
         (all ++ flat_map (fun d => map snd (schedule_get sch d)) days ++ synth)
    /\ Forall (fun r : row => length r = length header
                              /\ exists day, In day days /\ nth_error r 1 = Some day)
              synth.
Proof.
  intros Hn. induction days as [| day days IH]; intros all g.
  - exists all, [], g. split; [reflexivity |]. split; [| constructor].
    simpl. now rewrite app_nil_r.
  - destruct (process_day_wide header sch all day g Hn) as (syn & g1 & Hd & Hsyn).
    destruct (IH (all ++ map snd (schedule_get sch day) ++ syn) g1)
      as (out & synth & g' & Hf & Hp & Hs).
    exists out, (syn ++ synth), g'. split; [| split].
    + cbn [foldM]. unfold mbind. now rewrite Hd.
    + rewrite Hp. cbn [flat_map]. rewrite <- !app_assoc.
      apply Permutation_app_head. apply Permutation_app_head.
      rewrite !app_assoc. apply Permutation_app_tail. apply Permutation_app_comm.
    + apply Forall_app; split.
      * eapply Forall_impl; [| exact Hsyn]. intros r [Hl Hr].
        split; [exact Hl |]. exists day. split; [now left | exact Hr].
      * eapply Forall_impl; [| exact Hs]. intros r (Hl & d & Hd' & Hr).
        split; [exact Hl |]. exists d. split; [now right | exact Hr].
Qed.

(** Under a header of fewer than eight columns, the first day with a free
    slot ends the loop over the days. *)
Lemma process_days_short header sch days :
  (length header < 8)%nat ->
  (exists day, In day days /\ print_free_slots day (schedule_get sch day) <> []) ->
  forall all g, foldM (process_day header sch) days all g = Raise IndexError.
Proof.
  intros Hn. induction days as [| day days IH]; intros (d & Hin & Hfree) all g.
  - destruct Hin.
  - cbn [foldM]. unfold mbind at 1, process_day.
    destruct (choice_nonempty DORMITORIES g) as (home & Hc & _); [discriminate |].
    unfold mbind at 1. rewrite Hc.
    destruct (print_free_slots day (schedule_get sch day)) as [| sl slots] eqn:Ef.
    + unfold mret. apply IH. exists d. split; [| exact Hfree].
      destruct Hin as [<- | Hin]; [congruence | exact Hin].
    + unfold mbind. now rewrite fill_free_time_short by (auto; discriminate).
Qed.

End MainFacts.

Lemma append_entries_keys entries : forall sch k,
  In k (map fst (append_entries sch entries)) ->
  In k (map fst sch) \/ In k (map fst entries).
Proof.
  induction entries as [| [day entry] entries IH]; intros sch k Hin; simpl in *.
  - now left.
  - apply IH in Hin. destruct Hin as [Hin | Hin]; [| now right; right].
    rewrite schedule_append_keys in Hin.
    destruct (existsb (fun k' => pystr_eqb k' day) (map fst sch)); [now left |].
    apply in_app_or in Hin. destruct Hin as [Hin | [-> | []]]; [now left |].
    right; now left.
Qed.

Section Main.

Variable uni_decimal : pychar -> bool.

Lemma accepted_entries_none header rows :
  (forall r, In r rows -> loadable uni_decimal header r = false) ->
  accepted_entries uni_decimal header rows = [].
Proof.
  unfold accepted_entries.
  induction rows as [| r rows IH]; intros H; [reflexivity |].
  cbn [flat_map]. rewrite (H r) by now left.
  apply IH. intros r' Hr'. apply H. now right.
Qed.

Lemma loaded_rows_perm header rows :
  Permutation
    (schedule_rows (map (fun dc => (fst dc, sort_classes (snd dc)))
                        (append_entries [] (accepted_entries uni_decimal header rows))))
    (filter (loadable uni_decimal header) rows).
Proof.
  rewrite schedule_rows_sorted, schedule_rows_entries.
  rewrite <- accepted_entries_rows.
  apply Permutation_map. now rewrite append_entries_perm.
Qed.

Lemma loaded_day_row header rows day :
  In day (map fst (append_entries [] (accepted_entries uni_decimal header rows))) ->
  exists r0, In r0 rows /\ loadable uni_decimal header r0 = true
             /\ nth_error r0 1 = Some day.
Proof.
  intros Hin. apply append_entries_keys in Hin. destruct Hin as [[] | Hin].
  apply in_map_iff in Hin. destruct Hin as ([d c] & Hd & Hin). cbn [fst] in Hd. subst d.
  apply accepted_entries_loaded in Hin.
  destruct Hin as (_ & Hl & Hr & _ & Hday & _).
  exists (snd c). auto.
Qed.

Lemma main_run csv header sch :
  load_schedule uni_decimal csv = (header, sch) -> sch <> [] ->
  forall g,
    main uni_decimal csv g
    = (all_events_to_write <-
         foldM (process_day header sch) (sort_days (map fst sch)) [] ;;
       sorted_events <- lift (sort_events uni_decimal all_events_to_write) ;;
       mret (Some (header, sorted_events)))%rand g.
Proof.
  intros H Hne g. unfold main. rewrite H.
  destruct sch; [congruence | reflexivity].
Qed.

(** X14. Nothing to write. Without a file, with a file that has no header
    line, and with a file none of whose rows can be loaded, however the
    reader ends, [main] leaves before it writes anything, and draws nothing
    at random; and so it does when the reader raises behind the rows it has
    yielded, whatever these rows are. *)
Theorem main_nothing_to_write (header : row) (rows : list row) (g : rng) :
  (forall r, In r rows -> loadable uni_decimal header r = false) ->
  main uni_decimal None g = Ok (None, g)
  /\ (forall fin, main uni_decimal (Some ([], fin)) g = Ok (None, g))
  /\ (forall fin, main uni_decimal (Some (header :: rows, fin)) g = Ok (None, g))
  /\ (forall yielded : list row,
        main uni_decimal (Some (yielded, ReaderError)) g = Ok (None, g)).
Proof.
  intros Hnone. split; [reflexivity |]. split; [reflexivity |]. split.
  - intros fin. unfold main, load_schedule.
    destruct (foldR (load_row uni_decimal header) rows []) as [sch | ex] eqn:E;
      [| reflexivity].
    pose proof (load_rows_ok _ _ _ _ _ E) as Hne.
    rewrite load_rows_entries in E by exact Hne.
    rewrite accepted_entries_none in E by exact Hnone.
    injection E as <-. now destruct fin.
  - intros [| hd yielded]; [reflexivity |]. unfold main, load_schedule.
    now destruct (foldR (load_row uni_decimal hd) yielded []).
Qed.

(** X15. A header of fewer than eight columns. When the loader returns a
    header of fewer than eight columns and a schedule with a day that has a
    free slot, [main] ends with an [IndexError] and writes nothing: the row
    builder cuts each synthetic row to the width of the header and then
    reads its eighth field. *)
Theorem main_short_header (csv : option reading) (header : row) (sch : schedule)
    (day : pystr) (g : rng) :
  load_schedule uni_decimal csv = (header, sch) ->
  (length header < 8)%nat ->
  In day (map fst sch) ->
  print_free_slots day (schedule_get sch day) <> [] ->
  main uni_decimal csv g = Raise IndexError.
Proof.
  intros Hload Hn Hday Hfree.
  rewrite (main_run csv header sch Hload) by (destruct sch; [destruct Hday | discriminate]).
  unfold mbind at 1.
  rewrite process_days_short; [reflexivity | exact Hn |].
  exists day. split; [| exact Hfree].
  apply (Permutation_in (l := map fst sch)); [apply sort_days_perm | exact Hday].
Qed.

(** X16. What the program writes. For a file that the reader reads to its
    end without raising, whose header has eight columns or more and with a
    row that can be loaded, [main] does not raise and hands to the writer
    the header of the file and then rows such that: up to
    their order they are the rows of the file that can be loaded, each one
    once, and synthetic rows; every synthetic row has as many fields as
    the header and bears the day of a loaded row; and the rows are written
    in ascending order of the key (ordinal of the day, start time). *)
Theorem main_writes (header : row) (rows : list row) (g : rng) :
  (8 <= length header)%nat ->
  (exists r, In r rows /\ loadable uni_decimal header r = true) ->
  exists out synth g',
    main uni_decimal (Some (header :: rows, EndOfFile)) g
    = Ok (Some (header, out), g')
    /\ Permutation out (filter (loadable uni_decimal header) rows ++ synth)
    /\ Forall (fun r : row =>
                 length r = length header
                 /\ exists r0, In r0 rows /\ loadable uni_decimal header r0 = true
                               /\ nth_error r 1 = nth_error r0 1)
              synth
    /\ StronglySorted
         (fun a b => key_le (spec_sort_key uni_decimal a) (spec_sort_key uni_decimal b))
         out.
Proof.
  intros Hn (r1 & Hr1 & Hl1).
  assert (Hne : header <> [] \/ ~ In [] rows)
    by (left; destruct header; [simpl in Hn; lia | discriminate]).
  pose proof (load_schedule_entries uni_decimal header rows Hne) as Hload.
  set (entries := accepted_entries uni_decimal header rows) in *.
  set (sch0 := append_entries [] entries) in *.
  set (sch := map (fun dc => (fst dc, sort_classes (snd dc))) sch0) in *.
  assert (Hkeys : map fst sch = map fst sch0)
    by (unfold sch; rewrite map_map; reflexivity).
  assert (Hnd : NoDup (map fst sch))
    by (rewrite Hkeys; apply append_entries_NoDup; constructor).
  assert (Hrows : Permutation (schedule_rows sch) (filter (loadable uni_decimal header) rows))
    by apply loaded_rows_perm.
  assert (Hsch : sch <> []).
  { intros Hnil. rewrite Hnil in Hrows. apply Permutation_nil in Hrows.
    assert (Hin : In r1 (filter (loadable uni_decimal header) rows))
      by (apply filter_In; auto).
    rewrite Hrows in Hin. destruct Hin. }
  destruct (process_days_wide header sch (sort_days (map fst sch)) Hn [] g)
    as (out0 & synth & g' & Hf & Hp & Hs).
  destruct (sort_events_sorted uni_decimal out0) as (out & Hsort & Hperm & Hsorted).
  exists out, synth, g'. split; [| split; [| split]].
  - rewrite (main_run _ header sch Hload Hsch).
    unfold mbind, lift, mret. now rewrite Hf, Hsort.
  - rewrite <- Hperm, Hp. cbn [app]. apply Permutation_app_tail.
    rewrite <- Hrows. apply schedule_rows_by_day; [exact Hnd | apply sort_days_perm].
  - eapply Forall_impl; [| exact Hs]. intros r (Hlen & day & Hday & Hr).
    split; [exact Hlen |].
    assert (Hin : In day (map fst sch0)).
    { rewrite <- Hkeys.
      apply (Permutation_in (l := sort_days (map fst sch))); [| exact Hday].
      symmetry. apply sort_days_perm. }
    destruct (loaded_day_row header rows day Hin) as (r0 & Hr0 & Hl0 & Hd0).
    exists r0. split; [exact Hr0 |]. split; [exact Hl0 |]. congruence.
  - exact Hsorted.
Qed.

End Main.

Lemma main_nothing_to_write_witness :
  main (fun _ => false)
       (Some ([lit "name"; lit "day"; lit "time"]
              :: [[lit "b"; lit "d"]; [lit "c"; lit ""; lit "10:00:00 11:00:00"]],
              EndOfFile))
       (fun _ => O)
  = Ok (None, fun _ => O)
  /\ main (fun _ => false)
       (Some ([lit "name"; lit "day"; lit "time"]
              :: [[lit "a"; lit "d"; lit "08:00:00 09:35:00"]], ReaderError))
       (fun _ => O)
     = Ok (None, fun _ => O).
Proof.
  split;
    apply (main_nothing_to_write (fun _ => false)
             [lit "name"; lit "day"; lit "time"]
             [[lit "b"; lit "d"]; [lit "c"; lit ""; lit "10:00:00 11:00:00"]]
             (fun _ => O));
    intros r [<- | [<- | []]]; reflexivity.
Defined.

Lemma main_short_header_witness :
  main (fun _ => false)
       (Some ([lit "name"; lit "day"; lit "time"]
              :: [[lit "a"; lit "d"; lit "08:00:00 09:35:00"]], EndOfFile))
       (fun _ => O)
  = Raise IndexError.
Proof.
  apply (main_short_header (fun _ => false)
           (Some ([lit "name"; lit "day"; lit "time"]
                  :: [[lit "a"; lit "d"; lit "08:00:00 09:35:00"]], EndOfFile))
           [lit "name"; lit "day"; lit "time"]
           [(lit "d", [(mk_time 8 0 0, mk_time 9 35 0,
                        [lit "a"; lit "d"; lit "08:00:00 09:35:00"])])]
           (lit "d") (fun _ => O)).
  - reflexivity.
  - simpl; lia.
  - now left.
  - discriminate.
Defined.

Lemma main_writes_witness :
  exists out g',
    main (fun _ => false)
         (Some ([lit "name"; lit "day"; lit "c3"; lit "c4"; lit "c5"; lit "c6";
                 lit "kind"; lit "place"; lit "time"]
                :: [[lit "a"; lit "d"; lit "-"; lit "-"; lit "-"; lit "-";
                     lit "k"; lit "p"; lit "08:00:00 09:35:00"]], EndOfFile))
         (fun _ => O)
    = Ok (Some ([lit "name"; lit "day"; lit "c3"; lit "c4"; lit "c5"; lit "c6";
                 lit "kind"; lit "place"; lit "time"], out), g')
    /\ StronglySorted
         (fun a b => key_le (spec_sort_key (fun _ => false) a)
                            (spec_sort_key (fun _ => false) b))
         out.
Proof.
  destruct (main_writes (fun _ => false)
              [lit "name"; lit "day"; lit "c3"; lit "c4"; lit "c5"; lit "c6";
               lit "kind"; lit "place"; lit "time"]
              [[lit "a"; lit "d"; lit "-"; lit "-"; lit "-"; lit "-";
                lit "k"; lit "p"; lit "08:00:00 09:35:00"]]
              (fun _ => O))
    as (out & synth & g' & Hm & _ & _ & Hs).
  - simpl; lia.
  - eexists. split; [now left | reflexivity].
  - exists out, g'. split; [exact Hm | exact Hs].
Defined.
